(** * diff_drive_controller: the control cycle and the lifecycle callbacks

    A shallow embedding of [DiffDriveController] as defined in
    [diff_drive_controller/src/diff_drive_controller.cpp]:

    - [double] is the kernel's binary64 type [float], so arithmetic,
      comparisons and NaN behave as in the C++ program;
    - [rclcpp::Time] and [rclcpp::Duration] are nanosecond counts in [Z];
    - the robot hardware is a store of joints and operation modes keyed by
      name; a handle held by the controller is a pointer into that store,
      here the name of the object it points to, or [None] for [nullptr];
    - every member function takes the controller object and the hardware and
      returns the new ones together with the calls it made on its
      collaborators, in program order;
    - an execution that dereferences a null pointer or indexes a vector out
      of range has no defined result, which [Outcome] makes explicit. *)

From Stdlib Require Import ZArith Floats.
From stdpp Require Import base option list gmap strings.

Set Warnings "-inexact-float".

Local Open Scope Z_scope.

(** ** Undefined behaviour *)

Inductive Fault : Set :=
| NullPointer      (* [p->m] with [p == nullptr] *)
| OutOfBounds      (* [v[i]] with [i >= v.size()], or a copy past the end *)
| DanglingHandle.  (* a handle to an object the hardware does not hold *)

Inductive Outcome (A : Type) : Type :=
| Returns (a : A)
| Undefined (f : Fault).
Arguments Returns {A} a.
Arguments Undefined {A} f.

#[global] Instance Outcome_ret : MRet Outcome := fun _ a => Returns a.
#[global] Instance Outcome_bind : MBind Outcome := fun _ _ k m =>
  match m with
  | Returns a => k a
  | Undefined f => Undefined f
  end.

(** [p->...] on a possibly null pointer. *)
Definition deref {A} (p : option A) : Outcome A :=
  match p with
  | Some a => Returns a
  | None => Undefined NullPointer
  end.

(** [v[i]] on a [std::vector], where the element is used. *)
Definition at_index {A} (v : list A) (i : nat) : Outcome A :=
  match v !! i with
  | Some a => Returns a
  | None => Undefined OutOfBounds
  end.

(** Reading through a reference [v[i]] that was passed on unread: to form
    the reference touches no element, so [None], the reference into a
    vector that has no element [i], is harmless until it is read. *)
Definition read_reference {A} (r : option A) : Outcome A :=
  match r with
  | Some a => Returns a
  | None => Undefined OutOfBounds
  end.

(** ** Time *)

Definition Time := Z.      (* rclcpp::Time, nanoseconds *)
Definition Duration := Z.  (* rclcpp::Duration, nanoseconds *)

(** Conversion of a 64-bit signed count to [double], for counts of
    magnitude below 2^63. *)
Definition float_of_Z (z : Z) : float :=
  if z <? 0 then (- PrimFloat.of_uint63 (Uint63.of_Z (- z)))%float
  else PrimFloat.of_uint63 (Uint63.of_Z z).

(** [rclcpp::Duration::seconds()]. *)
Definition seconds (d : Duration) : float := (float_of_Z d / 1e9)%float.

(** The value a signed 64-bit integer holds for an arithmetic result [z]:
    two's complement, wrapping around. *)
Definition wrap_int64 (z : Z) : Z := (z + 2 ^ 63) mod 2 ^ 64 - 2 ^ 63.

(** A [std::chrono::milliseconds] value converted to [rclcpp::Duration],
    that is to a count of nanoseconds in an [int64_t]: the conversion
    multiplies by 1000000 in 64-bit arithmetic, so beyond 9223372036854 ms
    either way the product wraps around. *)
Definition milliseconds (ms : Z) : Duration := wrap_int64 (ms * 1000000).

Arguments wrap_int64 : simpl never.
Arguments milliseconds : simpl never.

(** ** Robot hardware (hardware_interface) *)

Inductive OperationMode : Set := ACTIVE | INACTIVE.

Record JointState : Set := {
  position : float;
  velocity : float;
  effort : float
}.

Record RobotHardware : Type := {
  joint_states : gmap string JointState;       (* registered state handles *)
  joint_commands : gmap string float;          (* registered command handles *)
  operation_modes : gmap string OperationMode  (* registered mode handles *)
}.

(** The calls the controller makes on its collaborators. *)
Inductive Event : Set :=
| GetPosition (joint : string)                       (* state->get_position() *)
| SetCmd (joint : string) (v : float)                (* command->set_cmd(v) *)
| SetMode (op : string) (m : OperationMode)          (* op->set_mode(m) *)
| OdometryUpdateOpenLoop (lin ang : float) (t : Time)
| OdometryUpdate (left right : float) (t : Time)
| ReadFromRT                                         (* command_.readFromRT() *)
| PublishOdometry (t : Time)
| PublishTransform (t : Time)
| PublishWheelData (t : Time) (vel_left_desired vel_right_desired : float)
| PublishLimitedVelocity (t : Time) (lin ang : float)
| LogError (msg : string).

Definition get_position (hw : RobotHardware) (joint : string) : Outcome float :=
  match joint_states hw !! joint with
  | Some s => Returns (position s)
  | None => Undefined DanglingHandle
  end.

Definition set_cmd (joint : string) (v : float) (hw : RobotHardware)
  : Outcome RobotHardware :=
  match joint_commands hw !! joint with
  | Some _ =>
      Returns {| joint_states := joint_states hw;
                 joint_commands := <[joint := v]> (joint_commands hw);
                 operation_modes := operation_modes hw |}
  | None => Undefined DanglingHandle
  end.

Definition set_mode (op : string) (m : OperationMode) (hw : RobotHardware)
  : Outcome RobotHardware :=
  match operation_modes hw !! op with
  | Some _ =>
      Returns {| joint_states := joint_states hw;
                 joint_commands := joint_commands hw;
                 operation_modes := <[op := m]> (operation_modes hw) |}
  | None => Undefined DanglingHandle
  end.

(** [struct WheelHandle]: the two raw pointers [configure_side] resolves
    and [update] and [halt] dereference; null in an element that
    [resize] has just added. *)
Record WheelHandle : Set := {
  state : option string;     (* const JointStateHandle * *)
  command : option string    (* JointCommandHandle * *)
}.

Definition WheelHandle_default : WheelHandle :=
  {| state := None; command := None |}.

(** ** Odometry *)

(** Modelled from the spec: class [Odometry] (odometry.hpp, odometry.cpp) is
    not among the sources; the controller only calls it.  The spec gives its
    operations: [updateOpenLoop] and [update] integrate the pose along an
    arc, [resetOdometry] "zeroes Pose2D and velocity estimate", and
    [setWheelParams] and [setVelocityRollingWindowSize] are configuration
    setters.  The arc needs sine and cosine, which binary64 arithmetic alone
    does not give, so an odometry object is represented by the operations
    applied to it since construction; the object is deterministic, hence
    this determines its pose and velocity estimate.  [Odometry_update]
    stands for [Odometry::update]. *)
Inductive Odometry : Set :=
| Odometry_new
| setWheelParams (o : Odometry) (wheel_separation left_wheel_radius right_wheel_radius : float)
| setVelocityRollingWindowSize (o : Odometry) (velocity_rolling_window_size : Z)
| resetOdometry (o : Odometry)
| updateOpenLoop (o : Odometry) (linear angular : float) (t : Time)
| Odometry_update (o : Odometry) (left_pos right_pos : float) (t : Time).

(** Modelled from the spec: the integration steps ([updateOpenLoop],
    [update]) applied since the pose and the velocity estimate were last
    zeroed.  With none, the pose is the origin and the estimate is zero. *)
Fixpoint integrated_since_reset (o : Odometry) : list (float * float * Time) :=
  match o with
  | Odometry_new => []
  | resetOdometry _ => []
  | setWheelParams o _ _ _ => integrated_since_reset o
  | setVelocityRollingWindowSize o _ => integrated_since_reset o
  | updateOpenLoop o lin ang t => integrated_since_reset o ++ [(lin, ang, t)]
  | Odometry_update o l r t => integrated_since_reset o ++ [(l, r, t)]
  end.

(** Modelled from the spec: the state [resetOdometry] leaves, pose at the
    origin and velocity estimate zero, nothing integrated since. *)
Definition at_origin (o : Odometry) : Prop := integrated_since_reset o = [].

(** ** SpeedLimiter *)

Module SpeedLimiter.

(** The constructor arguments, in the order [on_configure] passes them. *)
Record t : Set := {
  has_velocity_limits : bool;
  has_acceleration_limits : bool;
  has_jerk_limits : bool;
  min_velocity : float;
  max_velocity : float;
  min_acceleration : float;
  max_acceleration : float;
  min_jerk : float;
  max_jerk : float
}.

Local Open Scope float_scope.

(** Modelled from the spec: the member functions of [SpeedLimiter]
    (speed_limiter.cpp) are not among the sources; spec section 4.2
    describes [limit(candidate, previous, previous2, dt)], here
    [limit l v v0 v1 dt].  Clamping [x] to [[lo, hi]]. *)
Definition clamp (x lo hi : float) : float :=
  if x <? lo then lo else if hi <? x then hi else x.

(** Modelled from the spec: with jerk limiting enabled, the change of
    acceleration [(v - v0)/dt - (v0 - v1)/dt] is bounded by the jerk
    bounds, each side by its own, and [v] clipped accordingly. *)
Definition limit_jerk (l : t) (v v0 v1 dt : float) : float :=
  if has_jerk_limits l then
    let a0 := (v0 - v1) / dt in
    let da := clamp ((v - v0) / dt - a0) (min_jerk l) (max_jerk l) in
    v0 + (a0 + da) * dt
  else v.

(** Modelled from the spec: with acceleration limiting enabled,
    [(v - v0)/dt] is bounded to [[min_acceleration, max_acceleration]] and
    [v] clipped. *)
Definition limit_acceleration (l : t) (v v0 dt : float) : float :=
  if has_acceleration_limits l then
    v0 + clamp ((v - v0) / dt) (min_acceleration l) (max_acceleration l) * dt
  else v.

(** Modelled from the spec: with velocity limiting enabled, [v] is clamped
    to [[min_velocity, max_velocity]]. *)
Definition limit_velocity (l : t) (v : float) : float :=
  if has_velocity_limits l then clamp v (min_velocity l) (max_velocity l)
  else v.

(** Modelled from the spec: jerk, then acceleration, then velocity;
    [dt <= 0] passes [v] through unchanged. *)
Definition limit (l : t) (v v0 v1 dt : float) : float :=
  if dt <=? 0 then v
  else limit_velocity l (limit_acceleration l (limit_jerk l v v0 v1 dt) v0 dt).

(** No limit enabled. *)
Definition unlimited (l : t) : Prop :=
  has_velocity_limits l = false /\
  has_acceleration_limits l = false /\
  has_jerk_limits l = false.

End SpeedLimiter.

(** ** The controller object *)

(** [struct Commands].  Its declaration is in the header; [on_configure]
    calls the default-constructed value "zero-initialize command", which is
    taken here as zero velocities and a zero stamp. *)
Record Commands : Set := {
  lin : float;
  ang : float;
  stamp : Time
}.

Definition Commands_default : Commands :=
  {| lin := 0; ang := 0; stamp := 0 |}.

Record WheelParams : Set := {
  wheels_per_side : nat;
  separation : float;
  radius : float;
  separation_multiplier : float;
  left_radius_multiplier : float;
  right_radius_multiplier : float
}.

Record OdometryParams : Set := {
  open_loop : bool;
  enable_odom_tf : bool;
  base_frame_id : string;
  odom_frame_id : string;
  pose_covariance_diagonal : list float;   (* std::array<double, 6> *)
  twist_covariance_diagonal : list float   (* std::array<double, 6> *)
}.

(** A lifecycle publisher; [activated] is what [is_activated()] returns. *)
Record LifecyclePublisher : Set := { activated : bool }.

(** Primary states of the lifecycle node ([lifecycle_msgs::msg::State]). *)
Inductive State : Set :=
| PRIMARY_STATE_UNKNOWN
| PRIMARY_STATE_UNCONFIGURED
| PRIMARY_STATE_INACTIVE
| PRIMARY_STATE_ACTIVE
| PRIMARY_STATE_FINALIZED.

#[global] Instance State_eq_dec : EqDecision State.
Proof. solve_decision. Defined.

(** The data members the member functions below read or write.  A
    [shared_ptr] member is an [option]; each [realtime_*_publisher_] is
    created and reset together with the publisher it wraps and is not kept
    apart from it.  [lifecycle_state] is what
    [lifecycle_node_->get_current_state()] returns: the callbacks do not set
    it, the lifecycle node does. *)
Record DiffDriveController : Type := {
  left_wheel_names_ : list string;
  right_wheel_names_ : list string;
  write_op_names_ : list string;
  wheel_params_ : WheelParams;
  odom_params_ : OdometryParams;
  cmd_vel_timeout_ : Z;                       (* std::chrono::milliseconds *)
  allow_multiple_cmd_vel_publishers_ : bool;
  publish_limited_velocity_ : bool;
  publish_wheel_joint_controller_state_ : bool;
  limiter_linear_ : SpeedLimiter.t;
  limiter_angular_ : SpeedLimiter.t;
  registered_left_wheel_handles_ : list WheelHandle;
  registered_right_wheel_handles_ : list WheelHandle;
  registered_operation_mode_handles_ : list (option string);
  velocity_command_subscriber_ : bool;        (* non-null *)
  odometry_publisher_ : option LifecyclePublisher;
  odometry_transform_publisher_ : option LifecyclePublisher;
  limited_velocity_publisher_ : option LifecyclePublisher;
  wheel_joint_controller_state_publisher_ : option LifecyclePublisher;
  odometry_ : Odometry;
  subscriber_is_active_ : bool;
  command_ : Commands;                        (* RealtimeBuffer<Commands> *)
  last0_cmd_ : Commands;
  last1_cmd_ : Commands;
  previous_update_timestamp_ : Time;
  is_halted : bool;
  lifecycle_state : State
}.

Inductive controller_interface_ret_t : Set :=
| CONTROLLER_INTERFACE_RET_SUCCESS
| CONTROLLER_INTERFACE_RET_ERROR.

Inductive CallbackReturn : Set := SUCCESS | FAILURE | ERROR.

(** What a member function leaves behind: its return value, the controller
    object, the hardware, and the calls it made. *)
Abbreviation Result R :=
  (Outcome (R * DiffDriveController * RobotHardware * list Event)) (only parsing).

(** ** set_op_mode and halt *)

Fixpoint set_op_mode_handles (handles : list (option string)) (mode : OperationMode)
    (hw : RobotHardware) : Outcome (RobotHardware * list Event) :=
  match handles with
  | [] => Returns (hw, [])
  | op_mode_handle :: rest =>
      op ← deref op_mode_handle;
      hw1 ← set_mode op mode hw;
      '(hw2, evs) ← set_op_mode_handles rest mode hw1;
      Returns (hw2, SetMode op mode :: evs)
  end.

Definition set_op_mode (c : DiffDriveController) (mode : OperationMode)
    (hw : RobotHardware) : Outcome (RobotHardware * list Event) :=
  set_op_mode_handles (registered_operation_mode_handles_ c) mode hw.

(** The lambda [halt_wheels] of [halt]. *)
Fixpoint halt_wheels (wheel_handles : list WheelHandle) (hw : RobotHardware)
    : Outcome (RobotHardware * list Event) :=
  match wheel_handles with
  | [] => Returns (hw, [])
  | wheel_handle :: rest =>
      joint ← deref (command wheel_handle);
      hw1 ← set_cmd joint 0%float hw;
      '(hw2, evs) ← halt_wheels rest hw1;
      Returns (hw2, SetCmd joint 0%float :: evs)
  end.

Definition halt (c : DiffDriveController) (hw : RobotHardware)
    : Outcome (RobotHardware * list Event) :=
  '(hw1, evs1) ← halt_wheels (registered_left_wheel_handles_ c) hw;
  '(hw2, evs2) ← halt_wheels (registered_right_wheel_handles_ c) hw1;
  '(hw3, evs3) ← set_op_mode c ACTIVE hw2;
  Returns (hw3, evs1 ++ evs2 ++ evs3).

(** ** reset and the lifecycle callbacks *)

Definition reset (c : DiffDriveController) : bool * DiffDriveController :=
  (true,
   {| left_wheel_names_ := left_wheel_names_ c;
      right_wheel_names_ := right_wheel_names_ c;
      write_op_names_ := write_op_names_ c;
      wheel_params_ := wheel_params_ c;
      odom_params_ := odom_params_ c;
      cmd_vel_timeout_ := cmd_vel_timeout_ c;
      allow_multiple_cmd_vel_publishers_ := allow_multiple_cmd_vel_publishers_ c;
      publish_limited_velocity_ := publish_limited_velocity_ c;
      publish_wheel_joint_controller_state_ := publish_wheel_joint_controller_state_ c;
      limiter_linear_ := limiter_linear_ c;
      limiter_angular_ := limiter_angular_ c;
      registered_left_wheel_handles_ := [];
      registered_right_wheel_handles_ := [];
      registered_operation_mode_handles_ := [];
      velocity_command_subscriber_ := false;
      odometry_publisher_ := None;
      odometry_transform_publisher_ := None;
      limited_velocity_publisher_ := None;
      wheel_joint_controller_state_publisher_ := None;
      odometry_ := resetOdometry (odometry_ c);
      subscriber_is_active_ := false;
      command_ := command_ c;
      last0_cmd_ := last0_cmd_ c;
      last1_cmd_ := last1_cmd_ c;
      previous_update_timestamp_ := previous_update_timestamp_ c;
      is_halted := false;
      lifecycle_state := lifecycle_state c |}).

Definition on_cleanup (c : DiffDriveController) (hw : RobotHardware)
    : Result CallbackReturn :=
  '(hw1, evs) ← halt c hw;
  let '(ok, c1) := reset c in
  if negb ok then Returns (ERROR, c1, hw1, evs)
  else Returns (SUCCESS, c1, hw1, evs).

Definition on_error (c : DiffDriveController) (hw : RobotHardware)
    : Result CallbackReturn :=
  let '(ok, c1) := reset c in
  if negb ok then Returns (ERROR, c1, hw, [])
  else Returns (SUCCESS, c1, hw, []).

Definition on_shutdown (c : DiffDriveController) (hw : RobotHardware)
    : Result CallbackReturn :=
  '(hw1, evs) ← halt c hw;
  let '(ok, c1) := reset c in
  if negb ok then Returns (ERROR, c1, hw1, evs)
  else Returns (SUCCESS, c1, hw1, evs).

(** [p->on_activate()] and [p->on_deactivate()] on a publisher pointer. *)
Definition set_activated (b : bool) (p : option LifecyclePublisher)
    : Outcome (option LifecyclePublisher) :=
  _ ← deref p; Returns (Some {| activated := b |}).

Definition set_activated_if (flag b : bool) (p : option LifecyclePublisher)
    : Outcome (option LifecyclePublisher) :=
  if flag then set_activated b p else Returns p.

Definition with_activation (c : DiffDriveController) (halted_flag subscriber_active : bool)
    (tf odom limited wheel_state : option LifecyclePublisher) : DiffDriveController :=
  {| left_wheel_names_ := left_wheel_names_ c;
     right_wheel_names_ := right_wheel_names_ c;
     write_op_names_ := write_op_names_ c;
     wheel_params_ := wheel_params_ c;
     odom_params_ := odom_params_ c;
     cmd_vel_timeout_ := cmd_vel_timeout_ c;
     allow_multiple_cmd_vel_publishers_ := allow_multiple_cmd_vel_publishers_ c;
     publish_limited_velocity_ := publish_limited_velocity_ c;
     publish_wheel_joint_controller_state_ := publish_wheel_joint_controller_state_ c;
     limiter_linear_ := limiter_linear_ c;
     limiter_angular_ := limiter_angular_ c;
     registered_left_wheel_handles_ := registered_left_wheel_handles_ c;
     registered_right_wheel_handles_ := registered_right_wheel_handles_ c;
     registered_operation_mode_handles_ := registered_operation_mode_handles_ c;
     velocity_command_subscriber_ := velocity_command_subscriber_ c;
     odometry_publisher_ := odom;
     odometry_transform_publisher_ := tf;
     limited_velocity_publisher_ := limited;
     wheel_joint_controller_state_publisher_ := wheel_state;
     odometry_ := odometry_ c;
     subscriber_is_active_ := subscriber_active;
     command_ := command_ c;
     last0_cmd_ := last0_cmd_ c;
     last1_cmd_ := last1_cmd_ c;
     previous_update_timestamp_ := previous_update_timestamp_ c;
     is_halted := halted_flag;
     lifecycle_state := lifecycle_state c |}.

Definition on_activate (c : DiffDriveController) (hw : RobotHardware)
    : Result CallbackReturn :=
  tf ← set_activated true (odometry_transform_publisher_ c);
  odom ← set_activated true (odometry_publisher_ c);
  limited ← set_activated_if (publish_limited_velocity_ c) true
              (limited_velocity_publisher_ c);
  wheel_state ← set_activated_if (publish_wheel_joint_controller_state_ c) true
                  (wheel_joint_controller_state_publisher_ c);
  Returns (SUCCESS, with_activation c false true tf odom limited wheel_state, hw, []).

Definition on_deactivate (c : DiffDriveController) (hw : RobotHardware)
    : Result CallbackReturn :=
  '(hw1, evs) ← halt c hw;
  tf ← set_activated false (odometry_transform_publisher_ c);
  odom ← set_activated false (odometry_publisher_ c);
  limited ← set_activated_if (publish_limited_velocity_ c) false
              (limited_velocity_publisher_ c);
  wheel_state ← set_activated_if (publish_wheel_joint_controller_state_ c) false
                  (wheel_joint_controller_state_publisher_ c);
  Returns (SUCCESS, with_activation c (is_halted c) false tf odom limited wheel_state,
           hw1, evs).

(** ** update: one control cycle *)

(** What a cycle takes from outside the controller object: the clock and
    whether each realtime publisher could be locked. *)
Record CycleEnv : Set := {
  now : Time;
  odometry_trylock : bool;
  transform_trylock : bool;
  wheel_state_trylock : bool;
  limited_velocity_trylock : bool
}.

Definition float_of_nat (n : nat) : float := float_of_Z (Z.of_nat n).

(** The loop that reads and sums the wheel positions.  [None] is the
    early [return CONTROLLER_INTERFACE_RET_ERROR]. *)
Fixpoint read_positions (hw : RobotHardware) (lefts rights : list WheelHandle)
    (count index : nat) (left_position_mean right_position_mean : float)
    : Outcome (option (float * float) * list Event) :=
  match count with
  | O => Returns (Some (left_position_mean, right_position_mean), [])
  | S count' =>
      lh ← at_index lefts index;
      lj ← deref (state lh);
      left_position ← get_position hw lj;
      rh ← at_index rights index;
      rj ← deref (state rh);
      right_position ← get_position hw rj;
      if PrimFloat.is_nan left_position || PrimFloat.is_nan right_position then
        Returns (None,
                 [GetPosition lj; GetPosition rj;
                  LogError "Either the left or right wheel position is invalid"])
      else
        ('(r, evs) ← read_positions hw lefts rights count' (S index)
                       (left_position_mean + left_position)%float
                       (right_position_mean + right_position)%float;
         Returns (r, GetPosition lj :: GetPosition rj :: evs))
  end.

(** The odometry step of [update]: open loop from the last limited
    command, else from the mean wheel positions. *)
Definition update_odometry (c : DiffDriveController) (hw : RobotHardware)
    (current_time : Time) : Outcome (option Odometry * list Event) :=
  let wheels := wheel_params_ c in
  if open_loop (odom_params_ c) then
    Returns (Some (updateOpenLoop (odometry_ c) (lin (last0_cmd_ c)) (ang (last0_cmd_ c))
                     current_time),
             [OdometryUpdateOpenLoop (lin (last0_cmd_ c)) (ang (last0_cmd_ c)) current_time])
  else
    ('(r, evs) ← read_positions hw (registered_left_wheel_handles_ c)
                   (registered_right_wheel_handles_ c) (wheels_per_side wheels) 0
                   0%float 0%float;
     match r with
     | None => Returns (None, evs)
     | Some (left_sum, right_sum) =>
         let left_position_mean := (left_sum / float_of_nat (wheels_per_side wheels))%float in
         let right_position_mean := (right_sum / float_of_nat (wheels_per_side wheels))%float in
         Returns (Some (Odometry_update (odometry_ c) left_position_mean right_position_mean
                          current_time),
                  evs ++ [OdometryUpdate left_position_mean right_position_mean current_time])
     end).

(** [pub->is_activated() && realtime_pub->trylock()], then the
    publication. *)
Definition publish_if_locked (p : option LifecyclePublisher) (trylock : bool)
    (ev : Event) : Outcome (list Event) :=
  pub ← deref p;
  Returns (if activated pub && trylock then [ev] else []).

(** The wheel mixer. *)
Definition wheel_velocity_left (lin ang wheel_separation left_wheel_radius : float) : float :=
  ((lin - ang * wheel_separation / 2) / left_wheel_radius)%float.

Definition wheel_velocity_right (lin ang wheel_separation right_wheel_radius : float) : float :=
  ((lin + ang * wheel_separation / 2) / right_wheel_radius)%float.

(** The per-wheel reads of [publish_wheel_data]: each state pointer is
    dereferenced for position, velocity and effort.  Only their being
    defined is kept; unlike the reads of the odometry step they are not
    recorded among the calls of the cycle. *)
Fixpoint read_wheel_states (hw : RobotHardware) (lefts rights : list WheelHandle)
    (count index : nat) : Outcome unit :=
  match count with
  | O => Returns tt
  | S count' =>
      lh ← at_index lefts index;
      lj ← deref (state lh);
      _ ← get_position hw lj;
      rh ← at_index rights index;
      rj ← deref (state rh);
      _ ← get_position hw rj;
      read_wheel_states hw lefts rights count' (S index)
  end.

(** [publish_wheel_data].  The bookkeeping of the published message
    (its per-wheel arrays, [vel_left_previous_], [vel_right_previous_] and
    the previous desired velocities) is not represented, and of its calls
    only the publication is recorded: the state reads that fill the message
    leave no [GetPosition] in the list. *)
Definition publish_wheel_data (c : DiffDriveController) (hw : RobotHardware)
    (env : CycleEnv) (time : Time) (curr_cmd : Commands)
    (wheel_separation left_wheel_radius right_wheel_radius : float)
    : Outcome (list Event) :=
  if publish_wheel_joint_controller_state_ c then
    (_ ← deref (wheel_joint_controller_state_publisher_ c);
     if wheel_state_trylock env then
       (_ ← read_wheel_states hw (registered_left_wheel_handles_ c)
              (registered_right_wheel_handles_ c) (wheels_per_side (wheel_params_ c)) 0;
        Returns [PublishWheelData time
                   (wheel_velocity_left (lin curr_cmd) (ang curr_cmd) wheel_separation
                      left_wheel_radius)
                   (wheel_velocity_right (lin curr_cmd) (ang curr_cmd) wheel_separation
                      right_wheel_radius)])
     else Returns [])
  else Returns [].

(** The loop that writes the wheel commands. *)
Fixpoint set_wheel_velocities (lefts rights : list WheelHandle)
    (velocity_left velocity_right : float) (count index : nat) (hw : RobotHardware)
    : Outcome (RobotHardware * list Event) :=
  match count with
  | O => Returns (hw, [])
  | S count' =>
      lh ← at_index lefts index;
      lj ← deref (command lh);
      hw1 ← set_cmd lj velocity_left hw;
      rh ← at_index rights index;
      rj ← deref (command rh);
      hw2 ← set_cmd rj velocity_right hw1;
      '(hw3, evs) ← set_wheel_velocities lefts rights velocity_left velocity_right
                      count' (S index) hw2;
      Returns (hw3, SetCmd lj velocity_left :: SetCmd rj velocity_right :: evs)
  end.

(** The members a cycle assigns. *)
Definition with_cycle (c : DiffDriveController) (o : Odometry) (last0 last1 : Commands)
    (previous_update_timestamp : Time) (halted_flag : bool) : DiffDriveController :=
  {| left_wheel_names_ := left_wheel_names_ c;
     right_wheel_names_ := right_wheel_names_ c;
     write_op_names_ := write_op_names_ c;
     wheel_params_ := wheel_params_ c;
     odom_params_ := odom_params_ c;
     cmd_vel_timeout_ := cmd_vel_timeout_ c;
     allow_multiple_cmd_vel_publishers_ := allow_multiple_cmd_vel_publishers_ c;
     publish_limited_velocity_ := publish_limited_velocity_ c;
     publish_wheel_joint_controller_state_ := publish_wheel_joint_controller_state_ c;
     limiter_linear_ := limiter_linear_ c;
     limiter_angular_ := limiter_angular_ c;
     registered_left_wheel_handles_ := registered_left_wheel_handles_ c;
     registered_right_wheel_handles_ := registered_right_wheel_handles_ c;
     registered_operation_mode_handles_ := registered_operation_mode_handles_ c;
     velocity_command_subscriber_ := velocity_command_subscriber_ c;
     odometry_publisher_ := odometry_publisher_ c;
     odometry_transform_publisher_ := odometry_transform_publisher_ c;
     limited_velocity_publisher_ := limited_velocity_publisher_ c;
     wheel_joint_controller_state_publisher_ := wheel_joint_controller_state_publisher_ c;
     odometry_ := o;
     subscriber_is_active_ := subscriber_is_active_ c;
     command_ := command_ c;
     last0_cmd_ := last0;
     last1_cmd_ := last1;
     previous_update_timestamp_ := previous_update_timestamp;
     is_halted := halted_flag;
     lifecycle_state := lifecycle_state c |}.

Definition set_is_halted (c : DiffDriveController) (b : bool) : DiffDriveController :=
  with_cycle c (odometry_ c) (last0_cmd_ c) (last1_cmd_ c) (previous_update_timestamp_ c) b.

(** The command of this cycle: the stored one, or zero velocities when it
    is older than the timeout. *)
Definition brake_on_timeout (c : DiffDriveController) (current_time : Time)
    (curr_cmd : Commands) : Commands :=
  let dt := current_time - stamp curr_cmd in
  if dt >? milliseconds (cmd_vel_timeout_ c) then
    {| lin := 0; ang := 0; stamp := stamp curr_cmd |}
  else curr_cmd.

(** The block "Enforce limiters": each axis is limited against the two
    previously limited values; the stamp is kept. *)
Definition enforce_limiters (c : DiffDriveController) (update_dt : Duration)
    (curr_cmd : Commands) : Commands :=
  {| lin := SpeedLimiter.limit (limiter_linear_ c) (lin curr_cmd) (lin (last0_cmd_ c))
              (lin (last1_cmd_ c)) (seconds update_dt);
     ang := SpeedLimiter.limit (limiter_angular_ c) (ang curr_cmd) (ang (last0_cmd_ c))
              (ang (last1_cmd_ c)) (seconds update_dt);
     stamp := stamp curr_cmd |}.

(** The part of an active cycle after the odometry step. *)
Definition update_command (c : DiffDriveController) (hw : RobotHardware) (env : CycleEnv)
    (o : Odometry) : Result controller_interface_ret_t :=
  let current_time := now env in
  let wheels := wheel_params_ c in
  let wheel_separation := (separation_multiplier wheels * separation wheels)%float in
  let left_wheel_radius := (left_radius_multiplier wheels * radius wheels)%float in
  let right_wheel_radius := (right_radius_multiplier wheels * radius wheels)%float in
  evs_odom ← publish_if_locked (odometry_publisher_ c) (odometry_trylock env)
               (PublishOdometry current_time);
  evs_tf ← (if enable_odom_tf (odom_params_ c)
            then publish_if_locked (odometry_transform_publisher_ c) (transform_trylock env)
                   (PublishTransform current_time)
            else Returns []);
  (* Retrieve current velocity command and time step *)
  let curr_cmd := brake_on_timeout c current_time (command_ c) in
  let update_dt := current_time - previous_update_timestamp_ c in
  evs_wheel ← publish_wheel_data c hw env current_time curr_cmd wheel_separation
                left_wheel_radius right_wheel_radius;
  (* Enforce limiters *)
  let curr_cmd := enforce_limiters c update_dt curr_cmd in
  evs_limited ← (if publish_limited_velocity_ c
                 then publish_if_locked (limited_velocity_publisher_ c)
                        (limited_velocity_trylock env)
                        (PublishLimitedVelocity current_time (lin curr_cmd) (ang curr_cmd))
                 else Returns []);
  (* Compute wheels velocities *)
  let velocity_left :=
    wheel_velocity_left (lin curr_cmd) (ang curr_cmd) wheel_separation left_wheel_radius in
  let velocity_right :=
    wheel_velocity_right (lin curr_cmd) (ang curr_cmd) wheel_separation right_wheel_radius in
  (* Set wheels velocities *)
  '(hw1, evs_set) ← set_wheel_velocities (registered_left_wheel_handles_ c)
                      (registered_right_wheel_handles_ c) velocity_left velocity_right
                      (wheels_per_side wheels) 0 hw;
  '(hw2, evs_mode) ← set_op_mode c ACTIVE hw1;
  (* push back *)
  Returns (CONTROLLER_INTERFACE_RET_SUCCESS,
           with_cycle c o curr_cmd (last0_cmd_ c) current_time (is_halted c),
           hw2,
           evs_odom ++ evs_tf ++ [ReadFromRT] ++ evs_wheel ++ evs_limited ++ evs_set
             ++ evs_mode).

Definition update (c : DiffDriveController) (hw : RobotHardware) (env : CycleEnv)
    : Result controller_interface_ret_t :=
  if negb (bool_decide (lifecycle_state c = PRIMARY_STATE_ACTIVE)) then
    if negb (is_halted c) then
      ('(hw1, evs) ← halt c hw;
       Returns (CONTROLLER_INTERFACE_RET_SUCCESS, set_is_halted c true, hw1, evs))
    else Returns (CONTROLLER_INTERFACE_RET_SUCCESS, c, hw, [])
  else
    ('(r, evs) ← update_odometry c hw (now env);
     match r with
     | None => Returns (CONTROLLER_INTERFACE_RET_ERROR, c, hw, evs)
     | Some o =>
         '(ret, c1, hw1, evs1) ← update_command c hw env o;
         Returns (ret, c1, hw1, evs ++ evs1)
     end).

(** ** The robot description (urdf) *)

Module urdf.

Record Vector3 : Set := { x : float; y : float; z : float }.

Inductive Geometry : Set :=
| SPHERE (radius : float)
| BOX
| CYLINDER (radius : float)
| MESH.

Record Collision : Set := { geometry : option Geometry }.

Record Link : Set := { name : string; collision : option Collision }.

Record Joint : Set := {
  parent_to_joint_origin_transform_position : Vector3;
  child_link_name : string
}.

Record ModelInterface : Type := {
  joints_ : gmap string Joint;
  links_ : gmap string Link
}.

Definition getJoint (m : ModelInterface) (n : string) : option Joint := joints_ m !! n.
Definition getLink (m : ModelInterface) (n : string) : option Link := links_ m !! n.

End urdf.

Module urdf_util.

(** [std::pow(d, 2)] is taken as the correctly rounded square [d * d]. *)
Definition euclidean_of_vectors (vec1 vec2 : urdf.Vector3) : float :=
  let dx := (urdf.x vec1 - urdf.x vec2)%float in
  let dy := (urdf.y vec1 - urdf.y vec2)%float in
  let dz := (urdf.z vec1 - urdf.z vec2)%float in
  PrimFloat.sqrt (dx * dx + dy * dy + dz * dz)%float.

Definition has_collision_geometry (link : option urdf.Link) : bool :=
  match link with
  | None => false
  | Some l =>
      match urdf.collision l with
      | None => false
      | Some col =>
          match urdf.geometry col with
          | None => false
          | Some _ => true
          end
      end
  end.

(** The geometry behind [link->collision->geometry], where
    [has_collision_geometry] holds. *)
Definition collision_geometry (link : option urdf.Link) : option urdf.Geometry :=
  l ← link; col ← urdf.collision l; urdf.geometry col.

Definition is_cylinder (link : option urdf.Link) : bool :=
  if negb (has_collision_geometry link) then false
  else match collision_geometry link with
       | Some (urdf.CYLINDER _) => true
       | _ => false
       end.

Definition is_sphere (link : option urdf.Link) : bool :=
  if negb (has_collision_geometry link) then false
  else match collision_geometry link with
       | Some (urdf.SPHERE _) => true
       | _ => false
       end.

(** [Some r]: returns [true] with [wheel_radius = r]; [None]: returns
    [false] and leaves [wheel_radius] alone.  The final error message reads
    [wheel_link->name]. *)
Definition get_wheel_radius (wheel_link : option urdf.Link) : Outcome (option float) :=
  if is_cylinder wheel_link then
    match collision_geometry wheel_link with
    | Some (urdf.CYLINDER r) => Returns (Some r)
    | _ => Returns None
    end
  else if is_sphere wheel_link then
    match collision_geometry wheel_link with
    | Some (urdf.SPHERE r) => Returns (Some r)
    | _ => Returns None
    end
  else
    (_ ← deref wheel_link; Returns None).

End urdf_util.

(** ** Parameters of the lifecycle node *)

Module Param.

(** The values [get_parameter] returns in [on_configure].
    [robot_description] is [None] when the parameter cannot be retrieved,
    and else what [urdf::parseURDF] makes of the string: a model, or a null
    pointer. *)
Record t : Type := {
  left_wheel_names : list string;
  right_wheel_names : list string;
  write_op_modes : list string;
  wheel_separation : float;
  wheel_radius : float;
  wheel_separation_multiplier : float;
  left_wheel_radius_multiplier : float;
  right_wheel_radius_multiplier : float;
  robot_description : option (option urdf.ModelInterface);
  odom_frame_id : string;
  base_frame_id : string;
  pose_covariance_diagonal : list float;
  twist_covariance_diagonal : list float;
  open_loop : bool;
  enable_odom_tf : bool;
  cmd_vel_timeout : Z;
  allow_multiple_cmd_vel_publishers : bool;
  publish_limited_velocity : bool;
  publish_wheel_joint_controller_state : bool;
  velocity_rolling_window_size : Z;
  linear_x : SpeedLimiter.t;     (* linear.x.* *)
  angular_z : SpeedLimiter.t     (* angular.z.* *)
}.

End Param.

(** ** set_odom_params_from_urdf *)

Definition set_separation (w : WheelParams) (v : float) : WheelParams :=
  {| wheels_per_side := wheels_per_side w;
     separation := v;
     radius := radius w;
     separation_multiplier := separation_multiplier w;
     left_radius_multiplier := left_radius_multiplier w;
     right_radius_multiplier := right_radius_multiplier w |}.

Definition set_radius (w : WheelParams) (v : float) : WheelParams :=
  {| wheels_per_side := wheels_per_side w;
     separation := separation w;
     radius := v;
     separation_multiplier := separation_multiplier w;
     left_radius_multiplier := left_radius_multiplier w;
     right_radius_multiplier := right_radius_multiplier w |}.

(** The radius lookup, the second half of [set_odom_params_from_urdf]. *)
Definition lookup_radius_from_urdf (model : urdf.ModelInterface)
    (left_wheel_joint : option urdf.Joint) (w : WheelParams)
    : Outcome (bool * WheelParams) :=
  j ← deref left_wheel_joint;
  r ← urdf_util.get_wheel_radius (urdf.getLink model (urdf.child_link_name j));
  match r with
  | Some v => Returns (true, set_radius w v)
  | None => Returns (false, w)
  end.

(** Returns the boolean result and [wheel_params_] as the function leaves
    it.  The two names are [const std::string &] parameters: references,
    first read by the [getJoint] calls, after the short-circuit and after
    the description has been retrieved and parsed. *)
Definition set_odom_params_from_urdf (p : Param.t) (w : WheelParams)
    (left_wheel_name right_wheel_name : option string)
    (lookup_wheel_separation lookup_wheel_radius : bool)
    : Outcome (bool * WheelParams) :=
  if negb (lookup_wheel_separation || lookup_wheel_radius) then Returns (true, w)
  else
    match Param.robot_description p with
    | None => Returns (false, w)
    | Some parsed =>
        model ← deref parsed;
        left_name ← read_reference left_wheel_name;
        let left_wheel_joint := urdf.getJoint model left_name in
        right_name ← read_reference right_wheel_name;
        let right_wheel_joint := urdf.getJoint model right_name in
        if lookup_wheel_separation then
          match left_wheel_joint, right_wheel_joint with
          | None, _ => Returns (false, w)
          | Some _, None => Returns (false, w)
          | Some lj, Some rj =>
              let w1 := set_separation w
                          (urdf_util.euclidean_of_vectors
                             (urdf.parent_to_joint_origin_transform_position lj)
                             (urdf.parent_to_joint_origin_transform_position rj)) in
              if lookup_wheel_radius
              then lookup_radius_from_urdf model left_wheel_joint w1
              else Returns (true, w1)
          end
        else
          if lookup_wheel_radius
          then lookup_radius_from_urdf model left_wheel_joint w
          else Returns (true, w)
    end.

(** ** configure_side and on_configure *)

(** [v.resize(n)] with default-constructed new elements. *)
Definition resize {A} (n : nat) (d : A) (v : list A) : list A :=
  take n v ++ replicate (n - length v) d.

(** [get_joint_state_handle] and [get_joint_command_handle]: the pointer
    to the registered handle of that name, if there is one. *)
Definition get_joint_state_handle (hw : RobotHardware) (n : string) : option string :=
  match joint_states hw !! n with Some _ => Some n | None => None end.

Definition get_joint_command_handle (hw : RobotHardware) (n : string) : option string :=
  match joint_commands hw !! n with Some _ => Some n | None => None end.

Definition get_operation_mode_handle (hw : RobotHardware) (n : string) : option string :=
  match operation_modes hw !! n with Some _ => Some n | None => None end.

(** The loop of [configure_side] from [index] on. *)
Fixpoint register_handles (hw : RobotHardware) (wheel_names : list string) (index : nat)
    (registered_handles : list WheelHandle) : CallbackReturn * list WheelHandle :=
  match wheel_names with
  | [] => (SUCCESS, registered_handles)
  | wheel_name :: rest =>
      let wheel_handle := default WheelHandle_default (registered_handles !! index) in
      match get_joint_state_handle hw wheel_name with
      | None => (FAILURE, registered_handles)
      | Some s =>
          match get_joint_command_handle hw wheel_name with
          | None =>
              (FAILURE,
               <[index := {| state := Some s; command := command wheel_handle |}]>
                 registered_handles)
          | Some cmd =>
              register_handles hw rest (S index)
                (<[index := {| state := Some s; command := Some cmd |}]> registered_handles)
          end
      end
  end.

Definition configure_side (side : string) (wheel_names : list string)
    (registered_handles : list WheelHandle) (robot_hardware : RobotHardware)
    : CallbackReturn * list WheelHandle * list Event :=
  match wheel_names with
  | [] => (ERROR, registered_handles, [LogError ("No " +:+ side +:+ " wheel names specified.")])
  | _ =>
      let '(r, handles) :=
        register_handles robot_hardware wheel_names 0
          (resize (length wheel_names) WheelHandle_default registered_handles) in
      (r, handles, [])
  end.

(** The loop over [write_op_names_] in [on_configure]. *)
Fixpoint register_operation_modes (hw : RobotHardware) (op_names : list string) (index : nat)
    (handles : list (option string)) : bool * list (option string) :=
  match op_names with
  | [] => (true, handles)
  | op_name :: rest =>
      match get_operation_mode_handle hw op_name with
      | None => (false, handles)
      | Some h => register_operation_modes hw rest (S index) (<[index := Some h]> handles)
      end
  end.

(** [std::copy(src.begin(), src.end(), dst.begin())] into a fixed array. *)
Definition copy_into (src dst : list float) : Outcome (list float) :=
  if bool_decide (length src ≤ length dst)%nat
  then Returns (src ++ drop (length src) dst)
  else Undefined OutOfBounds.

(** What [on_configure] takes from outside the controller object. *)
Record ConfigureEnv : Type := {
  parameters : Param.t;
  robot_hardware_alive : bool;   (* robot_hardware_.lock() succeeds *)
  clock_now : Time
}.

(** The controller after the parameter block of [on_configure]: the
    members assigned between the URDF lookup and the size check. *)
Definition with_parameters (c : DiffDriveController) (p : Param.t) (w : WheelParams)
    (pose_diagonal twist_diagonal : list float) : DiffDriveController :=
  let wheel_separation := (separation_multiplier w * separation w)%float in
  let left_wheel_radius := (left_radius_multiplier w * radius w)%float in
  let right_wheel_radius := (right_radius_multiplier w * radius w)%float in
  {| left_wheel_names_ := Param.left_wheel_names p;
     right_wheel_names_ := Param.right_wheel_names p;
     write_op_names_ := Param.write_op_modes p;
     wheel_params_ := w;
     odom_params_ :=
       {| open_loop := Param.open_loop p;
          enable_odom_tf := Param.enable_odom_tf p;
          base_frame_id := Param.base_frame_id p;
          odom_frame_id := Param.odom_frame_id p;
          pose_covariance_diagonal := pose_diagonal;
          twist_covariance_diagonal := twist_diagonal |};
     cmd_vel_timeout_ := Param.cmd_vel_timeout p;
     allow_multiple_cmd_vel_publishers_ := Param.allow_multiple_cmd_vel_publishers p;
     publish_limited_velocity_ := Param.publish_limited_velocity p;
     publish_wheel_joint_controller_state_ := Param.publish_wheel_joint_controller_state p;
     limiter_linear_ := Param.linear_x p;
     limiter_angular_ := Param.angular_z p;
     registered_left_wheel_handles_ := registered_left_wheel_handles_ c;
     registered_right_wheel_handles_ := registered_right_wheel_handles_ c;
     registered_operation_mode_handles_ := registered_operation_mode_handles_ c;
     velocity_command_subscriber_ := velocity_command_subscriber_ c;
     odometry_publisher_ := odometry_publisher_ c;
     odometry_transform_publisher_ := odometry_transform_publisher_ c;
     limited_velocity_publisher_ := limited_velocity_publisher_ c;
     wheel_joint_controller_state_publisher_ := wheel_joint_controller_state_publisher_ c;
     odometry_ :=
       setVelocityRollingWindowSize
         (setWheelParams (odometry_ c) wheel_separation left_wheel_radius right_wheel_radius)
         (Param.velocity_rolling_window_size p);
     subscriber_is_active_ := subscriber_is_active_ c;
     command_ := command_ c;
     last0_cmd_ := last0_cmd_ c;
     last1_cmd_ := last1_cmd_ c;
     previous_update_timestamp_ := previous_update_timestamp_ c;
     is_halted := is_halted c;
     lifecycle_state := lifecycle_state c |}.

(** The controller when the URDF lookup fails: names and wheel parameters
    are assigned, nothing else. *)
Definition with_names_and_wheels (c : DiffDriveController) (p : Param.t) (w : WheelParams)
    : DiffDriveController :=
  {| left_wheel_names_ := Param.left_wheel_names p;
     right_wheel_names_ := Param.right_wheel_names p;
     write_op_names_ := Param.write_op_modes p;
     wheel_params_ := w;
     odom_params_ := odom_params_ c;
     cmd_vel_timeout_ := cmd_vel_timeout_ c;
     allow_multiple_cmd_vel_publishers_ := allow_multiple_cmd_vel_publishers_ c;
     publish_limited_velocity_ := publish_limited_velocity_ c;
     publish_wheel_joint_controller_state_ := publish_wheel_joint_controller_state_ c;
     limiter_linear_ := limiter_linear_ c;
     limiter_angular_ := limiter_angular_ c;
     registered_left_wheel_handles_ := registered_left_wheel_handles_ c;
     registered_right_wheel_handles_ := registered_right_wheel_handles_ c;
     registered_operation_mode_handles_ := registered_operation_mode_handles_ c;
     velocity_command_subscriber_ := velocity_command_subscriber_ c;
     odometry_publisher_ := odometry_publisher_ c;
     odometry_transform_publisher_ := odometry_transform_publisher_ c;
     limited_velocity_publisher_ := limited_velocity_publisher_ c;
     wheel_joint_controller_state_publisher_ := wheel_joint_controller_state_publisher_ c;
     odometry_ := odometry_ c;
     subscriber_is_active_ := subscriber_is_active_ c;
     command_ := command_ c;
     last0_cmd_ := last0_cmd_ c;
     last1_cmd_ := last1_cmd_ c;
     previous_update_timestamp_ := previous_update_timestamp_ c;
     is_halted := is_halted c;
     lifecycle_state := lifecycle_state c |}.

(** The handle vectors as the registration block leaves them. *)
Definition with_handles (c : DiffDriveController) (lefts rights : list WheelHandle)
    (ops : list (option string)) : DiffDriveController :=
  {| left_wheel_names_ := left_wheel_names_ c;
     right_wheel_names_ := right_wheel_names_ c;
     write_op_names_ := write_op_names_ c;
     wheel_params_ := wheel_params_ c;
     odom_params_ := odom_params_ c;
     cmd_vel_timeout_ := cmd_vel_timeout_ c;
     allow_multiple_cmd_vel_publishers_ := allow_multiple_cmd_vel_publishers_ c;
     publish_limited_velocity_ := publish_limited_velocity_ c;
     publish_wheel_joint_controller_state_ := publish_wheel_joint_controller_state_ c;
     limiter_linear_ := limiter_linear_ c;
     limiter_angular_ := limiter_angular_ c;
     registered_left_wheel_handles_ := lefts;
     registered_right_wheel_handles_ := rights;
     registered_operation_mode_handles_ := ops;
     velocity_command_subscriber_ := velocity_command_subscriber_ c;
     odometry_publisher_ := odometry_publisher_ c;
     odometry_transform_publisher_ := odometry_transform_publisher_ c;
     limited_velocity_publisher_ := limited_velocity_publisher_ c;
     wheel_joint_controller_state_publisher_ := wheel_joint_controller_state_publisher_ c;
     odometry_ := odometry_ c;
     subscriber_is_active_ := subscriber_is_active_ c;
     command_ := command_ c;
     last0_cmd_ := last0_cmd_ c;
     last1_cmd_ := last1_cmd_ c;
     previous_update_timestamp_ := previous_update_timestamp_ c;
     is_halted := is_halted c;
     lifecycle_state := lifecycle_state c |}.

(** The tail of a successful [on_configure]: [wheels_per_side], the
    publishers, the command buffer and history, the subscriber and the
    time stamp. *)
Definition with_publishers (c : DiffDriveController) (current_time : Time)
    : DiffDriveController :=
  {| left_wheel_names_ := left_wheel_names_ c;
     right_wheel_names_ := right_wheel_names_ c;
     write_op_names_ := write_op_names_ c;
     wheel_params_ :=
       {| wheels_per_side := length (registered_left_wheel_handles_ c);
          separation := separation (wheel_params_ c);
          radius := radius (wheel_params_ c);
          separation_multiplier := separation_multiplier (wheel_params_ c);
          left_radius_multiplier := left_radius_multiplier (wheel_params_ c);
          right_radius_multiplier := right_radius_multiplier (wheel_params_ c) |};
     odom_params_ := odom_params_ c;
     cmd_vel_timeout_ := cmd_vel_timeout_ c;
     allow_multiple_cmd_vel_publishers_ := allow_multiple_cmd_vel_publishers_ c;
     publish_limited_velocity_ := publish_limited_velocity_ c;
     publish_wheel_joint_controller_state_ := publish_wheel_joint_controller_state_ c;
     limiter_linear_ := limiter_linear_ c;
     limiter_angular_ := limiter_angular_ c;
     registered_left_wheel_handles_ := registered_left_wheel_handles_ c;
     registered_right_wheel_handles_ := registered_right_wheel_handles_ c;
     registered_operation_mode_handles_ := registered_operation_mode_handles_ c;
     velocity_command_subscriber_ := true;
     odometry_publisher_ := Some {| activated := false |};
     odometry_transform_publisher_ := Some {| activated := false |};
     limited_velocity_publisher_ :=
       if publish_limited_velocity_ c then Some {| activated := false |}
       else limited_velocity_publisher_ c;
     wheel_joint_controller_state_publisher_ :=
       if publish_wheel_joint_controller_state_ c then Some {| activated := false |}
       else wheel_joint_controller_state_publisher_ c;
     odometry_ := odometry_ c;
     subscriber_is_active_ := subscriber_is_active_ c;
     command_ := Commands_default;
     last0_cmd_ := Commands_default;
     last1_cmd_ := Commands_default;
     previous_update_timestamp_ := current_time;
     is_halted := is_halted c;
     lifecycle_state := lifecycle_state c |}.

(** [on_configure] from the size check on. *)
Definition configure_handles (c : DiffDriveController) (hw : RobotHardware)
    (env : ConfigureEnv) : Result CallbackReturn :=
  if negb (bool_decide (length (left_wheel_names_ c) = length (right_wheel_names_ c))) then
    Returns (ERROR, c, hw,
             [LogError "The number of left wheels and the number of right wheels are different"])
  else if negb (robot_hardware_alive env) then Returns (ERROR, c, hw, [])
  else
    let '(left_result, lefts, evs_l) :=
      configure_side "left" (left_wheel_names_ c) (registered_left_wheel_handles_ c) hw in
    let '(right_result, rights, evs_r) :=
      configure_side "right" (right_wheel_names_ c) (registered_right_wheel_handles_ c) hw in
    let c1 := with_handles c lefts rights (registered_operation_mode_handles_ c) in
    match left_result, right_result with
    | FAILURE, _ | _, FAILURE => Returns (FAILURE, c1, hw, evs_l ++ evs_r)
    | _, _ =>
        let '(ok, ops) :=
          register_operation_modes hw (write_op_names_ c) 0
            (resize (length (write_op_names_ c)) None (registered_operation_mode_handles_ c)) in
        let c2 := with_handles c lefts rights ops in
        if negb ok then Returns (FAILURE, c2, hw, evs_l ++ evs_r)
        else
          match lefts, rights, ops with
          | [], _, _ | _, [], _ | _, _, [] =>
              Returns (ERROR, c2, hw,
                       evs_l ++ evs_r ++
                       [LogError ("Either left wheel handles, right wheel handles, "
                                  +:+ "or operation modes are non existant")])
          | _, _, _ =>
              let c3 := with_publishers c2 (clock_now env) in
              '(hw1, evs_mode) ← set_op_mode c3 INACTIVE hw;
              Returns (SUCCESS, c3, hw1, evs_l ++ evs_r ++ evs_mode)
          end
    end.

Definition on_configure (c : DiffDriveController) (hw : RobotHardware) (env : ConfigureEnv)
    : Result CallbackReturn :=
  let '(ok, c0) := reset c in
  if negb ok then Returns (ERROR, c0, hw, [])
  else
    let p := parameters env in
    (* update parameters *)
    let w := {| wheels_per_side := wheels_per_side (wheel_params_ c0);
                separation := Param.wheel_separation p;
                radius := Param.wheel_radius p;
                separation_multiplier := Param.wheel_separation_multiplier p;
                left_radius_multiplier := Param.left_wheel_radius_multiplier p;
                right_radius_multiplier := Param.right_wheel_radius_multiplier p |} in
    let wheel_separation_missing := (separation w =? 0)%float in
    let wheel_radius_missing := (radius w =? 0)%float in
    (* left_wheel_names_[0] and right_wheel_names_[0], passed by reference *)
    let left0 := Param.left_wheel_names p !! 0%nat in
    let right0 := Param.right_wheel_names p !! 0%nat in
    '(found, w1) ← set_odom_params_from_urdf p w left0 right0 wheel_separation_missing
                     wheel_radius_missing;
    if negb found then
      Returns (FAILURE, with_names_and_wheels c0 p w1, hw,
               [LogError "The following configurations must be set via parameter or urdf"])
    else
      (pose_diagonal ← copy_into (Param.pose_covariance_diagonal p)
                         (pose_covariance_diagonal (odom_params_ c0));
       twist_diagonal ← copy_into (Param.twist_covariance_diagonal p)
                          (twist_covariance_diagonal (odom_params_ c0));
       configure_handles (with_parameters c0 p w1 pose_diagonal twist_diagonal) hw env).

(** ** Reading results *)

Definition returned {R} (o : Result R) : option R :=
  match o with
  | Returns (r, _, _, _) => Some r
  | Undefined _ => None
  end.

Definition controller_after {R} (o : Result R) : option DiffDriveController :=
  match o with
  | Returns (_, c, _, _) => Some c
  | Undefined _ => None
  end.

Definition hardware_after {R} (o : Result R) : option RobotHardware :=
  match o with
  | Returns (_, _, hw, _) => Some hw
  | Undefined _ => None
  end.

Definition calls_of {R} (o : Result R) : list Event :=
  match o with
  | Returns (_, _, _, evs) => evs
  | Undefined _ => []
  end.

(** The effect of a call on the hardware store; only [set_cmd] and
    [set_mode] write. *)
Definition apply_event (hw : RobotHardware) (e : Event) : RobotHardware :=
  match e with
  | SetCmd joint v =>
      {| joint_states := joint_states hw;
         joint_commands := <[joint := v]> (joint_commands hw);
         operation_modes := operation_modes hw |}
  | SetMode op m =>
      {| joint_states := joint_states hw;
         joint_commands := joint_commands hw;
         operation_modes := <[op := m]> (operation_modes hw) |}
  | _ => hw
  end.

Definition apply_events (evs : list Event) (hw : RobotHardware) : RobotHardware :=
  foldl apply_event hw evs.

Definition is_hardware_write (e : Event) : bool :=
  match e with
  | SetCmd _ _ | SetMode _ _ => true
  | _ => false
  end.

Definition is_wheel_write (e : Event) : bool :=
  match e with
  | SetCmd _ _ => true
  | _ => false
  end.

Definition is_sensing (e : Event) : bool :=
  match e with
  | GetPosition _ | LogError _ => true
  | _ => false
  end.

Definition is_publication (e : Event) : bool :=
  match e with
  | PublishOdometry _ | PublishTransform _ | PublishWheelData _ _ _
  | PublishLimitedVelocity _ _ _ => true
  | _ => false
  end.

Definition is_odometry_update (e : Event) : bool :=
  match e with
  | OdometryUpdateOpenLoop _ _ _ | OdometryUpdate _ _ _ => true
  | _ => false
  end.

Definition is_command_read (e : Event) : bool :=
  match e with
  | ReadFromRT => true
  | _ => false
  end.

(** The calls of [halt], in order. *)
Definition zero_commands (wheel_handles : list WheelHandle) : list Event :=
  flat_map (fun h => match command h with
                     | Some joint => [SetCmd joint 0%float]
                     | None => []
                     end) wheel_handles.

Definition mode_commands (handles : list (option string)) (mode : OperationMode)
    : list Event :=
  flat_map (fun h => match h with
                     | Some op => [SetMode op mode]
                     | None => []
                     end) handles.

Definition halt_calls (c : DiffDriveController) : list Event :=
  zero_commands (registered_left_wheel_handles_ c)
    ++ zero_commands (registered_right_wheel_handles_ c)
    ++ mode_commands (registered_operation_mode_handles_ c) ACTIVE.

(** The calls of the loop "Set wheels velocities", in order. *)
Fixpoint wheel_commands (lefts rights : list WheelHandle)
    (velocity_left velocity_right : float) : list Event :=
  match lefts, rights with
  | lh :: lefts', rh :: rights' =>
      match command lh, command rh with
      | Some lj, Some rj =>
          SetCmd lj velocity_left :: SetCmd rj velocity_right
            :: wheel_commands lefts' rights' velocity_left velocity_right
      | _, _ => []
      end
  | _, _ => []
  end.

(** The error [configure_side] logs for an empty name list. *)
Definition no_names_error (side : string) : Event :=
  LogError ("No " +:+ side +:+ " wheel names specified.").

(** ** Preconditions of the control cycle *)

(** Both pointers of a wheel handle point to handles the hardware holds. *)
Definition wheel_resolved (hw : RobotHardware) (h : WheelHandle) : bool :=
  match state h, command h with
  | Some s, Some j =>
      bool_decide (is_Some (joint_states hw !! s))
        && bool_decide (is_Some (joint_commands hw !! j))
  | _, _ => false
  end.

Definition mode_resolved (hw : RobotHardware) (h : option string) : bool :=
  match h with
  | Some op => bool_decide (is_Some (operation_modes hw !! op))
  | None => false
  end.

(** No registered handle is null or dangling. *)
Definition handles_valid (c : DiffDriveController) (hw : RobotHardware) : bool :=
  forallb (wheel_resolved hw) (registered_left_wheel_handles_ c)
    && forallb (wheel_resolved hw) (registered_right_wheel_handles_ c)
    && forallb (mode_resolved hw) (registered_operation_mode_handles_ c).

(** "Hardware handles resolved": valid handles, [wheels_per_side] of them
    on each side. *)
Definition handles_resolved (c : DiffDriveController) (hw : RobotHardware) : bool :=
  handles_valid c hw
    && bool_decide (length (registered_left_wheel_handles_ c)
                    = wheels_per_side (wheel_params_ c))
    && bool_decide (length (registered_right_wheel_handles_ c)
                    = wheels_per_side (wheel_params_ c)).

(** The publishers [on_configure] creates exist. *)
Definition publishers_created (c : DiffDriveController) : bool :=
  bool_decide (is_Some (odometry_publisher_ c))
    && bool_decide (is_Some (odometry_transform_publisher_ c))
    && (negb (publish_limited_velocity_ c)
        || bool_decide (is_Some (limited_velocity_publisher_ c)))
    && (negb (publish_wheel_joint_controller_state_ c)
        || bool_decide (is_Some (wheel_joint_controller_state_publisher_ c))).

(** The position a state pointer reads. *)
Definition reading (hw : RobotHardware) (h : WheelHandle) : option float :=
  s ← state h; js ← joint_states hw !! s; Some (position js).

Definition reads_nan (hw : RobotHardware) (h : WheelHandle) : bool :=
  match reading hw h with
  | Some p => PrimFloat.is_nan p
  | None => false
  end.

(** Some registered wheel reads a NaN position. *)
Definition some_position_is_nan (c : DiffDriveController) (hw : RobotHardware) : bool :=
  existsb (reads_nan hw) (registered_left_wheel_handles_ c)
    || existsb (reads_nan hw) (registered_right_wheel_handles_ c).

(** The odometry step of a cycle goes through: open loop, or no NaN among
    the positions read. *)
Definition encoders_valid (c : DiffDriveController) (hw : RobotHardware) : bool :=
  open_loop (odom_params_ c) || negb (some_position_is_nan c hw).

(** The stored command is older than the timeout at [current_time]. *)
Definition command_timed_out (c : DiffDriveController) (current_time : Time) : Prop :=
  current_time - stamp (command_ c) > milliseconds (cmd_vel_timeout_ c).

(** The effective kinematic parameters of a cycle. *)
Definition effective_separation (w : WheelParams) : float :=
  (separation_multiplier w * separation w)%float.
Definition effective_left_radius (w : WheelParams) : float :=
  (left_radius_multiplier w * radius w)%float.
Definition effective_right_radius (w : WheelParams) : float :=
  (right_radius_multiplier w * radius w)%float.

(** The hardware writes of a successful cycle, in order: the wheel
    commands mixed from the limited command [cmd], then the operation
    modes. *)
Definition cycle_writes (c : DiffDriveController) (cmd : Commands) : list Event :=
  let w := wheel_params_ c in
  wheel_commands (registered_left_wheel_handles_ c) (registered_right_wheel_handles_ c)
    (wheel_velocity_left (lin cmd) (ang cmd) (effective_separation w) (effective_left_radius w))
    (wheel_velocity_right (lin cmd) (ang cmd) (effective_separation w)
       (effective_right_radius w))
    ++ mode_commands (registered_operation_mode_handles_ c) ACTIVE.

(** The limited command of a cycle. *)
Definition limited_command (c : DiffDriveController) (current_time : Time) : Commands :=
  enforce_limiters c (current_time - previous_update_timestamp_ c)
    (brake_on_timeout c current_time (command_ c)).

(** ** A two-wheeled robot

    The concrete hardware, parameters and controller objects on which the
    properties below are instantiated and evaluated. *)

Module TwoWheels.

Definition joint (p : float) : JointState :=
  {| position := p; velocity := 0; effort := 0 |}.

(** One wheel a side, both commanded at 5 rad/s. *)
Definition hardware_reading (left_position right_position : float) : RobotHardware :=
  {| joint_states := {[ "left_wheel" := joint left_position;
                        "right_wheel" := joint right_position ]};
     joint_commands := {[ "left_wheel" := 5%float; "right_wheel" := 5%float ]};
     operation_modes := {[ "op" := ACTIVE ]} |}.

Definition hardware : RobotHardware := hardware_reading 0.5 0.25.

Definition no_limits : SpeedLimiter.t :=
  {| SpeedLimiter.has_velocity_limits := false;
     SpeedLimiter.has_acceleration_limits := false;
     SpeedLimiter.has_jerk_limits := false;
     SpeedLimiter.min_velocity := 0;
     SpeedLimiter.max_velocity := 0;
     SpeedLimiter.min_acceleration := 0;
     SpeedLimiter.max_acceleration := 0;
     SpeedLimiter.min_jerk := 0;
     SpeedLimiter.max_jerk := 0 |}.

(** Acceleration bounded to 1 m/s^2 either way. *)
Definition acceleration_limits : SpeedLimiter.t :=
  {| SpeedLimiter.has_velocity_limits := false;
     SpeedLimiter.has_acceleration_limits := true;
     SpeedLimiter.has_jerk_limits := false;
     SpeedLimiter.min_velocity := 0;
     SpeedLimiter.max_velocity := 0;
     SpeedLimiter.min_acceleration := (-1)%float;
     SpeedLimiter.max_acceleration := 1;
     SpeedLimiter.min_jerk := 0;
     SpeedLimiter.max_jerk := 0 |}.

Definition wheels (wheel_separation : float) : WheelParams :=
  {| wheels_per_side := 1;
     separation := wheel_separation;
     radius := 0.1;
     separation_multiplier := 1;
     left_radius_multiplier := 1;
     right_radius_multiplier := 1 |}.

Definition velocity_command (linear angular : float) (t : Time) : Commands :=
  {| lin := linear; ang := angular; stamp := t |}.

(** A configured controller: separation 0.5 m, radius 0.1 m, command
    timeout 500 ms, last cycle at 1 s. *)
Definition controller (st : State) (open : bool) (linear_limiter : SpeedLimiter.t)
    (cmd last0 last1 : Commands) (halted : bool) : DiffDriveController :=
  {| left_wheel_names_ := ["left_wheel"];
     right_wheel_names_ := ["right_wheel"];
     write_op_names_ := ["op"];
     wheel_params_ := wheels 0.5;
     odom_params_ :=
       {| open_loop := open;
          enable_odom_tf := true;
          base_frame_id := "base_link";
          odom_frame_id := "odom";
          pose_covariance_diagonal := replicate 6 0%float;
          twist_covariance_diagonal := replicate 6 0%float |};
     cmd_vel_timeout_ := 500;
     allow_multiple_cmd_vel_publishers_ := true;
     publish_limited_velocity_ := false;
     publish_wheel_joint_controller_state_ := false;
     limiter_linear_ := linear_limiter;
     limiter_angular_ := no_limits;
     registered_left_wheel_handles_ :=
       [{| state := Some "left_wheel"; command := Some "left_wheel" |}];
     registered_right_wheel_handles_ :=
       [{| state := Some "right_wheel"; command := Some "right_wheel" |}];
     registered_operation_mode_handles_ := [Some "op"];
     velocity_command_subscriber_ := true;
     odometry_publisher_ := Some {| activated := true |};
     odometry_transform_publisher_ := Some {| activated := true |};
     limited_velocity_publisher_ := None;
     wheel_joint_controller_state_publisher_ := None;
     odometry_ := updateOpenLoop (resetOdometry Odometry_new) 1 0 1000000000;
     subscriber_is_active_ := true;
     command_ := cmd;
     last0_cmd_ := last0;
     last1_cmd_ := last1;
     previous_update_timestamp_ := 1000000000;
     is_halted := halted;
     lifecycle_state := st |}.

(** Driving at 1 m/s on a command received at 0.99 s. *)
Definition driving (open : bool) : DiffDriveController :=
  controller PRIMARY_STATE_ACTIVE open no_limits
    (velocity_command 1 0 990000000) (velocity_command 1 0 990000000)
    (velocity_command 1 0 990000000) false.

(** The driving robot, in open loop, with another command timeout. *)
Definition driving_with_timeout (timeout : Z) : DiffDriveController :=
  let c := driving true in
  {| left_wheel_names_ := left_wheel_names_ c;
     right_wheel_names_ := right_wheel_names_ c;
     write_op_names_ := write_op_names_ c;
     wheel_params_ := wheel_params_ c;
     odom_params_ := odom_params_ c;
     cmd_vel_timeout_ := timeout;
     allow_multiple_cmd_vel_publishers_ := allow_multiple_cmd_vel_publishers_ c;
     publish_limited_velocity_ := publish_limited_velocity_ c;
     publish_wheel_joint_controller_state_ := publish_wheel_joint_controller_state_ c;
     limiter_linear_ := limiter_linear_ c;
     limiter_angular_ := limiter_angular_ c;
     registered_left_wheel_handles_ := registered_left_wheel_handles_ c;
     registered_right_wheel_handles_ := registered_right_wheel_handles_ c;
     registered_operation_mode_handles_ := registered_operation_mode_handles_ c;
     velocity_command_subscriber_ := velocity_command_subscriber_ c;
     odometry_publisher_ := odometry_publisher_ c;
     odometry_transform_publisher_ := odometry_transform_publisher_ c;
     limited_velocity_publisher_ := limited_velocity_publisher_ c;
     wheel_joint_controller_state_publisher_ := wheel_joint_controller_state_publisher_ c;
     odometry_ := odometry_ c;
     subscriber_is_active_ := subscriber_is_active_ c;
     command_ := command_ c;
     last0_cmd_ := last0_cmd_ c;
     last1_cmd_ := last1_cmd_ c;
     previous_update_timestamp_ := previous_update_timestamp_ c;
     is_halted := is_halted c;
     lifecycle_state := lifecycle_state c |}.

(** The same with the acceleration limited and the command grown stale
    (received at 0.2 s). *)
Definition stale (open : bool) (linear_limiter : SpeedLimiter.t) : DiffDriveController :=
  controller PRIMARY_STATE_ACTIVE open linear_limiter
    (velocity_command 1 0 200000000) (velocity_command 1 0 200000000)
    (velocity_command 1 0 200000000) false.

(** The same after the lifecycle node has left the active state. *)
Definition stopped (halted : bool) : DiffDriveController :=
  controller PRIMARY_STATE_INACTIVE true no_limits
    (velocity_command 1 0 990000000) (velocity_command 1 0 990000000)
    (velocity_command 1 0 990000000) halted.

(** A cycle at 1.01 s, every publisher lockable. *)
Definition cycle (t : Time) : CycleEnv :=
  {| now := t;
     odometry_trylock := true;
     transform_trylock := true;
     wheel_state_trylock := true;
     limited_velocity_trylock := true |}.

(** A controller object before its first configuration. *)
Definition unconfigured : DiffDriveController :=
  {| left_wheel_names_ := [];
     right_wheel_names_ := [];
     write_op_names_ := [];
     wheel_params_ :=
       {| wheels_per_side := 0; separation := 0; radius := 0;
          separation_multiplier := 1; left_radius_multiplier := 1;
          right_radius_multiplier := 1 |};
     odom_params_ :=
       {| open_loop := false;
          enable_odom_tf := true;
          base_frame_id := "base_link";
          odom_frame_id := "odom";
          pose_covariance_diagonal := replicate 6 0%float;
          twist_covariance_diagonal := replicate 6 0%float |};
     cmd_vel_timeout_ := 500;
     allow_multiple_cmd_vel_publishers_ := true;
     publish_limited_velocity_ := false;
     publish_wheel_joint_controller_state_ := false;
     limiter_linear_ := no_limits;
     limiter_angular_ := no_limits;
     registered_left_wheel_handles_ := [];
     registered_right_wheel_handles_ := [];
     registered_operation_mode_handles_ := [];
     velocity_command_subscriber_ := false;
     odometry_publisher_ := None;
     odometry_transform_publisher_ := None;
     limited_velocity_publisher_ := None;
     wheel_joint_controller_state_publisher_ := None;
     odometry_ := Odometry_new;
     subscriber_is_active_ := false;
     command_ := Commands_default;
     last0_cmd_ := Commands_default;
     last1_cmd_ := Commands_default;
     previous_update_timestamp_ := 0;
     is_halted := false;
     lifecycle_state := PRIMARY_STATE_UNCONFIGURED |}.

(** Parameters naming the two wheels, with the given separation, its
    multiplier and robot description. *)
Definition params (left_names right_names : list string)
    (wheel_separation multiplier : float)
    (description : option (option urdf.ModelInterface)) : Param.t :=
  {| Param.left_wheel_names := left_names;
     Param.right_wheel_names := right_names;
     Param.write_op_modes := ["op"];
     Param.wheel_separation := wheel_separation;
     Param.wheel_radius := 0.1;
     Param.wheel_separation_multiplier := multiplier;
     Param.left_wheel_radius_multiplier := 1;
     Param.right_wheel_radius_multiplier := 1;
     Param.robot_description := description;
     Param.odom_frame_id := "odom";
     Param.base_frame_id := "base_link";
     Param.pose_covariance_diagonal := [];
     Param.twist_covariance_diagonal := [];
     Param.open_loop := false;
     Param.enable_odom_tf := true;
     Param.cmd_vel_timeout := 500;
     Param.allow_multiple_cmd_vel_publishers := true;
     Param.publish_limited_velocity := false;
     Param.publish_wheel_joint_controller_state := false;
     Param.velocity_rolling_window_size := 10;
     Param.linear_x := no_limits;
     Param.angular_z := no_limits |}.

Definition configuration (p : Param.t) : ConfigureEnv :=
  {| parameters := p; robot_hardware_alive := true; clock_now := 0 |}.

End TwoWheels.

(** ** The velocity command subscription *)

(** The two fields of the received message the callback reads,
    [msg->twist.linear.x] and [msg->twist.angular.z]. *)
Record Twist : Set := {
  twist_linear_x : float;
  twist_angular_z : float
}.

(** What the callback takes from outside the controller object: the
    message, what [get_publisher_count()] returns, and the clock. *)
Record CommandEnv : Set := {
  msg : Twist;
  publisher_count : nat;
  clock : Time
}.

(** [command_.writeFromNonRT(...)]. *)
Definition with_command (c : DiffDriveController) (cmd : Commands) : DiffDriveController :=
  {| left_wheel_names_ := left_wheel_names_ c;
     right_wheel_names_ := right_wheel_names_ c;
     write_op_names_ := write_op_names_ c;
     wheel_params_ := wheel_params_ c;
     odom_params_ := odom_params_ c;
     cmd_vel_timeout_ := cmd_vel_timeout_ c;
     allow_multiple_cmd_vel_publishers_ := allow_multiple_cmd_vel_publishers_ c;
     publish_limited_velocity_ := publish_limited_velocity_ c;
     publish_wheel_joint_controller_state_ := publish_wheel_joint_controller_state_ c;
     limiter_linear_ := limiter_linear_ c;
     limiter_angular_ := limiter_angular_ c;
     registered_left_wheel_handles_ := registered_left_wheel_handles_ c;
     registered_right_wheel_handles_ := registered_right_wheel_handles_ c;
     registered_operation_mode_handles_ := registered_operation_mode_handles_ c;
     velocity_command_subscriber_ := velocity_command_subscriber_ c;
     odometry_publisher_ := odometry_publisher_ c;
     odometry_transform_publisher_ := odometry_transform_publisher_ c;
     limited_velocity_publisher_ := limited_velocity_publisher_ c;
     wheel_joint_controller_state_publisher_ := wheel_joint_controller_state_publisher_ c;
     odometry_ := odometry_ c;
     subscriber_is_active_ := subscriber_is_active_ c;
     command_ := cmd;
     last0_cmd_ := last0_cmd_ c;
     last1_cmd_ := last1_cmd_ c;
     previous_update_timestamp_ := previous_update_timestamp_ c;
     is_halted := is_halted c;
     lifecycle_state := lifecycle_state c |}.

(** The callback of [velocity_command_subscriber_], the lambda
    [on_configure] subscribes with.  Its warnings and its throttled error
    message are not among the recorded calls; [command_struct_], the
    scratch member the command is assembled in, is not kept. *)
Definition velocity_command_callback (c : DiffDriveController) (hw : RobotHardware)
    (env : CommandEnv) : Outcome (DiffDriveController * RobotHardware * list Event) :=
  if negb (subscriber_is_active_ c) then Returns (c, hw, [])
  else if negb (allow_multiple_cmd_vel_publishers_ c)
          && bool_decide (1 < publisher_count env)%nat then
    ('(hw1, evs) ← halt c hw; Returns (c, hw1, evs))
  else if negb (PrimFloat.is_finite (twist_angular_z (msg env)))
          || negb (PrimFloat.is_finite (twist_linear_x (msg env))) then
    Returns (c, hw, [])
  else
    Returns (with_command c {| lin := twist_linear_x (msg env);
                               ang := twist_angular_z (msg env);
                               stamp := clock env |},
             hw, []).

(** Both velocities of the stored command are finite. *)
Definition command_finite (c : DiffDriveController) : bool :=
  PrimFloat.is_finite (lin (command_ c)) && PrimFloat.is_finite (ang (command_ c)).

(** ** The lifecycle node *)

(** The lifecycle node moving to another primary state, which it does
    after a transition callback has returned. *)
Definition set_lifecycle_state (c : DiffDriveController) (st : State)
    : DiffDriveController :=
  {| left_wheel_names_ := left_wheel_names_ c;
     right_wheel_names_ := right_wheel_names_ c;
     write_op_names_ := write_op_names_ c;
     wheel_params_ := wheel_params_ c;
     odom_params_ := odom_params_ c;
     cmd_vel_timeout_ := cmd_vel_timeout_ c;
     allow_multiple_cmd_vel_publishers_ := allow_multiple_cmd_vel_publishers_ c;
     publish_limited_velocity_ := publish_limited_velocity_ c;
     publish_wheel_joint_controller_state_ := publish_wheel_joint_controller_state_ c;
     limiter_linear_ := limiter_linear_ c;
     limiter_angular_ := limiter_angular_ c;
     registered_left_wheel_handles_ := registered_left_wheel_handles_ c;
     registered_right_wheel_handles_ := registered_right_wheel_handles_ c;
     registered_operation_mode_handles_ := registered_operation_mode_handles_ c;
     velocity_command_subscriber_ := velocity_command_subscriber_ c;
     odometry_publisher_ := odometry_publisher_ c;
     odometry_transform_publisher_ := odometry_transform_publisher_ c;
     limited_velocity_publisher_ := limited_velocity_publisher_ c;
     wheel_joint_controller_state_publisher_ := wheel_joint_controller_state_publisher_ c;
     odometry_ := odometry_ c;
     subscriber_is_active_ := subscriber_is_active_ c;
     command_ := command_ c;
     last0_cmd_ := last0_cmd_ c;
     last1_cmd_ := last1_cmd_ c;
     previous_update_timestamp_ := previous_update_timestamp_ c;
     is_halted := is_halted c;
     lifecycle_state := st |}.

(** The handle [configure_side] registers for a wheel name: both pointers
    to the hardware's handles of that name. *)
Definition named_handle (n : string) : WheelHandle :=
  {| state := Some n; command := Some n |}.

(** Every name has a state handle and a command handle in the hardware. *)
Definition joints_registered (hw : RobotHardware) (names : list string) : bool :=
  forallb (λ n, bool_decide (is_Some (joint_states hw !! n))
                && bool_decide (is_Some (joint_commands hw !! n))) names.

(** Every name has an operation mode handle in the hardware. *)
Definition modes_registered (hw : RobotHardware) (names : list string) : bool :=
  forallb (λ n, bool_decide (is_Some (operation_modes hw !! n))) names.

(** Neither separation nor radius is to be looked up in the robot
    description. *)
Definition kinematics_given (p : Param.t) : bool :=
  negb (Param.wheel_separation p =? 0)%float && negb (Param.wheel_radius p =? 0)%float.

(** The covariance parameters fit the controller's arrays. *)
Definition covariances_fit (c : DiffDriveController) (p : Param.t) : bool :=
  bool_decide (length (Param.pose_covariance_diagonal p)
               ≤ length (pose_covariance_diagonal (odom_params_ c)))%nat
  && bool_decide (length (Param.twist_covariance_diagonal p)
                  ≤ length (twist_covariance_diagonal (odom_params_ c)))%nat.

(** The controller a successful [on_configure] builds from the one its
    parameter block left: the handles of the named wheels and operation
    modes, then the publishers. *)
Definition configured_from (c : DiffDriveController) (env : ConfigureEnv)
    : DiffDriveController :=
  with_publishers
    (with_handles c (named_handle <$> left_wheel_names_ c)
       (named_handle <$> right_wheel_names_ c) (Some <$> write_op_names_ c))
    (clock_now env).

(** What the registration block of [on_configure] needs to go through:
    as many right wheels as left ones and at least one, a live hardware
    pointer, both handles of every wheel, and at least one operation mode,
    each with its handle. *)
Definition registrable (c : DiffDriveController) (hw : RobotHardware) (env : ConfigureEnv)
    : Prop :=
  left_wheel_names_ c ≠ []
  ∧ length (left_wheel_names_ c) = length (right_wheel_names_ c)
  ∧ robot_hardware_alive env = true
  ∧ joints_registered hw (left_wheel_names_ c) = true
  ∧ joints_registered hw (right_wheel_names_ c) = true
  ∧ write_op_names_ c ≠ []
  ∧ modes_registered hw (write_op_names_ c) = true.

(** The same on the parameters, together with what the parameter block
    needs: separation and radius given, covariances that fit. *)
Definition configurable (c : DiffDriveController) (hw : RobotHardware) (env : ConfigureEnv)
    : Prop :=
  let p := parameters env in
  kinematics_given p = true
  ∧ covariances_fit c p = true
  ∧ Param.left_wheel_names p ≠ []
  ∧ length (Param.left_wheel_names p) = length (Param.right_wheel_names p)
  ∧ robot_hardware_alive env = true
  ∧ joints_registered hw (Param.left_wheel_names p) = true
  ∧ joints_registered hw (Param.right_wheel_names p) = true
  ∧ Param.write_op_modes p ≠ []
  ∧ modes_registered hw (Param.write_op_modes p) = true.

(** The ways the lookup of [set_odom_params_from_urdf] ends in
    [return false]: the description cannot be retrieved; or the separation
    is looked up and the description lacks one of the two wheel joints; or
    the radius is looked up (after the separation, where that is looked up
    too) and the link of the left wheel joint is there but its collision
    geometry is neither a cylinder nor a sphere. *)
Definition lookup_fails (p : Param.t) : Prop :=
  let separation_missing := (Param.wheel_separation p =? 0)%float in
  let radius_missing := (Param.wheel_radius p =? 0)%float in
  separation_missing || radius_missing = true
  ∧ (Param.robot_description p = None
     ∨ ∃ model left0 right0,
         Param.robot_description p = Some (Some model)
         ∧ Param.left_wheel_names p !! 0%nat = Some left0
         ∧ Param.right_wheel_names p !! 0%nat = Some right0
         ∧ ((separation_missing = true
             ∧ (urdf.getJoint model left0 = None ∨ urdf.getJoint model right0 = None))
            ∨ (radius_missing = true
               ∧ (separation_missing = true → is_Some (urdf.getJoint model right0))
               ∧ ∃ lj l,
                   urdf.getJoint model left0 = Some lj
                   ∧ urdf.getLink model (urdf.child_link_name lj) = Some l
                   ∧ urdf_util.is_cylinder (Some l) = false
                   ∧ urdf_util.is_sphere (Some l) = false))).

(** ** A robot description of the two-wheeled robot *)

Module TwoWheelsUrdf.

Definition wheel_joint (y : float) (child : string) : urdf.Joint :=
  {| urdf.parent_to_joint_origin_transform_position :=
       {| urdf.x := 0; urdf.y := y; urdf.z := 0 |};
     urdf.child_link_name := child |}.

Definition wheel_link (n : string) (g : urdf.Geometry) : urdf.Link :=
  {| urdf.name := n; urdf.collision := Some {| urdf.geometry := Some g |} |}.

(** Wheels 0.5 m apart; the left one a cylinder of radius 0.1 m, the right
    one a box. *)
Definition model : urdf.ModelInterface :=
  {| urdf.joints_ := {[ "left_wheel" := wheel_joint 0.25 "left_wheel_link";
                        "right_wheel" := wheel_joint (-0.25) "right_wheel_link" ]};
     urdf.links_ := {[ "left_wheel_link" := wheel_link "left_wheel_link" (urdf.CYLINDER 0.1);
                       "right_wheel_link" := wheel_link "right_wheel_link" urdf.BOX ]} |}.

(** Parameters that leave separation and radius to the description. *)
Definition params (wheel_separation wheel_radius : float)
    (description : option (option urdf.ModelInterface)) : Param.t :=
  {| Param.left_wheel_names := ["left_wheel"];
     Param.right_wheel_names := ["right_wheel"];
     Param.write_op_modes := ["op"];
     Param.wheel_separation := wheel_separation;
     Param.wheel_radius := wheel_radius;
     Param.wheel_separation_multiplier := 1;
     Param.left_wheel_radius_multiplier := 1;
     Param.right_wheel_radius_multiplier := 1;
     Param.robot_description := description;
     Param.odom_frame_id := "odom";
     Param.base_frame_id := "base_link";
     Param.pose_covariance_diagonal := [];
     Param.twist_covariance_diagonal := [];
     Param.open_loop := false;
     Param.enable_odom_tf := true;
     Param.cmd_vel_timeout := 500;
     Param.allow_multiple_cmd_vel_publishers := false;
     Param.publish_limited_velocity := false;
     Param.publish_wheel_joint_controller_state := false;
     Param.velocity_rolling_window_size := 10;
     Param.linear_x := TwoWheels.no_limits;
     Param.angular_z := TwoWheels.no_limits |}.

(** The same parameters with another pose covariance diagonal. *)
Definition with_pose_covariance (p : Param.t) (diagonal : list float) : Param.t :=
  {| Param.left_wheel_names := Param.left_wheel_names p;
     Param.right_wheel_names := Param.right_wheel_names p;
     Param.write_op_modes := Param.write_op_modes p;
     Param.wheel_separation := Param.wheel_separation p;
     Param.wheel_radius := Param.wheel_radius p;
     Param.wheel_separation_multiplier := Param.wheel_separation_multiplier p;
     Param.left_wheel_radius_multiplier := Param.left_wheel_radius_multiplier p;
     Param.right_wheel_radius_multiplier := Param.right_wheel_radius_multiplier p;
     Param.robot_description := Param.robot_description p;
     Param.odom_frame_id := Param.odom_frame_id p;
     Param.base_frame_id := Param.base_frame_id p;
     Param.pose_covariance_diagonal := diagonal;
     Param.twist_covariance_diagonal := Param.twist_covariance_diagonal p;
     Param.open_loop := Param.open_loop p;
     Param.enable_odom_tf := Param.enable_odom_tf p;
     Param.cmd_vel_timeout := Param.cmd_vel_timeout p;
     Param.allow_multiple_cmd_vel_publishers := Param.allow_multiple_cmd_vel_publishers p;
     Param.publish_limited_velocity := Param.publish_limited_velocity p;
     Param.publish_wheel_joint_controller_state :=
       Param.publish_wheel_joint_controller_state p;
     Param.velocity_rolling_window_size := Param.velocity_rolling_window_size p;
     Param.linear_x := Param.linear_x p;
     Param.angular_z := Param.angular_z p |}.

(** A velocity message from one publisher at 1.005 s. *)
Definition message (linear angular : float) (publishers : nat) : CommandEnv :=
  {| msg := {| twist_linear_x := linear; twist_angular_z := angular |};
     publisher_count := publishers;
     clock := 1005000000 |}.

End TwoWheelsUrdf.

(** * Proofs *)

(** Up to 9223372036854 ms either way, the conversion of the timeout to
    nanoseconds is exact. *)
Lemma milliseconds_exact ms :
  -9223372036854 ≤ ms ≤ 9223372036854 → milliseconds ms = ms * 1000000.
Proof.
  intros H. unfold milliseconds, wrap_int64.
  rewrite Z.mod_small; lia.
Qed.

(** One millisecond further the product wraps around: a timeout of
    9223372036855 ms becomes a negative duration, which every command has
    outlived. *)
Lemma milliseconds_wraps :
  milliseconds 9223372036855 = -9223372036854551616
  ∧ milliseconds (-9223372036855) = 9223372036854551616.
Proof. split; vm_compute; reflexivity. Qed.


(** ** Hardware writes and halt *)

Section Hardware.
Implicit Types (hw : RobotHardware) (h : WheelHandle) (e : Event).

Lemma lookup_insert_is_Some' {V} (m : gmap string V) (k k' : string) (v : V) :
  is_Some (m !! k') → is_Some (<[k := v]> m !! k').
Proof. intros H. rewrite lookup_insert_is_Some. destruct (decide (k = k')); auto. Qed.

Lemma wheel_resolved_apply_event hw e h :
  wheel_resolved hw h = true → wheel_resolved (apply_event hw e) h = true.
Proof.
  unfold wheel_resolved. destruct (state h) as [s|], (command h) as [j|]; try done.
  rewrite !andb_true_iff, !bool_decide_eq_true. intros [Hs Hj].
  destruct e; simpl; auto using lookup_insert_is_Some'.
Qed.

Lemma mode_resolved_apply_event hw e (m : option string) :
  mode_resolved hw m = true → mode_resolved (apply_event hw e) m = true.
Proof.
  unfold mode_resolved. destruct m as [op|]; try done.
  rewrite !bool_decide_eq_true. intros Hop.
  destruct e; simpl; auto using lookup_insert_is_Some'.
Qed.

Lemma forallb_wheel_resolved_apply_events evs hw hs :
  forallb (wheel_resolved hw) hs = true →
  forallb (wheel_resolved (apply_events evs hw)) hs = true.
Proof.
  revert hw. induction evs as [|e evs IH]; intros hw H; simpl; [done|].
  apply IH. rewrite forallb_forall in *. eauto using wheel_resolved_apply_event.
Qed.

Lemma forallb_mode_resolved_apply_events evs hw (ms : list (option string)) :
  forallb (mode_resolved hw) ms = true →
  forallb (mode_resolved (apply_events evs hw)) ms = true.
Proof.
  revert hw. induction evs as [|e evs IH]; intros hw H; simpl; [done|].
  apply IH. rewrite forallb_forall in *. eauto using mode_resolved_apply_event.
Qed.

Lemma apply_events_app evs1 evs2 hw :
  apply_events (evs1 ++ evs2) hw = apply_events evs2 (apply_events evs1 hw).
Proof. apply foldl_app. Qed.

Lemma set_cmd_registered hw j v :
  is_Some (joint_commands hw !! j) → set_cmd j v hw = Returns (apply_event hw (SetCmd j v)).
Proof. intros [x Hx]. unfold set_cmd. by rewrite Hx. Qed.

Lemma set_mode_registered hw op m :
  is_Some (operation_modes hw !! op) → set_mode op m hw = Returns (apply_event hw (SetMode op m)).
Proof. intros [x Hx]. unfold set_mode. by rewrite Hx. Qed.

Lemma halt_wheels_valid hs hw :
  forallb (wheel_resolved hw) hs = true →
  halt_wheels hs hw = Returns (apply_events (zero_commands hs) hw, zero_commands hs).
Proof.
  revert hw. induction hs as [|h hs IH]; intros hw H; [done|].
  simpl in H. apply andb_true_iff in H as [Hh Hhs].
  unfold wheel_resolved in Hh.
  destruct (state h) as [s|] eqn:Hs; [|done].
  destruct (command h) as [j|] eqn:Hj; [|done].
  apply andb_true_iff in Hh as [_ Hc]. apply bool_decide_eq_true in Hc.
  cbn [halt_wheels zero_commands flat_map]. rewrite Hj. cbn [deref mbind Outcome_bind].
  rewrite (set_cmd_registered _ _ _ Hc). cbn [mbind Outcome_bind].
  rewrite IH.
  - reflexivity.
  - rewrite forallb_forall in *. eauto using wheel_resolved_apply_event.
Qed.

Lemma set_op_mode_handles_valid ms mode hw :
  forallb (mode_resolved hw) ms = true →
  set_op_mode_handles ms mode hw
  = Returns (apply_events (mode_commands ms mode) hw, mode_commands ms mode).
Proof.
  revert hw. induction ms as [|m ms IH]; intros hw H; [done|].
  simpl in H. apply andb_true_iff in H as [Hm Hms].
  destruct m as [op|]; [|done]. simpl in Hm. apply bool_decide_eq_true in Hm.
  cbn [set_op_mode_handles mode_commands flat_map deref mbind Outcome_bind].
  rewrite (set_mode_registered _ _ _ Hm). cbn [mbind Outcome_bind].
  rewrite IH.
  - reflexivity.
  - rewrite forallb_forall in *. eauto using mode_resolved_apply_event.
Qed.

Lemma handles_valid_iff c hw :
  handles_valid c hw = true ↔
  forallb (wheel_resolved hw) (registered_left_wheel_handles_ c) = true ∧
  forallb (wheel_resolved hw) (registered_right_wheel_handles_ c) = true ∧
  forallb (mode_resolved hw) (registered_operation_mode_handles_ c) = true.
Proof. unfold handles_valid. rewrite !andb_true_iff. tauto. Qed.

Lemma halt_valid c hw :
  handles_valid c hw = true →
  halt c hw = Returns (apply_events (halt_calls c) hw, halt_calls c).
Proof.
  rewrite handles_valid_iff. intros (HL & HR & HM).
  unfold halt, halt_calls, set_op_mode.
  rewrite (halt_wheels_valid _ _ HL). cbn [mbind Outcome_bind].
  rewrite halt_wheels_valid by by apply forallb_wheel_resolved_apply_events.
  cbn [mbind Outcome_bind].
  rewrite set_op_mode_handles_valid
    by by do 2 apply forallb_mode_resolved_apply_events.
  cbn [mbind Outcome_bind]. by rewrite !apply_events_app.
Qed.
End Hardware.

(** ** Teardown *)

Lemma apply_events_zeroed evs hw j :
  (∀ j' v, SetCmd j' v ∈ evs → v = 0%float) →
  (∃ v, SetCmd j v ∈ evs) ∨ joint_commands hw !! j = Some 0%float →
  joint_commands (apply_events evs hw) !! j = Some 0%float.
Proof.
  revert hw. induction evs as [|e evs IH]; intros hw Hz Hj.
  - destruct Hj as [[v Hv]|Hj]; [by apply elem_of_nil in Hv | done].
  - cbn [apply_events foldl]. apply IH.
    + intros j' v Hv. apply (Hz j' v). by right.
    + destruct Hj as [[v Hv]|Hj].
      * apply elem_of_cons in Hv as [<-|Hv]; [|eauto].
        right. simpl. rewrite (Hz j v) by left. apply lookup_insert_eq.
      * right. destruct e; simpl; try done.
        destruct (decide (joint = j)) as [->|Hne].
        -- rewrite (Hz j v) by left. apply lookup_insert_eq.
        -- by rewrite lookup_insert_ne.
Qed.

Lemma elem_of_zero_commands hs e :
  e ∈ zero_commands hs ↔ ∃ h j, h ∈ hs ∧ command h = Some j ∧ e = SetCmd j 0%float.
Proof.
  unfold zero_commands. rewrite list_elem_of_In, in_flat_map. split.
  - intros (h & Hh & He). apply list_elem_of_In in Hh.
    destruct (command h) as [j|] eqn:Hc; simpl in He; [|done].
    destruct He as [<-|[]]. eauto.
  - intros (h & j & Hh & Hc & ->). exists h. rewrite <- list_elem_of_In.
    split; [done|]. rewrite Hc. by left.
Qed.

Lemma elem_of_mode_commands ms mode e :
  e ∈ mode_commands ms mode ↔ ∃ op, Some op ∈ ms ∧ e = SetMode op mode.
Proof.
  unfold mode_commands. rewrite list_elem_of_In, in_flat_map. split.
  - intros ([op|] & Hh & He); simpl in He; [|done].
    apply list_elem_of_In in Hh. destruct He as [<-|[]]. eauto.
  - intros (op & Hh & ->). exists (Some op). rewrite <- list_elem_of_In.
    split; [done|]. by left.
Qed.

(** After [halt], every registered wheel is commanded zero. *)
Lemma halt_calls_zero c hw h j :
  h ∈ registered_left_wheel_handles_ c ++ registered_right_wheel_handles_ c →
  command h = Some j →
  joint_commands (apply_events (halt_calls c) hw) !! j = Some 0%float.
Proof.
  intros Hh Hc. apply apply_events_zeroed.
  - intros j' v. unfold halt_calls. rewrite !elem_of_app, !elem_of_zero_commands,
      elem_of_mode_commands.
    intros [(?&?&?&?&[= _ ->])|[(?&?&?&?&[= _ ->])|(?&?&?)]]; done.
  - left. exists 0%float. unfold halt_calls. rewrite !elem_of_app, !elem_of_zero_commands.
    apply elem_of_app in Hh as [Hh|Hh]; [left|right; left]; eauto.
Qed.

Lemma halt_calls_released c : halt_calls (reset c).2 = [].
Proof. reflexivity. Qed.

Lemma handles_valid_released c hw : handles_valid (reset c).2 hw = true.
Proof. reflexivity. Qed.

(** [on_cleanup] and [on_shutdown]: halt, then release. *)
Lemma on_cleanup_halts c hw :
  handles_valid c hw = true →
  on_cleanup c hw
  = Returns (SUCCESS, (reset c).2, apply_events (halt_calls c) hw, halt_calls c).
Proof. intros H. unfold on_cleanup. by rewrite (halt_valid _ _ H). Qed.

Lemma on_shutdown_halts c hw :
  handles_valid c hw = true →
  on_shutdown c hw
  = Returns (SUCCESS, (reset c).2, apply_events (halt_calls c) hw, halt_calls c).
Proof. intros H. unfold on_shutdown. by rewrite (halt_valid _ _ H). Qed.

(** [on_error]: release only, the hardware is not touched. *)
Lemma on_error_releases c hw :
  on_error c hw = Returns (SUCCESS, (reset c).2, hw, []).
Proof. reflexivity. Qed.

(** A second cleanup or shutdown has no handle left to write through. *)
Lemma on_cleanup_again c hw :
  on_cleanup (reset c).2 hw = Returns (SUCCESS, (reset (reset c).2).2, hw, []).
Proof. reflexivity. Qed.

Lemma on_shutdown_again c hw :
  on_shutdown (reset c).2 hw = Returns (SUCCESS, (reset (reset c).2).2, hw, []).
Proof. reflexivity. Qed.

(** ** The loops of a cycle *)

Lemma wheel_resolved_reading hw h :
  wheel_resolved hw h = true →
  ∃ s j js, state h = Some s ∧ command h = Some j ∧ joint_states hw !! s = Some js
            ∧ is_Some (joint_commands hw !! j) ∧ reading hw h = Some (position js).
Proof.
  unfold wheel_resolved, reading.
  destruct (state h) as [s|], (command h) as [j|]; try done.
  rewrite andb_true_iff, !bool_decide_eq_true. intros [[js Hjs] Hj].
  exists s, j, js. simpl. by rewrite Hjs.
Qed.

Lemma forallb_lookup {A} (f : A → bool) (l : list A) i x :
  forallb f l = true → l !! i = Some x → f x = true.
Proof.
  rewrite forallb_forall. intros H Hx. apply H, list_elem_of_In.
  eapply list_elem_of_lookup_2; eauto.
Qed.

Ltac run := cbn [mbind Outcome_bind mret Outcome_ret deref read_reference].

Section Loops.
Context (hw : RobotHardware) (lefts rights : list WheelHandle).
Hypothesis Hlefts : forallb (wheel_resolved hw) lefts = true.
Hypothesis Hrights : forallb (wheel_resolved hw) rights = true.
Hypothesis Hlen : length rights = length lefts.

Lemma read_positions_valid count index lm rm :
  (index + count = length lefts)%nat →
  ∃ r evs,
    read_positions hw lefts rights count index lm rm = Returns (r, evs)
    ∧ forallb is_sensing evs = true
    ∧ (r = None ↔ existsb (reads_nan hw) (drop index lefts)
                   || existsb (reads_nan hw) (drop index rights) = true).
Proof.
  revert index lm rm. induction count as [|count IH]; intros index lm rm Hidx.
  - exists (Some (lm, rm)), []. rewrite (drop_ge lefts), (drop_ge rights) by lia.
    simpl. intuition congruence.
  - destruct (lookup_lt_is_Some_2 lefts index) as [lh Hlh]; [lia|].
    destruct (lookup_lt_is_Some_2 rights index) as [rh Hrh]; [lia|].
    destruct (wheel_resolved_reading hw lh) as (ls & lj & ljs & Hls & _ & Hljs & _ & Hlr);
      [exact (forallb_lookup _ _ _ _ Hlefts Hlh)|].
    destruct (wheel_resolved_reading hw rh) as (rs & rj & rjs & Hrs & _ & Hrjs & _ & Hrr);
      [exact (forallb_lookup _ _ _ _ Hrights Hrh)|].
    rewrite (drop_S _ _ _ Hlh), (drop_S _ _ _ Hrh).
    cbn [read_positions existsb]. unfold at_index, get_position, reads_nan.
    rewrite Hlh, Hlr, Hrr. run. rewrite Hls. run. rewrite Hljs. run.
    rewrite Hrh. run. rewrite Hrs. run. rewrite Hrjs. run.
    destruct (PrimFloat.is_nan (position ljs) || PrimFloat.is_nan (position rjs)) eqn:Hnan.
    + eexists None, _. split; [reflexivity|]. split; [reflexivity|].
      split; [intros _|done].
      apply orb_true_iff in Hnan as [->| ->]; simpl; by rewrite ?orb_true_r.
    + apply orb_false_iff in Hnan as [-> ->].
      destruct (IH (S index) (lm + position ljs)%float (rm + position rjs)%float)
        as (r & evs & -> & Hev & Hr); [lia|].
      exists r, (GetPosition ls :: GetPosition rs :: evs).
      cbn [mbind Outcome_bind]. split; [reflexivity|]. split; [done|]. by simpl.
Qed.

Lemma read_wheel_states_valid count index :
  (index + count = length lefts)%nat →
  read_wheel_states hw lefts rights count index = Returns tt.
Proof.
  revert index. induction count as [|count IH]; intros index Hidx; [done|].
  destruct (lookup_lt_is_Some_2 lefts index) as [lh Hlh]; [lia|].
  destruct (lookup_lt_is_Some_2 rights index) as [rh Hrh]; [lia|].
  destruct (wheel_resolved_reading hw lh) as (ls & lj & ljs & Hls & _ & Hljs & _);
    [exact (forallb_lookup _ _ _ _ Hlefts Hlh)|].
  destruct (wheel_resolved_reading hw rh) as (rs & rj & rjs & Hrs & _ & Hrjs & _);
    [exact (forallb_lookup _ _ _ _ Hrights Hrh)|].
  cbn [read_wheel_states]. unfold at_index, get_position.
  rewrite Hlh. run. rewrite Hls. run. rewrite Hljs. run.
  rewrite Hrh. run. rewrite Hrs. run. rewrite Hrjs. run. apply IH. lia.
Qed.
End Loops.

Lemma set_wheel_velocities_valid lefts rights vl vr count index hw :
  forallb (wheel_resolved hw) lefts = true →
  forallb (wheel_resolved hw) rights = true →
  length rights = length lefts →
  (index + count = length lefts)%nat →
  set_wheel_velocities lefts rights vl vr count index hw
  = Returns (apply_events (wheel_commands (drop index lefts) (drop index rights) vl vr) hw,
             wheel_commands (drop index lefts) (drop index rights) vl vr).
Proof.
  revert index hw. induction count as [|count IH]; intros index hw Hl Hr Hlen Hidx.
  - rewrite (drop_ge lefts), (drop_ge rights) by lia. reflexivity.
  - destruct (lookup_lt_is_Some_2 lefts index) as [lh Hlh]; [lia|].
    destruct (lookup_lt_is_Some_2 rights index) as [rh Hrh]; [lia|].
    destruct (wheel_resolved_reading hw lh) as (ls & lj & ljs & _ & Hlc & _ & Hlj & _);
      [exact (forallb_lookup _ _ _ _ Hl Hlh)|].
    destruct (wheel_resolved_reading hw rh) as (rs & rj & rjs & _ & Hrc & _ & Hrj & _);
      [exact (forallb_lookup _ _ _ _ Hr Hrh)|].
    rewrite (drop_S _ _ _ Hlh), (drop_S _ _ _ Hrh).
    cbn [set_wheel_velocities wheel_commands]. unfold at_index.
    rewrite Hlh. run. rewrite Hlc. run. rewrite (set_cmd_registered _ _ _ Hlj). run.
    rewrite Hrh. run. rewrite Hrc. run.
    rewrite set_cmd_registered by (simpl; by apply lookup_insert_is_Some').
    run. rewrite IH; [reflexivity| | |done|lia].
    + rewrite forallb_forall in *. eauto using wheel_resolved_apply_event.
    + rewrite forallb_forall in *. eauto using wheel_resolved_apply_event.
Qed.

(** ** The odometry step and the command step *)

Lemma handles_resolved_iff c hw :
  handles_resolved c hw = true ↔
  handles_valid c hw = true
  ∧ length (registered_left_wheel_handles_ c) = wheels_per_side (wheel_params_ c)
  ∧ length (registered_right_wheel_handles_ c) = wheels_per_side (wheel_params_ c).
Proof. unfold handles_resolved. rewrite !andb_true_iff, !bool_decide_eq_true. tauto. Qed.

Lemma publishers_created_iff c :
  publishers_created c = true ↔
  is_Some (odometry_publisher_ c)
  ∧ is_Some (odometry_transform_publisher_ c)
  ∧ (publish_limited_velocity_ c = true → is_Some (limited_velocity_publisher_ c))
  ∧ (publish_wheel_joint_controller_state_ c = true →
     is_Some (wheel_joint_controller_state_publisher_ c)).
Proof.
  unfold publishers_created.
  rewrite !andb_true_iff, !orb_true_iff, !negb_true_iff, !bool_decide_eq_true.
  destruct (publish_limited_velocity_ c), (publish_wheel_joint_controller_state_ c);
    intuition congruence.
Qed.

Lemma publish_if_locked_created p lock ev :
  is_Some p → is_publication ev = true →
  ∃ evs, publish_if_locked p lock ev = Returns evs ∧ forallb is_publication evs = true.
Proof.
  intros [pub ->] Hev. unfold publish_if_locked. run.
  destruct (activated pub && lock); eexists; (split; [reflexivity|]); simpl; by rewrite ?Hev.
Qed.

Lemma some_position_is_nan_drop c hw :
  some_position_is_nan c hw
  = existsb (reads_nan hw) (drop 0 (registered_left_wheel_handles_ c))
    || existsb (reads_nan hw) (drop 0 (registered_right_wheel_handles_ c)).
Proof. reflexivity. Qed.

(** The odometry step under resolved handles: it returns, early exactly
    when a position read is NaN in closed loop, and else ends with the one
    call that integrates. *)
Lemma update_odometry_valid c hw t :
  handles_resolved c hw = true →
  ∃ r evs,
    update_odometry c hw t = Returns (r, evs) ∧
    match r with
    | None => encoders_valid c hw = false ∧ forallb is_sensing evs = true
    | Some o =>
        encoders_valid c hw = true ∧
        ∃ reads upd,
          evs = reads ++ [upd] ∧ forallb is_sensing reads = true ∧
          ((open_loop (odom_params_ c) = true ∧ reads = [] ∧
            upd = OdometryUpdateOpenLoop (lin (last0_cmd_ c)) (ang (last0_cmd_ c)) t ∧
            o = updateOpenLoop (odometry_ c) (lin (last0_cmd_ c)) (ang (last0_cmd_ c)) t)
           ∨ (open_loop (odom_params_ c) = false ∧
              ∃ l r, upd = OdometryUpdate l r t ∧ o = Odometry_update (odometry_ c) l r t))
    end.
Proof.
  rewrite handles_resolved_iff, handles_valid_iff. intros ((HL & HR & _) & HlenL & HlenR).
  unfold update_odometry, encoders_valid.
  destruct (open_loop (odom_params_ c)) eqn:Hopen.
  - eexists (Some _), _. split; [reflexivity|]. split; [done|].
    exists [], (OdometryUpdateOpenLoop (lin (last0_cmd_ c)) (ang (last0_cmd_ c)) t).
    split; [done|]. split; [done|]. left. done.
  - destruct (read_positions_valid hw _ _ HL HR (eq_trans HlenR (eq_sym HlenL))
                (wheels_per_side (wheel_params_ c)) 0 0%float 0%float)
      as (r & evs & Hread & Hev & Hr); [lia|].
    rewrite Hread. run. rewrite <- some_position_is_nan_drop in Hr.
    destruct r as [[lsum rsum]|].
    + eexists (Some _), _. split; [reflexivity|]. split.
      * destruct (some_position_is_nan c hw); [|done]. by destruct Hr as [_ Hr]; discriminate Hr.
      * eexists evs, _. split; [reflexivity|]. split; [done|]. right. split; [done|]. eauto.
    + exists None, evs. split; [reflexivity|]. split; [|done].
      destruct Hr as [Hr _]. by rewrite Hr.
Qed.

Lemma forallb_app_true {A} (f : A → bool) l1 l2 :
  forallb f l1 = true → forallb f l2 = true → forallb f (l1 ++ l2) = true.
Proof. intros H1 H2. rewrite forallb_app. by rewrite H1, H2. Qed.

(** The rest of an active cycle under resolved handles and created
    publishers: it succeeds, publishes, reads the command, publishes, and
    writes the wheels and the operation modes. *)
Lemma update_command_valid c hw env o :
  handles_resolved c hw = true →
  publishers_created c = true →
  ∃ pubs1 pubs2,
    update_command c hw env o
    = Returns (CONTROLLER_INTERFACE_RET_SUCCESS,
               with_cycle c o (limited_command c (now env)) (last0_cmd_ c) (now env)
                 (is_halted c),
               apply_events (cycle_writes c (limited_command c (now env))) hw,
               pubs1 ++ [ReadFromRT] ++ pubs2
                 ++ cycle_writes c (limited_command c (now env)))
    ∧ forallb is_publication pubs1 = true
    ∧ forallb is_publication pubs2 = true.
Proof.
  rewrite handles_resolved_iff, handles_valid_iff, publishers_created_iff.
  intros ((HL & HR & HM) & HlenL & HlenR) (Hodom & Htf & Hlim & Hws).
  assert (Hlen : length (registered_right_wheel_handles_ c)
                 = length (registered_left_wheel_handles_ c)) by congruence.
  unfold update_command.
  destruct (publish_if_locked_created _ (odometry_trylock env)
              (PublishOdometry (now env)) Hodom eq_refl) as (e1 & -> & He1).
  run.
  assert (∃ e2, (if enable_odom_tf (odom_params_ c)
                 then publish_if_locked (odometry_transform_publisher_ c)
                        (transform_trylock env) (PublishTransform (now env))
                 else Returns []) = Returns e2 ∧ forallb is_publication e2 = true)
    as (e2 & -> & He2).
  { destruct (enable_odom_tf (odom_params_ c)); [|by exists []].
    by apply publish_if_locked_created. }
  run.
  assert (∃ e3, publish_wheel_data c hw env (now env)
                  (brake_on_timeout c (now env) (command_ c))
                  (separation_multiplier (wheel_params_ c) * separation (wheel_params_ c))
                  (left_radius_multiplier (wheel_params_ c) * radius (wheel_params_ c))
                  (right_radius_multiplier (wheel_params_ c) * radius (wheel_params_ c))
                = Returns e3 ∧ forallb is_publication e3 = true) as (e3 & -> & He3).
  { unfold publish_wheel_data.
    destruct (publish_wheel_joint_controller_state_ c); [|by exists []].
    destruct (Hws eq_refl) as [pub ->]. run.
    destruct (wheel_state_trylock env); [|by exists []].
    rewrite (read_wheel_states_valid hw _ _ HL HR Hlen) by lia. run.
    eexists. split; [reflexivity|done]. }
  run.
  change (enforce_limiters c _ _) with (limited_command c (now env)).
  set (cmd := limited_command c (now env)).
  assert (∃ e4, (if publish_limited_velocity_ c
                 then publish_if_locked (limited_velocity_publisher_ c)
                        (limited_velocity_trylock env)
                        (PublishLimitedVelocity (now env) (lin cmd) (ang cmd))
                 else Returns []) = Returns e4 ∧ forallb is_publication e4 = true)
    as (e4 & -> & He4).
  { destruct (publish_limited_velocity_ c); [|by exists []].
    by apply publish_if_locked_created; auto. }
  run.
  rewrite (set_wheel_velocities_valid _ _ _ _ _ 0 hw HL HR Hlen) by lia. run.
  unfold set_op_mode.
  rewrite set_op_mode_handles_valid by by apply forallb_mode_resolved_apply_events.
  run. exists (e1 ++ e2), (e3 ++ e4).
  split; [|split; by apply forallb_app_true].
  unfold cycle_writes, effective_separation, effective_left_radius, effective_right_radius.
  rewrite apply_events_app. cbn [drop]. f_equal. f_equal.
  by rewrite <- !app_assoc.
Qed.

(** ** Binary64 facts about the mixer *)

Lemma Prim2SF_zero : Prim2SF 0 = S754_zero false.
Proof. reflexivity. Qed.

Lemma Prim2SF_two : Prim2SF 2 = S754_finite false 4503599627370496 (-51).
Proof. reflexivity. Qed.

Lemma is_finite_SF x :
  PrimFloat.is_finite x = true →
  (∃ s, Prim2SF x = S754_zero s) ∨ (∃ s m e, Prim2SF x = S754_finite s m e).
Proof.
  unfold PrimFloat.is_finite, PrimFloat.is_nan, PrimFloat.is_infinity.
  rewrite !FloatAxioms.eqb_spec, FloatAxioms.abs_spec.
  change (Prim2SF infinity) with (S754_infinity false).
  destruct (Prim2SF x) as [s|s| |s m e]; simpl; eauto; [by destruct s|done].
Qed.

Lemma nonzero_SF x :
  PrimFloat.is_nan x = false → PrimFloat.is_zero x = false →
  (∃ s, Prim2SF x = S754_infinity s) ∨ (∃ s m e, Prim2SF x = S754_finite s m e).
Proof.
  unfold PrimFloat.is_nan, PrimFloat.is_zero. rewrite !FloatAxioms.eqb_spec.
  change (Prim2SF zero) with (S754_zero false).
  destruct (Prim2SF x) as [s|s| |s m e]; simpl; eauto; try done.
Qed.

Lemma is_zero_SF x s : Prim2SF x = S754_zero s → (x =? 0)%float = true.
Proof. intros H. rewrite FloatAxioms.eqb_spec, H, Prim2SF_zero. reflexivity. Qed.

(** A zero command mixes to zero wheel velocities, for a finite separation
    and a radius that is neither zero nor NaN. *)
Lemma zero_command_zero_velocity sep r :
  PrimFloat.is_finite sep = true →
  PrimFloat.is_nan r = false → PrimFloat.is_zero r = false →
  (wheel_velocity_left 0 0 sep r =? 0)%float = true
  ∧ (wheel_velocity_right 0 0 sep r =? 0)%float = true.
Proof.
  intros Hsep Hnan Hzero.
  assert (∃ s, Prim2SF (0 * sep / 2)%float = S754_zero s) as [s Hs].
  { rewrite div_spec, mul_spec, Prim2SF_zero, Prim2SF_two.
    destruct (is_finite_SF _ Hsep) as [[s ->]|(s & m & e & ->)]; simpl; eauto. }
  assert (∃ s', Prim2SF (0 - 0 * sep / 2)%float = S754_zero s') as [s1 Hs1].
  { rewrite sub_spec, Hs, Prim2SF_zero. destruct s; simpl; eauto. }
  assert (∃ s', Prim2SF (0 + 0 * sep / 2)%float = S754_zero s') as [s2 Hs2].
  { rewrite add_spec, Hs, Prim2SF_zero. destruct s; simpl; eauto. }
  unfold wheel_velocity_left, wheel_velocity_right.
  split.
  - destruct (nonzero_SF _ Hnan Hzero) as [[sr Hr]|(sr & m & e & Hr)];
      eapply is_zero_SF; rewrite div_spec, Hs1, Hr; reflexivity.
  - destruct (nonzero_SF _ Hnan Hzero) as [[sr Hr]|(sr & m & e & Hr)];
      eapply is_zero_SF; rewrite div_spec, Hs2, Hr; reflexivity.
Qed.

Lemma limit_unlimited l v v0 v1 dt :
  SpeedLimiter.unlimited l → SpeedLimiter.limit l v v0 v1 dt = v.
Proof.
  intros (Hv & Ha & Hj).
  unfold SpeedLimiter.limit, SpeedLimiter.limit_velocity, SpeedLimiter.limit_acceleration,
    SpeedLimiter.limit_jerk.
  rewrite Hv, Ha, Hj. by destruct (dt <=? 0)%float.
Qed.

(** ** Classes of calls *)

Lemma filter_none (f g : Event → bool) evs :
  forallb f evs = true → (∀ e, f e = true → g e = false) → List.filter g evs = [].
Proof.
  intros Hf Hfg. induction evs as [|e evs IH]; [done|].
  simpl in *. apply andb_true_iff in Hf as [He Hf]. rewrite (Hfg e He). auto.
Qed.

Lemma filter_all (g : Event → bool) evs :
  forallb g evs = true → List.filter g evs = evs.
Proof.
  intros Hg. induction evs as [|e evs IH]; [done|].
  simpl in *. apply andb_true_iff in Hg as [-> Hg]. by rewrite IH.
Qed.

Lemma forallb_impl (f g : Event → bool) evs :
  forallb f evs = true → (∀ e, f e = true → g e = true) → forallb g evs = true.
Proof. rewrite !forallb_forall. auto. Qed.

Lemma wheel_commands_writes lefts rights vl vr :
  forallb is_wheel_write (wheel_commands lefts rights vl vr) = true.
Proof.
  revert rights. induction lefts as [|lh lefts IH]; intros [|rh rights]; try done.
  simpl. destruct (command lh), (command rh); try done. simpl. apply IH.
Qed.

Lemma mode_commands_modes ms mode :
  forallb (λ e, is_hardware_write e && negb (is_wheel_write e)) (mode_commands ms mode) = true.
Proof. induction ms as [|[op|] ms IH]; simpl; auto. Qed.

Lemma zero_commands_writes hs : forallb is_wheel_write (zero_commands hs) = true.
Proof. induction hs as [|h hs IH]; [done|]. simpl. by destruct (command h). Qed.

(** Every wheel of a side is written once, with the velocity of its
    side. *)
Lemma elem_of_wheel_commands hw lefts rights vl vr e :
  forallb (wheel_resolved hw) lefts = true →
  forallb (wheel_resolved hw) rights = true →
  length rights = length lefts →
  e ∈ wheel_commands lefts rights vl vr ↔
  (∃ h j, h ∈ lefts ∧ command h = Some j ∧ e = SetCmd j vl)
  ∨ (∃ h j, h ∈ rights ∧ command h = Some j ∧ e = SetCmd j vr).
Proof.
  revert rights. induction lefts as [|lh lefts IH]; intros [|rh rights] HL HR Hlen;
    try done.
  - simpl. split; [by intros ?%elem_of_nil|].
    intros [(?&?&?%elem_of_nil&_)|(?&?&?%elem_of_nil&_)]; done.
  - simpl in HL, HR. apply andb_true_iff in HL as [Hlh HL], HR as [Hrh HR].
    destruct (wheel_resolved_reading _ _ Hlh) as (? & lj & ? & _ & Hlc & _).
    destruct (wheel_resolved_reading _ _ Hrh) as (? & rj & ? & _ & Hrc & _).
    simpl. rewrite Hlc, Hrc, !elem_of_cons, IH by (auto; simpl in Hlen; lia).
    split.
    + intros [->|[->|[(h&j&?&?&?)|(h&j&?&?&?)]]].
      * left. exists lh, lj. split; [left|]; done.
      * right. exists rh, rj. split; [left|]; done.
      * left. exists h, j. split; [by right|done].
      * right. exists h, j. split; [by right|done].
    + intros [(h&j&[->|?]%elem_of_cons&Hc&->)|(h&j&[->|?]%elem_of_cons&Hc&->)].
      * left. congruence.
      * right; right; left. eauto.
      * right; left. congruence.
      * right; right; right. eauto.
Qed.

(** ** The active cycle *)

Lemma active_bool c :
  lifecycle_state c = PRIMARY_STATE_ACTIVE →
  negb (bool_decide (lifecycle_state c = PRIMARY_STATE_ACTIVE)) = false.
Proof. intros H. by rewrite bool_decide_eq_true_2. Qed.

Lemma inactive_bool c :
  lifecycle_state c ≠ PRIMARY_STATE_ACTIVE →
  negb (bool_decide (lifecycle_state c = PRIMARY_STATE_ACTIVE)) = true.
Proof. intros H. by rewrite bool_decide_eq_false_2. Qed.

(** An active cycle whose odometry step goes through. *)
Lemma update_active_success c hw env :
  lifecycle_state c = PRIMARY_STATE_ACTIVE →
  handles_resolved c hw = true →
  publishers_created c = true →
  encoders_valid c hw = true →
  ∃ o reads upd pubs1 pubs2,
    update_odometry c hw (now env) = Returns (Some o, reads ++ [upd])
    ∧ update c hw env
      = Returns (CONTROLLER_INTERFACE_RET_SUCCESS,
                 with_cycle c o (limited_command c (now env)) (last0_cmd_ c) (now env)
                   (is_halted c),
                 apply_events (cycle_writes c (limited_command c (now env))) hw,
                 (reads ++ [upd]) ++ pubs1 ++ [ReadFromRT] ++ pubs2
                   ++ cycle_writes c (limited_command c (now env)))
    ∧ forallb is_sensing reads = true
    ∧ is_odometry_update upd = true
    ∧ forallb is_publication pubs1 = true
    ∧ forallb is_publication pubs2 = true.
Proof.
  intros Hact Hres Hpub Henc.
  destruct (update_odometry_valid c hw (now env) Hres) as (r & evs & Hodo & Hr).
  destruct r as [o|]; [|destruct Hr; congruence].
  destruct Hr as (_ & reads & upd & -> & Hreads & Hupd).
  destruct (update_command_valid c hw env o Hres Hpub) as (pubs1 & pubs2 & Hcmd & H1 & H2).
  exists o, reads, upd, pubs1, pubs2. split; [done|].
  unfold update. rewrite (active_bool c Hact), Hodo. run. rewrite Hcmd. run.
  split; [done|]. split; [done|]. split; [|done].
  destruct Hupd as [(_&_&->&_)|(_&?&?&->&_)]; done.
Qed.

(** An active cycle that reads a NaN position in closed loop. *)
Lemma update_active_error c hw env :
  lifecycle_state c = PRIMARY_STATE_ACTIVE →
  handles_resolved c hw = true →
  encoders_valid c hw = false →
  ∃ evs,
    update c hw env = Returns (CONTROLLER_INTERFACE_RET_ERROR, c, hw, evs)
    ∧ forallb is_sensing evs = true.
Proof.
  intros Hact Hres Henc.
  destruct (update_odometry_valid c hw (now env) Hres) as (r & evs & Hodo & Hr).
  destruct r as [o|]; [destruct Hr; congruence|].
  destruct Hr as [_ Hev]. exists evs. split; [|done].
  unfold update. by rewrite (active_bool c Hact), Hodo.
Qed.

Lemma filter_wheel_writes_cycle c cmd (evs0 pubs1 pubs2 : list Event) :
  forallb (λ e, negb (is_hardware_write e)) evs0 = true →
  forallb is_publication pubs1 = true →
  forallb is_publication pubs2 = true →
  List.filter is_wheel_write
    (evs0 ++ pubs1 ++ [ReadFromRT] ++ pubs2 ++ cycle_writes c cmd)
  = wheel_commands (registered_left_wheel_handles_ c) (registered_right_wheel_handles_ c)
      (wheel_velocity_left (lin cmd) (ang cmd) (effective_separation (wheel_params_ c))
         (effective_left_radius (wheel_params_ c)))
      (wheel_velocity_right (lin cmd) (ang cmd) (effective_separation (wheel_params_ c))
         (effective_right_radius (wheel_params_ c))).
Proof.
  intros H0 H1 H2. unfold cycle_writes. rewrite !List.filter_app.
  rewrite (filter_none _ is_wheel_write evs0 H0) by by intros [].
  rewrite (filter_none _ is_wheel_write pubs1 H1) by by intros [].
  rewrite (filter_none _ is_wheel_write pubs2 H2) by by intros [].
  rewrite (filter_all _ _ (wheel_commands_writes _ _ _ _)).
  rewrite (filter_none _ is_wheel_write _ (mode_commands_modes _ _)) by by intros [].
  simpl. by rewrite app_nil_r.
Qed.

(** ** Properties of the control cycle *)

(** C2, amended to NaN readings.  In an active closed-loop cycle with
    resolved handles, if some registered wheel reads a NaN position,
    [update] returns [CONTROLLER_INTERFACE_RET_ERROR] with the controller
    object and the hardware exactly as they were (odometry, [last0_cmd_],
    [last1_cmd_] and [previous_update_timestamp_] included), having made no
    call but position reads and the error log. *)
Theorem update_nan_position_aborts c hw env :
  lifecycle_state c = PRIMARY_STATE_ACTIVE →
  handles_resolved c hw = true →
  open_loop (odom_params_ c) = false →
  some_position_is_nan c hw = true →
  ∃ evs,
    update c hw env = Returns (CONTROLLER_INTERFACE_RET_ERROR, c, hw, evs)
    ∧ forallb is_sensing evs = true.
Proof.
  intros Hact Hres Hopen Hnan. apply update_active_error; try done.
  unfold encoders_valid. by rewrite Hopen, Hnan.
Qed.

(** The left wheel of the two-wheeled robot reads NaN. *)
Lemma update_nan_position_aborts_witness :
  ∃ evs,
    update (TwoWheels.driving false) (TwoWheels.hardware_reading nan 0.25)
      (TwoWheels.cycle 1010000000)
    = Returns (CONTROLLER_INTERFACE_RET_ERROR, TwoWheels.driving false,
               TwoWheels.hardware_reading nan 0.25, evs)
    ∧ forallb is_sensing evs = true.
Proof. apply update_nan_position_aborts; vm_compute; reflexivity. Defined.

(** C2 as stated fails on an infinite reading: [std::isnan] lets it
    through, the cycle succeeds, integrates the infinite mean, advances the
    time stamp and writes both wheels. *)
Lemma update_infinite_position_not_rejected :
  let hw := TwoWheels.hardware_reading infinity 0.25 in
  let result := update (TwoWheels.driving false) hw (TwoWheels.cycle 1010000000) in
  PrimFloat.is_finite infinity = false
  ∧ reading hw {| state := Some "left_wheel"; command := Some "left_wheel" |} = Some infinity
  ∧ returned result = Some CONTROLLER_INTERFACE_RET_SUCCESS
  ∧ odometry_ <$> controller_after result
    = Some (Odometry_update (odometry_ (TwoWheels.driving false)) infinity 0.25 1010000000)
  ∧ previous_update_timestamp_ <$> controller_after result = Some 1010000000
  ∧ List.filter is_wheel_write (calls_of result)
    = [SetCmd "left_wheel" 10; SetCmd "right_wheel" 10].
Proof. repeat split; vm_compute; reflexivity. Qed.

(** C5, amended.  In an active cycle that gets past the odometry step,
    with resolved handles, when the stored command is older than the
    timeout, [update] returns success, leaves [command_] as it is, and
    writes to every wheel the velocity mixed from the limited zero command
    (zero goes through the limiters like any command).  With no limit
    enabled on either axis, a finite effective separation and effective
    radii that are neither zero nor NaN, both velocities equal zero. *)
Theorem update_brakes_on_stale_command c hw env :
  lifecycle_state c = PRIMARY_STATE_ACTIVE →
  handles_resolved c hw = true →
  publishers_created c = true →
  encoders_valid c hw = true →
  command_timed_out c (now env) →
  let w := wheel_params_ c in
  let cmd := enforce_limiters c (now env - previous_update_timestamp_ c)
               {| lin := 0; ang := 0; stamp := stamp (command_ c) |} in
  let velocity_left :=
    wheel_velocity_left (lin cmd) (ang cmd) (effective_separation w) (effective_left_radius w) in
  let velocity_right :=
    wheel_velocity_right (lin cmd) (ang cmd) (effective_separation w)
      (effective_right_radius w) in
  ∃ c' hw' evs,
    update c hw env = Returns (CONTROLLER_INTERFACE_RET_SUCCESS, c', hw', evs)
    ∧ command_ c' = command_ c
    ∧ List.filter is_wheel_write evs
      = wheel_commands (registered_left_wheel_handles_ c) (registered_right_wheel_handles_ c)
          velocity_left velocity_right
    ∧ (SpeedLimiter.unlimited (limiter_linear_ c) →
       SpeedLimiter.unlimited (limiter_angular_ c) →
       PrimFloat.is_finite (effective_separation w) = true →
       PrimFloat.is_nan (effective_left_radius w) = false →
       PrimFloat.is_zero (effective_left_radius w) = false →
       PrimFloat.is_nan (effective_right_radius w) = false →
       PrimFloat.is_zero (effective_right_radius w) = false →
       (velocity_left =? 0)%float = true ∧ (velocity_right =? 0)%float = true).
Proof.
  intros Hact Hres Hpub Henc Hstale w cmd velocity_left velocity_right.
  destruct (update_active_success c hw env Hact Hres Hpub Henc)
    as (o & reads & upd & pubs1 & pubs2 & _ & Hupd & Hreads & Hodo & H1 & H2).
  assert (Hcmd : limited_command c (now env) = cmd).
  { unfold limited_command, brake_on_timeout. unfold command_timed_out in Hstale.
    by rewrite (proj2 (Z.gtb_gt _ _)) by lia. }
  rewrite Hcmd in Hupd. eexists _, _, _. split; [exact Hupd|].
  split; [reflexivity|]. split.
  - apply filter_wheel_writes_cycle; try done.
    apply forallb_app_true; [eapply forallb_impl; [exact Hreads|by intros []]|].
    simpl. destruct upd; done.
  - intros Hl Ha Hsep Hln Hlz Hrn Hrz.
    subst velocity_left velocity_right cmd. unfold enforce_limiters. simpl.
    rewrite !limit_unlimited by done.
    split.
    + by apply zero_command_zero_velocity.
    + by apply zero_command_zero_velocity.
Qed.

(** A stale command of 1 m/s without limits: both wheels are written
    zero. *)
Lemma update_brakes_on_stale_command_witness :
  let c := TwoWheels.stale true TwoWheels.no_limits in
  ∃ c' hw' evs,
    update c TwoWheels.hardware (TwoWheels.cycle 1010000000)
    = Returns (CONTROLLER_INTERFACE_RET_SUCCESS, c', hw', evs)
    ∧ command_ c' = command_ c
    ∧ List.filter is_wheel_write evs = [SetCmd "left_wheel" 0; SetCmd "right_wheel" 0].
Proof.
  intros c.
  destruct (update_brakes_on_stale_command c TwoWheels.hardware (TwoWheels.cycle 1010000000))
    as (c' & hw' & evs & Hupd & Hcmd & Hw & _); try (vm_compute; reflexivity).
  exists c', hw', evs. split; [exact Hupd|]. split; [exact Hcmd|].
  rewrite Hw. vm_compute. reflexivity.
Defined.

(** C5 as stated fails with the acceleration limited to 1 m/s^2: the stale
    command is zeroed, the limiter lets the linear velocity fall from 1 to
    0.99 m/s only, and both wheels are written 9.9 rad/s. *)
Lemma stale_command_limited_velocity_nonzero :
  let c := TwoWheels.stale true TwoWheels.acceleration_limits in
  let result := update c TwoWheels.hardware (TwoWheels.cycle 1010000000) in
  let v := ((1 + -1 * 0.01) / 0.1)%float in
  lifecycle_state c = PRIMARY_STATE_ACTIVE
  ∧ command_timed_out c 1010000000
  ∧ returned result = Some CONTROLLER_INTERFACE_RET_SUCCESS
  ∧ List.filter is_wheel_write (calls_of result)
    = [SetCmd "left_wheel" v; SetCmd "right_wheel" v]
  ∧ (v =? 0)%float = false
  ∧ (9 <? v)%float = true.
Proof. repeat split; vm_compute; reflexivity. Qed.

(** The timeout is compared as a count of nanoseconds.  A command
    received 20 ms before the cycle is within a timeout of 9223372036854 ms
    and drives the wheels; with 9223372036855 ms the converted timeout is
    negative, the same command counts as stale and both wheels are written
    zero. *)
Lemma update_timeout_wraps_around :
  let fresh := update (TwoWheels.driving_with_timeout 9223372036854) TwoWheels.hardware
                 (TwoWheels.cycle 1010000000) in
  let wrapped := update (TwoWheels.driving_with_timeout 9223372036855) TwoWheels.hardware
                   (TwoWheels.cycle 1010000000) in
  ¬ command_timed_out (TwoWheels.driving_with_timeout 9223372036854) 1010000000
  ∧ List.filter is_wheel_write (calls_of fresh)
    = [SetCmd "left_wheel" 10; SetCmd "right_wheel" 10]
  ∧ command_timed_out (TwoWheels.driving_with_timeout 9223372036855) 1010000000
  ∧ returned wrapped = Some CONTROLLER_INTERFACE_RET_SUCCESS
  ∧ List.filter is_wheel_write (calls_of wrapped)
    = [SetCmd "left_wheel" 0; SetCmd "right_wheel" 0].
Proof.
  split; [by vm_compute|]. repeat split; vm_compute; reflexivity.
Qed.

(** C6.  In a successful active cycle the wheel commands written are
    exactly: to every left wheel [(linear - angular * separation / 2) /
    left radius], to every right wheel [(linear + angular * separation / 2)
    / right radius], for the limited command and the effective parameters.
    With separation 0.5 and radius 0.1, command (1, 0) gives 10 and 10, and
    command (0, 1) gives -2.5 and 2.5, in binary64 arithmetic. *)
Theorem update_mixes_wheel_velocities c hw env :
  lifecycle_state c = PRIMARY_STATE_ACTIVE →
  handles_resolved c hw = true →
  publishers_created c = true →
  encoders_valid c hw = true →
  let linear := lin (limited_command c (now env)) in
  let angular := ang (limited_command c (now env)) in
  let wheel_separation := effective_separation (wheel_params_ c) in
  let left_wheel_radius := effective_left_radius (wheel_params_ c) in
  let right_wheel_radius := effective_right_radius (wheel_params_ c) in
  let velocity_left := ((linear - angular * wheel_separation / 2) / left_wheel_radius)%float in
  let velocity_right := ((linear + angular * wheel_separation / 2) / right_wheel_radius)%float in
  (∀ joint v,
     SetCmd joint v ∈ calls_of (update c hw env) ↔
     (∃ h, h ∈ registered_left_wheel_handles_ c ∧ command h = Some joint
           ∧ v = velocity_left)
     ∨ (∃ h, h ∈ registered_right_wheel_handles_ c ∧ command h = Some joint
             ∧ v = velocity_right))
  ∧ ((1 - 0 * 0.5 / 2) / 0.1 = 10 ∧ (1 + 0 * 0.5 / 2) / 0.1 = 10
     ∧ (0 - 1 * 0.5 / 2) / 0.1 = -2.5 ∧ (0 + 1 * 0.5 / 2) / 0.1 = 2.5)%float.
Proof.
  intros Hact Hres Hpub Henc linear angular wheel_separation left_wheel_radius
    right_wheel_radius velocity_left velocity_right.
  split; [|by vm_compute].
  destruct (update_active_success c hw env Hact Hres Hpub Henc)
    as (o & reads & upd & pubs1 & pubs2 & _ & Hupd & Hreads & Hodo & H1 & H2).
  rewrite Hupd. cbn [calls_of]. intros joint v.
  apply handles_resolved_iff in Hres as (Hval & HlenL & HlenR).
  apply handles_valid_iff in Hval as (HL & HR & _).
  assert (Hin : SetCmd joint v ∈ (reads ++ [upd]) ++ pubs1 ++ [ReadFromRT] ++ pubs2
                  ++ cycle_writes c (limited_command c (now env))
                ↔ SetCmd joint v ∈ wheel_commands (registered_left_wheel_handles_ c)
                                     (registered_right_wheel_handles_ c)
                                     velocity_left velocity_right).
  { unfold cycle_writes. rewrite !elem_of_app, elem_of_mode_commands.
    rewrite forallb_forall in Hreads, H1, H2.
    split; [|tauto].
    intros [[Hin|Hin]|[Hin|[Hin|[Hin|[Hin|(?&_&?)]]]]]; try done.
    - apply list_elem_of_In, Hreads in Hin. done.
    - apply list_elem_of_singleton in Hin. subst upd. done.
    - apply list_elem_of_In, H1 in Hin. done.
    - by apply list_elem_of_singleton in Hin.
    - apply list_elem_of_In, H2 in Hin. done. }
  rewrite Hin, (elem_of_wheel_commands hw) by (auto; congruence).
  split.
  - intros [(h&j&?&?&[= -> ->])|(h&j&?&?&[= -> ->])]; [left|right]; eauto.
  - intros [(h&?&?&->)|(h&?&?&->)]; [left|right]; eauto.
Qed.

(** Driving straight at 1 m/s: each wheel is written 10 rad/s. *)
Lemma update_mixes_wheel_velocities_witness :
  let calls := calls_of (update (TwoWheels.driving true) TwoWheels.hardware
                           (TwoWheels.cycle 1010000000)) in
  SetCmd "left_wheel" 10 ∈ calls ∧ SetCmd "right_wheel" 10 ∈ calls
  ∧ SetCmd "left_wheel" 5 ∉ calls.
Proof.
  destruct (update_mixes_wheel_velocities (TwoWheels.driving true) TwoWheels.hardware
              (TwoWheels.cycle 1010000000)) as [Hcalls _]; try (vm_compute; reflexivity).
  split; [|split].
  - apply Hcalls. left. eexists. split; [by left|]. split; vm_compute; reflexivity.
  - apply Hcalls. right. eexists. split; [by left|]. split; vm_compute; reflexivity.
  - intros [(h & Hh & Hc & Hv)|(h & Hh & Hc & Hv)]%Hcalls.
    + apply (f_equal (λ v, v =? 10)%float) in Hv. vm_compute in Hv. discriminate Hv.
    + apply list_elem_of_singleton in Hh. subst h. discriminate Hc.
Defined.

Lemma on_activate_clears_halted c hw r c' hw' evs :
  on_activate c hw = Returns (r, c', hw', evs) → is_halted c' = false.
Proof.
  unfold on_activate, set_activated_if, set_activated.
  destruct (odometry_transform_publisher_ c); [|done]. run.
  destruct (odometry_publisher_ c); [|done]. run.
  destruct (publish_limited_velocity_ c);
    [destruct (limited_velocity_publisher_ c); [|done]|]; run;
    (destruct (publish_wheel_joint_controller_state_ c);
      [destruct (wheel_joint_controller_state_publisher_ c); [|done]|]); run;
    by intros [= _ <- _ _].
Qed.

(** Outside the active state, with valid registered handles: if not
    yet halted, [update] returns success having written zero to every
    registered wheel and [ACTIVE] to every operation mode and nothing else,
    and having set [is_halted] only (odometry, stored command, history and
    time stamp are as before); the next cycle, and any cycle with
    [is_halted] set, returns success with no call at all and nothing
    changed; [on_activate] clears [is_halted]. *)
Theorem update_inactive_halts_once c hw env :
  lifecycle_state c ≠ PRIMARY_STATE_ACTIVE →
  handles_valid c hw = true →
  (is_halted c = false →
   update c hw env
   = Returns (CONTROLLER_INTERFACE_RET_SUCCESS, set_is_halted c true,
              apply_events (halt_calls c) hw, halt_calls c)
   ∧ (odometry_ (set_is_halted c true) = odometry_ c
      ∧ command_ (set_is_halted c true) = command_ c
      ∧ last0_cmd_ (set_is_halted c true) = last0_cmd_ c
      ∧ last1_cmd_ (set_is_halted c true) = last1_cmd_ c
      ∧ previous_update_timestamp_ (set_is_halted c true) = previous_update_timestamp_ c
      ∧ forallb is_hardware_write (halt_calls c) = true)
   ∧ (∀ h joint,
        h ∈ registered_left_wheel_handles_ c ++ registered_right_wheel_handles_ c →
        command h = Some joint →
        SetCmd joint 0 ∈ halt_calls c
        ∧ joint_commands (apply_events (halt_calls c) hw) !! joint = Some 0%float)
   ∧ (∀ op, Some op ∈ registered_operation_mode_handles_ c →
        SetMode op ACTIVE ∈ halt_calls c)
   ∧ (∀ hw2 env2,
        update (set_is_halted c true) hw2 env2
        = Returns (CONTROLLER_INTERFACE_RET_SUCCESS, set_is_halted c true, hw2, [])))
  ∧ (is_halted c = true →
     update c hw env = Returns (CONTROLLER_INTERFACE_RET_SUCCESS, c, hw, []))
  ∧ (∀ r c' hw' evs, on_activate c hw = Returns (r, c', hw', evs) → is_halted c' = false).
Proof.
  intros Hinactive Hvalid. split; [|split].
  - intros Hh. split; [|split; [|split; [|split]]].
    + unfold update. rewrite (inactive_bool c Hinactive), Hh. simpl negb. cbv iota.
      by rewrite (halt_valid c hw Hvalid).
    + repeat split. unfold halt_calls.
      apply forallb_app_true; [|apply forallb_app_true].
      * eapply forallb_impl; [apply zero_commands_writes|by intros []].
      * eapply forallb_impl; [apply zero_commands_writes|by intros []].
      * eapply forallb_impl; [apply mode_commands_modes|by intros []].
    + intros h joint Hin Hc. split; [|by eapply halt_calls_zero].
      unfold halt_calls. rewrite !elem_of_app, !elem_of_zero_commands.
      apply elem_of_app in Hin as [Hin|Hin]; [left|right; left]; eauto.
    + intros op Hop. unfold halt_calls. rewrite !elem_of_app, elem_of_mode_commands. eauto.
    + intros hw2 env2. unfold update.
      change (lifecycle_state (set_is_halted c true)) with (lifecycle_state c).
      by rewrite (inactive_bool c Hinactive).
  - intros Hh. unfold update. by rewrite (inactive_bool c Hinactive), Hh.
  - apply on_activate_clears_halted.
Qed.

(** Two consecutive cycles of the stopped robot. *)
Lemma update_inactive_halts_once_witness :
  update (TwoWheels.stopped false) TwoWheels.hardware (TwoWheels.cycle 1010000000)
  = Returns (CONTROLLER_INTERFACE_RET_SUCCESS, TwoWheels.stopped true,
             apply_events (halt_calls (TwoWheels.stopped false)) TwoWheels.hardware,
             [SetCmd "left_wheel" 0; SetCmd "right_wheel" 0; SetMode "op" ACTIVE])
  ∧ update (TwoWheels.stopped true)
      (apply_events (halt_calls (TwoWheels.stopped false)) TwoWheels.hardware)
      (TwoWheels.cycle 1020000000)
    = Returns (CONTROLLER_INTERFACE_RET_SUCCESS, TwoWheels.stopped true,
               apply_events (halt_calls (TwoWheels.stopped false)) TwoWheels.hardware, []).
Proof.
  destruct (update_inactive_halts_once (TwoWheels.stopped false) TwoWheels.hardware
              (TwoWheels.cycle 1010000000)) as [Hfirst _].
  - discriminate.
  - reflexivity.
  - destruct (Hfirst eq_refl) as (H1 & _ & _ & _ & H2). split; [exact H1|apply H2].
Defined.

(** C7.  [update] outside the active state is to return success after
    halting once.  It does not on the controller a failed [on_configure]
    leaves: with the right wheel named after a joint the hardware does not
    hold, [on_configure] returns [FAILURE] with the right handle it had made
    room for still null; the controller is not active and not halted, so
    the first cycle calls [halt], which writes through the null command
    pointer.  The cycle is undefined instead of returning success. *)
Theorem update_inactive_after_failed_configure_undefined :
  let env := TwoWheels.configuration
               (TwoWheels.params ["left_wheel"] ["rear_wheel"] 0.5 1 None) in
  ∃ c,
    on_configure TwoWheels.unconfigured TwoWheels.hardware env
    = Returns (FAILURE, c, TwoWheels.hardware, [])
    ∧ lifecycle_state c = PRIMARY_STATE_UNCONFIGURED
    ∧ is_halted c = false
    ∧ registered_left_wheel_handles_ c = [named_handle "left_wheel"]
    ∧ registered_right_wheel_handles_ c = [WheelHandle_default]
    ∧ command WheelHandle_default = None
    ∧ update c TwoWheels.hardware (TwoWheels.cycle 1010000000) = Undefined NullPointer.
Proof.
  eexists. split; [vm_compute; reflexivity|].
  repeat split; vm_compute; reflexivity.
Qed.

(** C8.  The calls of an active cycle split in two: the first part has
    no command read and no hardware write, the second has no odometry
    update.  On success the first part ends with the odometry update and
    the second holds the command read followed by every hardware write; on
    error there is no second part. *)
Theorem update_odometry_before_command c hw env :
  lifecycle_state c = PRIMARY_STATE_ACTIVE →
  handles_resolved c hw = true →
  publishers_created c = true →
  ∃ ret c' hw' before after,
    update c hw env = Returns (ret, c', hw', before ++ after)
    ∧ forallb (λ e, negb (is_command_read e) && negb (is_hardware_write e)) before = true
    ∧ forallb (λ e, negb (is_odometry_update e)) after = true
    ∧ match ret with
      | CONTROLLER_INTERFACE_RET_SUCCESS =>
          (∃ reads upd, before = reads ++ [upd] ∧ is_odometry_update upd = true
                        ∧ forallb is_sensing reads = true)
          ∧ (∃ pubs rest, after = pubs ++ ReadFromRT :: rest
                          ∧ forallb is_publication pubs = true
                          ∧ List.filter is_hardware_write rest
                            = cycle_writes c (limited_command c (now env)))
      | CONTROLLER_INTERFACE_RET_ERROR =>
          after = [] ∧ forallb is_sensing before = true ∧ c' = c ∧ hw' = hw
      end.
Proof.
  intros Hact Hres Hpub.
  destruct (encoders_valid c hw) eqn:Henc.
  - destruct (update_active_success c hw env Hact Hres Hpub Henc)
      as (o & reads & upd & pubs1 & pubs2 & _ & Hupd & Hreads & Hodo & H1 & H2).
    eexists _, _, _, (reads ++ [upd]), _. split; [exact Hupd|].
    assert (Hw : forallb is_hardware_write
                   (cycle_writes c (limited_command c (now env))) = true).
    { unfold cycle_writes. apply forallb_app_true.
      - eapply forallb_impl; [apply wheel_commands_writes|by intros []].
      - eapply forallb_impl; [apply mode_commands_modes|by intros []]. }
    split; [|split; [|split]].
    + apply forallb_app_true; [eapply forallb_impl; [exact Hreads|by intros []]|].
      simpl. destruct upd; done.
    + apply forallb_app_true; [eapply forallb_impl; [exact H1|by intros []]|].
      apply (forallb_app_true _ [_]); [done|].
      apply forallb_app_true; [eapply forallb_impl; [exact H2|by intros []]|].
      eapply forallb_impl; [exact Hw|by intros []].
    + eauto.
    + exists pubs1, (pubs2 ++ cycle_writes c (limited_command c (now env))).
      split; [done|]. split; [done|]. rewrite List.filter_app.
      rewrite (filter_none _ is_hardware_write pubs2 H2) by by intros [].
      by rewrite (filter_all _ _ Hw).
  - destruct (update_active_error c hw env Hact Hres Henc) as (evs & Hupd & Hev).
    exists CONTROLLER_INTERFACE_RET_ERROR, c, hw, evs, []. rewrite app_nil_r.
    split; [done|]. split; [|done].
    eapply forallb_impl; [exact Hev|by intros []].
Qed.

(** A closed-loop cycle of the driving robot. *)
Lemma update_odometry_before_command_witness :
  ∃ ret c' hw' before after,
    update (TwoWheels.driving false) TwoWheels.hardware (TwoWheels.cycle 1010000000)
    = Returns (ret, c', hw', before ++ after)
    ∧ forallb (λ e, negb (is_command_read e) && negb (is_hardware_write e)) before = true
    ∧ forallb (λ e, negb (is_odometry_update e)) after = true.
Proof.
  destruct (update_odometry_before_command (TwoWheels.driving false) TwoWheels.hardware
              (TwoWheels.cycle 1010000000))
    as (ret & c' & hw' & before & after & H1 & H2 & H3 & _);
    try (vm_compute; reflexivity).
  exists ret, c', hw', before, after. auto.
Defined.

(** C10.  When the brake fires in a successful active cycle, the history
    becomes [last1_cmd_ = ] the old [last0_cmd_] and [last0_cmd_ = ] the
    limited zero command, while [command_] keeps the stored command; the
    next cycle seeds both limiters with these two and, in open loop,
    integrates the limited zero command.  That command is zero on every
    axis whose limiter has no limit enabled. *)
Theorem stale_brake_enters_history c hw env :
  lifecycle_state c = PRIMARY_STATE_ACTIVE →
  handles_resolved c hw = true →
  publishers_created c = true →
  encoders_valid c hw = true →
  command_timed_out c (now env) →
  let zeroed := enforce_limiters c (now env - previous_update_timestamp_ c)
                  {| lin := 0; ang := 0; stamp := stamp (command_ c) |} in
  ∃ c' hw' evs,
    update c hw env = Returns (CONTROLLER_INTERFACE_RET_SUCCESS, c', hw', evs)
    ∧ last1_cmd_ c' = last0_cmd_ c
    ∧ last0_cmd_ c' = zeroed
    ∧ command_ c' = command_ c
    ∧ (SpeedLimiter.unlimited (limiter_linear_ c) → lin zeroed = 0%float)
    ∧ (SpeedLimiter.unlimited (limiter_angular_ c) → ang zeroed = 0%float)
    ∧ ∀ hw2 env2,
        handles_resolved c' hw2 = true →
        encoders_valid c' hw2 = true →
        ∃ c'' hw'' evs2,
          update c' hw2 env2 = Returns (CONTROLLER_INTERFACE_RET_SUCCESS, c'', hw'', evs2)
          ∧ lin (last0_cmd_ c'')
            = SpeedLimiter.limit (limiter_linear_ c)
                (lin (brake_on_timeout c' (now env2) (command_ c)))
                (lin zeroed) (lin (last0_cmd_ c)) (seconds (now env2 - now env))
          ∧ ang (last0_cmd_ c'')
            = SpeedLimiter.limit (limiter_angular_ c)
                (ang (brake_on_timeout c' (now env2) (command_ c)))
                (ang zeroed) (ang (last0_cmd_ c)) (seconds (now env2 - now env))
          ∧ (open_loop (odom_params_ c) = true →
             odometry_ c'' = updateOpenLoop (odometry_ c') (lin zeroed) (ang zeroed) (now env2)
             ∧ OdometryUpdateOpenLoop (lin zeroed) (ang zeroed) (now env2) ∈ evs2).
Proof.
  intros Hact Hres Hpub Henc Hstale zeroed.
  destruct (update_active_success c hw env Hact Hres Hpub Henc)
    as (o & reads & upd & pubs1 & pubs2 & _ & Hupd & _).
  assert (Hcmd : limited_command c (now env) = zeroed).
  { unfold limited_command, brake_on_timeout. unfold command_timed_out in Hstale.
    by rewrite (proj2 (Z.gtb_gt _ _)) by lia. }
  rewrite Hcmd in Hupd.
  set (c' := with_cycle c o zeroed (last0_cmd_ c) (now env) (is_halted c)) in *.
  eexists c', _, _. split; [exact Hupd|].
  split; [done|]. split; [done|]. split; [done|]. split; [|split].
  - intros Hl. subst zeroed. unfold enforce_limiters. simpl. by apply limit_unlimited.
  - intros Hl. subst zeroed. unfold enforce_limiters. simpl. by apply limit_unlimited.
  - intros hw2 env2 Hres2 Henc2.
    destruct (update_active_success c' hw2 env2 Hact Hres2 Hpub Henc2)
      as (o2 & reads2 & upd2 & pubs3 & pubs4 & Hodo2 & Hupd2 & _).
    eexists _, _, _. split; [exact Hupd2|]. split; [done|]. split; [done|].
    intros Hopen. unfold update_odometry in Hodo2.
    change (open_loop (odom_params_ c')) with (open_loop (odom_params_ c)) in Hodo2.
    rewrite Hopen in Hodo2. injection Hodo2 as <- Hev. split; [done|].
    apply elem_of_app. left. rewrite <- Hev. by left.
Qed.

(** A stale command of 1 m/s without limits enters the history as
    zero. *)
Lemma stale_brake_enters_history_witness :
  let c := TwoWheels.stale true TwoWheels.no_limits in
  ∃ c' hw' evs,
    update c TwoWheels.hardware (TwoWheels.cycle 1010000000)
    = Returns (CONTROLLER_INTERFACE_RET_SUCCESS, c', hw', evs)
    ∧ last1_cmd_ c' = TwoWheels.velocity_command 1 0 200000000
    ∧ last0_cmd_ c' = TwoWheels.velocity_command 0 0 200000000
    ∧ command_ c' = TwoWheels.velocity_command 1 0 200000000.
Proof.
  intros c.
  destruct (stale_brake_enters_history c TwoWheels.hardware (TwoWheels.cycle 1010000000))
    as (c' & hw' & evs & Hupd & H1 & H0 & Hcmd & _); try (vm_compute; reflexivity).
  exists c', hw', evs. split; [exact Hupd|]. rewrite H1, H0, Hcmd.
  repeat split; vm_compute; reflexivity.
Defined.

(** C10 as stated fails with the acceleration limited to 1 m/s^2: the
    brake fires on a stored command of 1 m/s, the limited zero command that
    enters the history is 0.99 m/s, and the next cycle, the brake firing
    again, seeds its limiter with 0.99 and integrates 0.99 m/s in open
    loop; the stored command is still 1 m/s. *)
Lemma stale_brake_limited_history_nonzero :
  let c := TwoWheels.stale true TwoWheels.acceleration_limits in
  let first := update c TwoWheels.hardware (TwoWheels.cycle 1010000000) in
  let v := (1 + -1 * 0.01)%float in
  command_timed_out c 1010000000
  ∧ returned first = Some CONTROLLER_INTERFACE_RET_SUCCESS
  ∧ last0_cmd_ <$> controller_after first = Some (TwoWheels.velocity_command v 0 200000000)
  ∧ command_ <$> controller_after first = Some (TwoWheels.velocity_command 1 0 200000000)
  ∧ (v =? 0)%float = false
  ∧ ∃ c',
      controller_after first = Some c'
      ∧ command_timed_out c' 1020000000
      ∧ OdometryUpdateOpenLoop v 0 1020000000
        ∈ calls_of (update c' TwoWheels.hardware (TwoWheels.cycle 1020000000)).
Proof.
  split; [vm_compute; reflexivity|]. split; [vm_compute; reflexivity|].
  split; [vm_compute; reflexivity|]. split; [vm_compute; reflexivity|].
  split; [vm_compute; reflexivity|].
  eexists. split; [vm_compute; reflexivity|]. split; [vm_compute; reflexivity|].
  vm_compute. by left.
Qed.

(** ** Properties of the lifecycle callbacks *)

(** C1.  Cleanup, error and shutdown are each to halt the wheels before
    releasing the handles.  [on_error] only calls [reset]: on a driving
    robot it returns [SUCCESS] with both handle vectors released, no call
    made on the hardware, and both wheels still commanded at 5 rad/s, where
    [on_cleanup] and [on_shutdown] from the same state leave both commands
    at zero. *)
Theorem on_error_leaves_wheels_running :
  let c := TwoWheels.driving true in
  let hw := TwoWheels.hardware in
  on_error c hw = Returns (SUCCESS, (reset c).2, hw, [])
  ∧ registered_left_wheel_handles_ (reset c).2 = []
  ∧ registered_right_wheel_handles_ (reset c).2 = []
  ∧ joint_commands hw !! "left_wheel" = Some 5%float
  ∧ joint_commands hw !! "right_wheel" = Some 5%float
  ∧ (5 =? 0)%float = false
  ∧ hardware_after (on_cleanup c hw) = Some (apply_events (halt_calls c) hw)
  ∧ hardware_after (on_shutdown c hw) = Some (apply_events (halt_calls c) hw)
  ∧ joint_commands (apply_events (halt_calls c) hw) !! "left_wheel" = Some 0%float
  ∧ joint_commands (apply_events (halt_calls c) hw) !! "right_wheel" = Some 0%float.
Proof. repeat split; vm_compute; reflexivity. Qed.

Lemma on_deactivate_valid c hw :
  handles_valid c hw = true →
  publishers_created c = true →
  ∃ tf odom limited wheel_state,
    on_deactivate c hw
    = Returns (SUCCESS, with_activation c (is_halted c) false tf odom limited wheel_state,
               apply_events (halt_calls c) hw, halt_calls c).
Proof.
  intros Hvalid (Hodom & Htf & Hlim & Hws)%publishers_created_iff.
  unfold on_deactivate. rewrite (halt_valid c hw Hvalid). run.
  destruct Htf as [tf ->], Hodom as [odom ->]. unfold set_activated at 1 2. run.
  unfold set_activated_if, set_activated.
  destruct (publish_limited_velocity_ c);
    [destruct (Hlim eq_refl) as [? ->]|]; run;
    (destruct (publish_wheel_joint_controller_state_ c);
      [destruct (Hws eq_refl) as [? ->]|]); run; eauto.
Qed.

(** C3, amended to the three teardown transitions.  [on_cleanup],
    [on_error] and [on_shutdown] leave the odometry as [resetOdometry] makes
    it, at the origin with a zero velocity estimate; [on_deactivate] leaves
    the odometry as it was. *)
Theorem teardown_resets_odometry c hw :
  handles_valid c hw = true →
  publishers_created c = true →
  odometry_ <$> controller_after (on_cleanup c hw) = Some (resetOdometry (odometry_ c))
  ∧ odometry_ <$> controller_after (on_error c hw) = Some (resetOdometry (odometry_ c))
  ∧ odometry_ <$> controller_after (on_shutdown c hw) = Some (resetOdometry (odometry_ c))
  ∧ at_origin (resetOdometry (odometry_ c))
  ∧ odometry_ <$> controller_after (on_deactivate c hw) = Some (odometry_ c).
Proof.
  intros Hvalid Hpub.
  rewrite (on_cleanup_halts c hw Hvalid), (on_shutdown_halts c hw Hvalid).
  destruct (on_deactivate_valid c hw Hvalid Hpub) as (tf & odom & lim & ws & ->).
  repeat split.
Qed.

(** The four transitions from the driving robot. *)
Lemma teardown_resets_odometry_witness :
  let c := TwoWheels.driving true in
  odometry_ <$> controller_after (on_cleanup c TwoWheels.hardware)
  = Some (resetOdometry (odometry_ c))
  ∧ odometry_ <$> controller_after (on_error c TwoWheels.hardware)
    = Some (resetOdometry (odometry_ c))
  ∧ odometry_ <$> controller_after (on_shutdown c TwoWheels.hardware)
    = Some (resetOdometry (odometry_ c))
  ∧ at_origin (resetOdometry (odometry_ c))
  ∧ odometry_ <$> controller_after (on_deactivate c TwoWheels.hardware)
    = Some (odometry_ c).
Proof. apply teardown_resets_odometry; reflexivity. Defined.

(** C3 as stated fails for deactivate: from the active state it returns
    [SUCCESS] and the odometry still holds the step integrated before. *)
Lemma on_deactivate_keeps_odometry :
  let c := TwoWheels.driving true in
  let result := on_deactivate c TwoWheels.hardware in
  lifecycle_state c = PRIMARY_STATE_ACTIVE
  ∧ returned result = Some SUCCESS
  ∧ odometry_ <$> controller_after result
    = Some (updateOpenLoop (resetOdometry Odometry_new) 1 0 1000000000)
  ∧ integrated_since_reset (updateOpenLoop (resetOdometry Odometry_new) 1 0 1000000000)
    = [(1%float, 0%float, 1000000000)]
  ∧ ¬ at_origin (updateOpenLoop (resetOdometry Odometry_new) 1 0 1000000000).
Proof. repeat split; try (vm_compute; reflexivity). intros H. discriminate H. Qed.

(** A configure that fails on a joint the hardware does not hold returns
    [FAILURE] with the handle [configure_side] had just made room for still
    null.  [halt] through it is undefined, from [update] as from
    [on_shutdown]; the properties of [halt] above assume valid handles for
    this reason. *)
Lemma halt_after_failed_configure_undefined :
  let env := TwoWheels.configuration
               (TwoWheels.params ["left_wheel"] ["rear_wheel"] 0.5 1 None) in
  let result := on_configure TwoWheels.unconfigured TwoWheels.hardware env in
  returned result = Some FAILURE
  ∧ registered_right_wheel_handles_ <$> controller_after result = Some [WheelHandle_default]
  ∧ (λ c, update c TwoWheels.hardware (TwoWheels.cycle 10)) <$> controller_after result
    = Some (Undefined NullPointer)
  ∧ (λ c, on_shutdown c TwoWheels.hardware) <$> controller_after result
    = Some (Undefined NullPointer).
Proof. repeat split; vm_compute; reflexivity. Qed.

(** ** on_configure *)

Lemma set_op_mode_handles_calls ms mode hw hw' evs :
  set_op_mode_handles ms mode hw = Returns (hw', evs) → evs = mode_commands ms mode.
Proof.
  revert hw hw' evs. induction ms as [|[op|] ms IH]; intros hw hw' evs; simpl.
  - by intros [= _ <-].
  - destruct (set_mode op mode hw) as [hw1|]; [|done]. run.
    destruct (set_op_mode_handles ms mode hw1) as [[hw2 evs2]|] eqn:Hrest; [|done]. run.
    intros [= _ <-]. by rewrite (IH _ _ _ Hrest).
  - done.
Qed.

Lemma no_names_error_not_mode side ms mode : no_names_error side ∉ mode_commands ms mode.
Proof. rewrite elem_of_mode_commands. by intros (? & _ & ?). Qed.

Lemma configure_side_named side n ns regs hw :
  (configure_side side (n :: ns) regs hw).2 = [].
Proof.
  unfold configure_side.
  by destruct (register_handles hw (n :: ns) 0
                 (resize (length (n :: ns)) WheelHandle_default regs)).
Qed.

Lemma configure_handles_no_names_error c hw env r c' hw' evs side :
  left_wheel_names_ c ≠ [] → right_wheel_names_ c ≠ [] →
  configure_handles c hw env = Returns (r, c', hw', evs) →
  no_names_error side ∉ evs.
Proof.
  intros Hl Hr. unfold configure_handles.
  destruct (left_wheel_names_ c) as [|ln lns] eqn:Hln; [done|].
  destruct (right_wheel_names_ c) as [|rn rns] eqn:Hrn; [done|].
  pose proof (configure_side_named "left" ln lns (registered_left_wheel_handles_ c) hw) as El.
  pose proof (configure_side_named "right" rn rns (registered_right_wheel_handles_ c) hw) as Er.
  destruct (configure_side "left" _ _ _) as [[lres lefts] evs_l].
  destruct (configure_side "right" _ _ _) as [[rres rights] evs_r].
  simpl in El, Er. subst evs_l evs_r.
  repeat case_match; simplify_eq; intros ?; simplify_eq;
    rewrite ?elem_of_nil, ?list_elem_of_singleton; try done.
  all: try (intros [=]; done).
  all: try tauto.
  all: match goal with
       | H : set_op_mode ?c1 _ _ ≫= _ = Returns _ |- _ =>
           destruct (set_op_mode c1 INACTIVE hw) as [[hw1 evs_mode]|] eqn:Hmode;
             [|done]; simpl in H; simplify_eq;
             apply set_op_mode_handles_calls in Hmode; subst;
             apply no_names_error_not_mode
       end.
Qed.

(** [on_configure] from a controller on which it returned [SUCCESS]. *)
Lemma on_configure_success c hw env c' hw' evs :
  on_configure c hw env = Returns (SUCCESS, c', hw', evs) →
  let p := parameters env in
  let w := {| wheels_per_side := wheels_per_side (wheel_params_ c);
              separation := Param.wheel_separation p;
              radius := Param.wheel_radius p;
              separation_multiplier := Param.wheel_separation_multiplier p;
              left_radius_multiplier := Param.left_wheel_radius_multiplier p;
              right_radius_multiplier := Param.right_wheel_radius_multiplier p |} in
  ∃ w1,
    set_odom_params_from_urdf p w (Param.left_wheel_names p !! 0%nat)
      (Param.right_wheel_names p !! 0%nat) (Param.wheel_separation p =? 0)%float
      (Param.wheel_radius p =? 0)%float = Returns (true, w1)
    ∧ separation (wheel_params_ c') = separation w1
    ∧ radius (wheel_params_ c') = radius w1
    ∧ separation_multiplier (wheel_params_ c') = separation_multiplier w1
    ∧ left_radius_multiplier (wheel_params_ c') = left_radius_multiplier w1
    ∧ right_radius_multiplier (wheel_params_ c') = right_radius_multiplier w1.
Proof.
  unfold on_configure. cbn [reset negb]. cbv zeta.
  destruct (set_odom_params_from_urdf _ _ _ _ _ _) as [[found w1]|] eqn:Hurdf;
    [|done]. run.
  destruct found; [|done]. cbn [negb].
  destruct (copy_into (Param.pose_covariance_diagonal _) _) as [pose_diagonal|]; [|done]. run.
  destruct (copy_into (Param.twist_covariance_diagonal _) _) as [twist_diagonal|]; [|done]. run.
  intros Hconf. exists w1. split; [reflexivity|].
  revert Hconf. unfold configure_handles.
  destruct (configure_side "left" _ _ _) as [[lres lefts] evs_l].
  destruct (configure_side "right" _ _ _) as [[rres rights] evs_r].
  repeat case_match; simplify_eq; try done.
  all: match goal with
       | |- set_op_mode ?c1 _ _ ≫= _ = Returns _ → _ =>
           destruct (set_op_mode c1 INACTIVE hw) as [[hw1 evs_mode]|]; [|done];
             simpl; intros [= <- _ _]; done
       end.
Qed.

Lemma lookup_radius_from_urdf_found model lj w w1 :
  lookup_radius_from_urdf model lj w = Returns (true, w1) →
  separation w1 = separation w
  ∧ separation_multiplier w1 = separation_multiplier w
  ∧ left_radius_multiplier w1 = left_radius_multiplier w
  ∧ right_radius_multiplier w1 = right_radius_multiplier w
  ∧ ∃ j, lj = Some j
         ∧ (urdf_util.collision_geometry (urdf.getLink model (urdf.child_link_name j))
            = Some (urdf.CYLINDER (radius w1))
            ∨ urdf_util.collision_geometry (urdf.getLink model (urdf.child_link_name j))
              = Some (urdf.SPHERE (radius w1))).
Proof.
  unfold lookup_radius_from_urdf. destruct lj as [j|]; [|done]. run.
  unfold urdf_util.get_wheel_radius, urdf_util.is_cylinder, urdf_util.is_sphere.
  destruct (urdf_util.has_collision_geometry _); cbn [negb].
  - destruct (urdf_util.collision_geometry _) as [[r| |r|]|] eqn:Hg; run;
      try (destruct (urdf.getLink _ _); done);
      intros [= <-]; repeat split; eauto.
  - destruct (urdf.getLink _ _); done.
Qed.

(** What a successful [set_odom_params_from_urdf] leaves in
    [wheel_params_]. *)
Lemma set_odom_params_from_urdf_found p w left_ref right_ref lookup_sep lookup_rad w1 :
  set_odom_params_from_urdf p w left_ref right_ref lookup_sep lookup_rad
  = Returns (true, w1) →
  (lookup_sep = false → separation w1 = separation w)
  ∧ (lookup_rad = false → radius w1 = radius w)
  ∧ separation_multiplier w1 = separation_multiplier w
  ∧ left_radius_multiplier w1 = left_radius_multiplier w
  ∧ right_radius_multiplier w1 = right_radius_multiplier w
  ∧ (lookup_sep || lookup_rad = true →
     ∃ model left0 right0,
       Param.robot_description p = Some (Some model)
       ∧ left_ref = Some left0 ∧ right_ref = Some right0
       ∧ (lookup_sep = true →
          ∃ lj rj, urdf.getJoint model left0 = Some lj ∧ urdf.getJoint model right0 = Some rj
            ∧ separation w1
              = urdf_util.euclidean_of_vectors
                  (urdf.parent_to_joint_origin_transform_position lj)
                  (urdf.parent_to_joint_origin_transform_position rj))
       ∧ (lookup_rad = true →
          ∃ lj, urdf.getJoint model left0 = Some lj
            ∧ (urdf_util.collision_geometry (urdf.getLink model (urdf.child_link_name lj))
               = Some (urdf.CYLINDER (radius w1))
               ∨ urdf_util.collision_geometry (urdf.getLink model (urdf.child_link_name lj))
                 = Some (urdf.SPHERE (radius w1))))).
Proof.
  unfold set_odom_params_from_urdf.
  destruct lookup_sep, lookup_rad; cbn [orb negb].
  4: { intros [= <-]. repeat split; done. }
  all: destruct (Param.robot_description p) as [[model|]|]; [|done|done]; run.
  all: destruct left_ref as [left0|]; [|done]; run.
  all: destruct right_ref as [right0|]; [|done]; run; cbv zeta.
  - destruct (urdf.getJoint model left0) as [lj|] eqn:Hlj; [|done].
    destruct (urdf.getJoint model right0) as [rj|] eqn:Hrj; [|done].
    intros (Hs & ? & ? & ? & j & [= <-] & Hg)%lookup_radius_from_urdf_found.
    repeat split; try done. intros _. exists model, left0, right0.
    split; [done|]. split; [done|]. split; [done|]. split; intros _.
    + exists lj, rj. by rewrite Hs.
    + exists lj. done.
  - destruct (urdf.getJoint model left0) as [lj|] eqn:Hlj; [|done].
    destruct (urdf.getJoint model right0) as [rj|] eqn:Hrj; [|done].
    intros [= <-]. repeat split; try done. intros _. exists model, left0, right0.
    split; [done|]. split; [done|]. split; [done|].
    split; [|done]. intros _. exists lj, rj. done.
  - intros (Hs & ? & ? & ? & j & Hj & Hg)%lookup_radius_from_urdf_found.
    repeat split; try done. intros _. exists model, left0, right0.
    split; [done|]. split; [done|]. split; [done|]. split; [done|].
    intros _. exists j. done.
Qed.

Lemma set_odom_params_from_urdf_no_description p w left_ref right_ref lookup_sep lookup_rad :
  lookup_sep || lookup_rad = true →
  Param.robot_description p = None →
  set_odom_params_from_urdf p w left_ref right_ref lookup_sep lookup_rad = Returns (false, w).
Proof. intros H Hd. unfold set_odom_params_from_urdf. by rewrite H, Hd. Qed.

Lemma set_odom_params_from_urdf_fails p w :
  lookup_fails p →
  ∃ w1,
    set_odom_params_from_urdf p w (Param.left_wheel_names p !! 0%nat)
      (Param.right_wheel_names p !! 0%nat) (Param.wheel_separation p =? 0)%float
      (Param.wheel_radius p =? 0)%float = Returns (false, w1).
Proof.
  intros [Hmissing [Hnone|(model & left0 & right0 & Hd & Hl & Hr & Hcase)]].
  - exists w. by apply set_odom_params_from_urdf_no_description.
  - unfold set_odom_params_from_urdf. rewrite Hmissing, Hd, Hl, Hr. cbn [negb]. run.
    destruct Hcase as [[-> Hjoint]|(-> & Hright & lj & l & Hlj & Hlink & Hcyl & Hsph)].
    + destruct Hjoint as [-> | ->]; [by eexists|].
      destruct (urdf.getJoint model left0); by eexists.
    + assert (lookup_radius_from_urdf model (Some lj)
                = λ w0, Returns (false, w0)) as Hradius.
      { unfold lookup_radius_from_urdf, urdf_util.get_wheel_radius. run.
        by rewrite Hlink, Hcyl, Hsph. }
      rewrite Hlj.
      destruct (Param.wheel_separation p =? 0)%float.
      * destruct (Hright eq_refl) as [rj ->]. rewrite Hradius. by eexists.
      * rewrite Hradius. by eexists.
Qed.

(** * Further properties of the controller *)

(** ** Handle registration *)

Lemma joints_registered_cons hw n ns :
  joints_registered hw (n :: ns) = true ↔
  is_Some (joint_states hw !! n) ∧ is_Some (joint_commands hw !! n)
  ∧ joints_registered hw ns = true.
Proof.
  unfold joints_registered. simpl.
  rewrite !andb_true_iff, !bool_decide_eq_true. tauto.
Qed.

(** The registration loop succeeds exactly when the hardware holds both
    handles of every name, and then fills the slots from [index] on with
    the handles of these names. *)
Lemma register_handles_spec hw names index regs :
  (index + length names ≤ length regs)%nat →
  (joints_registered hw names = true →
   register_handles hw names index regs
   = (SUCCESS, take index regs ++ (named_handle <$> names)
               ++ drop (index + length names) regs))
  ∧ (joints_registered hw names = false →
     ∃ regs', register_handles hw names index regs = (FAILURE, regs')
              ∧ length regs' = length regs).
Proof.
  revert index regs. induction names as [|n ns IH]; intros index regs Hlen.
  - split; [|done]. intros _. simpl. by rewrite Nat.add_0_r, take_drop.
  - simpl in Hlen. cbn [register_handles].
    unfold get_joint_state_handle, get_joint_command_handle.
    destruct (IH (S index) (<[index := named_handle n]> regs)) as [IHs IHf];
      [rewrite length_insert; lia|].
    split.
    + intros (Hs & Hc & Hns)%joints_registered_cons.
      destruct Hs as [s ->], Hc as [x ->]. fold (named_handle n).
      rewrite (IHs Hns). cbn [fmap list_fmap length].
      replace (index + S (length ns))%nat with (S index + length ns)%nat by lia.
      rewrite (take_S_r _ _ (named_handle n)) by (apply list_lookup_insert_eq; lia).
      rewrite take_insert_ge by lia.
      rewrite drop_insert_lt by lia.
      by rewrite <- app_assoc.
    + intros Hf.
      destruct (joint_states hw !! n) as [s|] eqn:Hs; [|by eexists].
      destruct (joint_commands hw !! n) as [x|] eqn:Hc.
      * fold (named_handle n).
        destruct IHf as (regs' & -> & Hl).
        { destruct (joints_registered hw ns) eqn:Hns; [|done].
          rewrite <- Hf. symmetry. apply joints_registered_cons. rewrite Hs, Hc. eauto. }
        exists regs'. split; [done|]. by rewrite Hl, length_insert.
      * eexists. split; [done|]. by rewrite length_insert.
Qed.

Lemma modes_registered_cons hw n ns :
  modes_registered hw (n :: ns) = true ↔
  is_Some (operation_modes hw !! n) ∧ modes_registered hw ns = true.
Proof.
  unfold modes_registered. simpl. rewrite !andb_true_iff, !bool_decide_eq_true. tauto.
Qed.

Lemma register_operation_modes_spec hw names index handles :
  (index + length names ≤ length handles)%nat →
  (modes_registered hw names = true →
   register_operation_modes hw names index handles
   = (true, take index handles ++ (Some <$> names)
            ++ drop (index + length names) handles))
  ∧ (modes_registered hw names = false →
     ∃ handles', register_operation_modes hw names index handles = (false, handles')).
Proof.
  revert index handles. induction names as [|n ns IH]; intros index handles Hlen.
  - split; [|done]. intros _. simpl. by rewrite Nat.add_0_r, take_drop.
  - simpl in Hlen. cbn [register_operation_modes]. unfold get_operation_mode_handle.
    destruct (IH (S index) (<[index := Some n]> handles)) as [IHs IHf];
      [rewrite length_insert; lia|].
    split.
    + intros ([x ->] & Hns)%modes_registered_cons.
      rewrite (IHs Hns). cbn [fmap list_fmap length].
      replace (index + S (length ns))%nat with (S index + length ns)%nat by lia.
      rewrite (take_S_r _ _ (Some n)) by (apply list_lookup_insert_eq; lia).
      rewrite take_insert_ge by lia.
      rewrite drop_insert_lt by lia.
      by rewrite <- app_assoc.
    + intros Hf.
      destruct (operation_modes hw !! n) as [x|] eqn:Hx; [|by eexists].
      apply IHf. destruct (modes_registered hw ns) eqn:Hns; [|done].
      rewrite <- Hf. symmetry. apply modes_registered_cons. rewrite Hx. eauto.
Qed.

Lemma resize_nil {A} n (d : A) : resize n d [] = replicate n d.
Proof. unfold resize. by rewrite take_nil, Nat.sub_0_r. Qed.

Lemma take_drop_replicate_all {A B} (f : A → B) (l : list A) (d : B) :
  take 0 (replicate (length l) d) ++ (f <$> l)
    ++ drop (0 + length l) (replicate (length l) d) = f <$> l.
Proof. rewrite drop_ge by (rewrite length_replicate; lia). simpl. apply app_nil_r. Qed.

(** [configure_side] on an empty handle vector: the three exits. *)
Lemma configure_side_spec side names hw :
  configure_side side names [] hw
  = match names with
    | [] => (ERROR, [], [no_names_error side])
    | _ =>
        if joints_registered hw names
        then (SUCCESS, named_handle <$> names, [])
        else (FAILURE,
              (register_handles hw names 0
                 (replicate (length names) WheelHandle_default)).2, [])
    end.
Proof.
  destruct names as [|n ns]; [done|].
  unfold configure_side. rewrite resize_nil.
  destruct (register_handles_spec hw (n :: ns) 0
              (replicate (length (n :: ns)) WheelHandle_default)) as [Hs Hf];
    [rewrite length_replicate; lia|].
  destruct (joints_registered hw (n :: ns)) eqn:Hreg.
  - rewrite (Hs eq_refl), take_drop_replicate_all. done.
  - destruct (Hf eq_refl) as (regs' & -> & _). done.
Qed.

Lemma register_handles_failure_null hw names index regs :
  (index + length names ≤ length regs)%nat →
  (∀ i h, (index ≤ i)%nat → regs !! i = Some h → command h = None) →
  joints_registered hw names = false →
  ∃ h, h ∈ (register_handles hw names index regs).2 ∧ command h = None.
Proof.
  revert index regs. induction names as [|n ns IH]; intros index regs Hlen Hnull Hf; [done|].
  simpl in Hlen. cbn [register_handles].
  unfold get_joint_state_handle, get_joint_command_handle.
  destruct (lookup_lt_is_Some_2 regs index) as [h0 Hh0]; [lia|].
  destruct (joint_states hw !! n) as [s|] eqn:Hs.
  2: { exists h0. split; [by eapply list_elem_of_lookup_2|]. by apply (Hnull index). }
  destruct (joint_commands hw !! n) as [x|] eqn:Hc.
  - apply IH.
    + rewrite length_insert. lia.
    + intros i h Hi. rewrite list_lookup_insert_ne by lia. apply Hnull. lia.
    + destruct (joints_registered hw ns) eqn:Hns; [|done].
      rewrite <- Hf. symmetry. apply joints_registered_cons. rewrite Hs, Hc. eauto.
  - rewrite Hh0. simpl. eexists. split.
    + eapply list_elem_of_lookup_2. apply list_lookup_insert_eq. by eapply lookup_lt_Some.
    + simpl. by apply (Hnull index).
Qed.

Lemma configure_side_failure_null side names hw :
  joints_registered hw names = false →
  ∃ handles, configure_side side names [] hw = (FAILURE, handles, [])
             ∧ length handles = length names
             ∧ ∃ h, h ∈ handles ∧ command h = None.
Proof.
  intros Hf. rewrite configure_side_spec, Hf.
  destruct names as [|n ns]; [done|].
  eexists. split; [reflexivity|].
  destruct (register_handles_spec hw (n :: ns) 0
              (replicate (length (n :: ns)) WheelHandle_default)) as [_ Hfail];
    [rewrite length_replicate; lia|].
  destruct (Hfail Hf) as (regs' & Hreg & Hlen). rewrite Hreg. simpl.
  split; [by rewrite Hlen, length_replicate|].
  pose proof (register_handles_failure_null hw (n :: ns) 0
                (replicate (length (n :: ns)) WheelHandle_default)) as Hnull.
  rewrite Hreg in Hnull. apply Hnull; [rewrite length_replicate; lia| |done].
  by intros i h _ [-> _]%lookup_replicate.
Qed.

(** X1.  [configure_side] on a handle vector [reset] has cleared: with no
    name it logs the error and returns [ERROR], leaving the vector empty;
    else the vector gets one slot for each name, and the result is [SUCCESS]
    with the handles of the names, in order, when the hardware holds both
    handles of every name, and [FAILURE] with a null command pointer left in
    some slot when it does not. *)
Theorem configure_side_on_cleared_handles side names hw :
  match names with
  | [] => configure_side side names [] hw = (ERROR, [], [no_names_error side])
  | _ =>
      ∃ handles,
        configure_side side names [] hw
        = (if joints_registered hw names then SUCCESS else FAILURE, handles, [])
        ∧ length handles = length names
        ∧ if joints_registered hw names
          then handles = named_handle <$> names
          else ∃ h, h ∈ handles ∧ command h = None
  end.
Proof.
  destruct names as [|n ns]; [done|].
  destruct (joints_registered hw (n :: ns)) eqn:Hreg.
  - rewrite configure_side_spec, Hreg. eexists. split; [reflexivity|].
    by rewrite length_fmap.
  - destruct (configure_side_failure_null side (n :: ns) hw Hreg)
      as (handles & -> & Hlen & Hnull). by exists handles.
Qed.

Lemma named_handles_resolved hw names :
  joints_registered hw names = true →
  forallb (wheel_resolved hw) (named_handle <$> names) = true.
Proof.
  induction names as [|n ns IH]; [done|].
  intros (Hs & Hc & Hns)%joints_registered_cons. cbn [fmap list_fmap forallb].
  rewrite IH by done. unfold wheel_resolved, named_handle. simpl.
  by rewrite !bool_decide_eq_true_2.
Qed.

Lemma named_modes_resolved hw names :
  modes_registered hw names = true →
  forallb (mode_resolved hw) (Some <$> names) = true.
Proof.
  induction names as [|n ns IH]; [done|].
  intros (Hm & Hns)%modes_registered_cons. cbn [fmap list_fmap forallb].
  rewrite IH by done. simpl. by rewrite bool_decide_eq_true_2.
Qed.

Lemma configure_handles_registrable c hw env :
  registered_left_wheel_handles_ c = [] →
  registered_right_wheel_handles_ c = [] →
  registered_operation_mode_handles_ c = [] →
  registrable c hw env →
  configure_handles c hw env
  = Returns (SUCCESS, configured_from c env,
             apply_events (mode_commands (Some <$> write_op_names_ c) INACTIVE) hw,
             mode_commands (Some <$> write_op_names_ c) INACTIVE).
Proof.
  intros HL HR HM (Hne & Hlen & Halive & Hjl & Hjr & Hops & Hm).
  unfold configure_handles. rewrite HL, HR, HM, Halive.
  rewrite bool_decide_eq_true_2 by done. cbn [negb].
  rewrite !configure_side_spec, Hjl, Hjr.
  destruct (left_wheel_names_ c) as [|ln lns] eqn:El; [done|].
  destruct (right_wheel_names_ c) as [|rn rns] eqn:Er; [done|].
  rewrite resize_nil.
  destruct (register_operation_modes_spec hw (write_op_names_ c) 0
              (replicate (length (write_op_names_ c)) None)) as [Hs _];
    [rewrite length_replicate; lia|].
  rewrite (Hs Hm), take_drop_replicate_all. cbn [negb].
  destruct (write_op_names_ c) as [|on ons] eqn:Eo; [done|].
  cbn [fmap list_fmap]. unfold set_op_mode.
  change (registered_operation_mode_handles_ (with_publishers _ _))
    with (Some on :: (Some <$> ons)).
  rewrite set_op_mode_handles_valid by (apply (named_modes_resolved hw (on :: ons)), Hm).
  run. unfold configured_from. by rewrite El, Er, Eo.
Qed.

Lemma configure_handles_success c hw env c' hw' evs :
  registered_left_wheel_handles_ c = [] →
  registered_right_wheel_handles_ c = [] →
  registered_operation_mode_handles_ c = [] →
  configure_handles c hw env = Returns (SUCCESS, c', hw', evs) →
  registrable c hw env.
Proof.
  intros HL HR HM. unfold registrable, configure_handles. rewrite HL, HR, HM.
  destruct (bool_decide _) eqn:Hlen; [|done]. apply bool_decide_eq_true in Hlen.
  destruct (robot_hardware_alive env) eqn:Halive; [|done]. cbn [negb].
  rewrite !configure_side_spec, resize_nil.
  destruct (register_operation_modes_spec hw (write_op_names_ c) 0
              (replicate (length (write_op_names_ c)) None)) as [Hs Hf];
    [rewrite length_replicate; lia|].
  destruct (left_wheel_names_ c) as [|ln lns] eqn:El.
  { destruct (right_wheel_names_ c); [|done].
    destruct (register_operation_modes _ _ _ _) as [[] ?]; simpl; intros [=]. }
  destruct (right_wheel_names_ c) as [|rn rns] eqn:Er; [done|].
  destruct (joints_registered hw (ln :: lns)) eqn:Hjl,
    (joints_registered hw (rn :: rns)) eqn:Hjr; try (simpl; intros [=]; fail).
  destruct (modes_registered hw (write_op_names_ c)) eqn:Hm.
  2: { destruct (Hf eq_refl) as (h' & ->). simpl. intros [=]. }
  rewrite (Hs eq_refl), take_drop_replicate_all. cbn [negb fmap list_fmap].
  destruct (write_op_names_ c) as [|on ons] eqn:Eo; [done|].
  intros _. repeat split; done.
Qed.

(** ** on_configure: when it succeeds, and what it leaves *)

Lemma joint_states_apply_events evs hw :
  joint_states (apply_events evs hw) = joint_states hw.
Proof.
  revert hw. induction evs as [|e evs IH]; intros hw; [done|].
  cbn [apply_events foldl]. fold (apply_events evs (apply_event hw e)).
  rewrite IH. by destruct e.
Qed.

Lemma joint_commands_mode_commands ms mode hw :
  joint_commands (apply_events (mode_commands ms mode) hw) = joint_commands hw.
Proof.
  revert hw. induction ms as [|[op|] ms IH]; intros hw; [done| |apply IH].
  cbn [mode_commands flat_map app apply_events foldl].
  fold (mode_commands ms mode).
  fold (apply_events (mode_commands ms mode) (apply_event hw (SetMode op mode))).
  by rewrite IH.
Qed.

Lemma operation_modes_mode_commands names mode hw op :
  operation_modes (apply_events (mode_commands (Some <$> names) mode) hw) !! op
  = if bool_decide (op ∈ names) then Some mode else operation_modes hw !! op.
Proof.
  revert hw. induction names as [|n ns IH]; intros hw; [done|].
  cbn [fmap list_fmap mode_commands flat_map app apply_events foldl].
  fold (mode_commands (Some <$> ns) mode).
  fold (apply_events (mode_commands (Some <$> ns) mode) (apply_event hw (SetMode n mode))).
  rewrite IH. simpl.
  destruct (decide (op ∈ ns)) as [Hin|Hin].
  - rewrite !bool_decide_eq_true_2; [done| |done]. by right.
  - rewrite (bool_decide_eq_false_2 (op ∈ ns)) by done.
    destruct (decide (op = n)) as [->|Hne].
    + rewrite lookup_insert_eq, bool_decide_eq_true_2; [done|by left].
    + rewrite lookup_insert_ne by done.
      rewrite bool_decide_eq_false_2; [done|]. by intros [?|?]%elem_of_cons.
Qed.

(** A successful [on_configure] went through the registration block with
    every handle found, and its result is the controller that block
    builds. *)
Lemma on_configure_success_inv c hw env c' hw' evs :
  on_configure c hw env = Returns (SUCCESS, c', hw', evs) →
  ∃ w1 pose_diagonal twist_diagonal,
    let p := parameters env in
    let c1 := with_parameters (reset c).2 p w1 pose_diagonal twist_diagonal in
    registrable c1 hw env
    ∧ c' = configured_from c1 env
    ∧ hw' = apply_events (mode_commands (Some <$> Param.write_op_modes p) INACTIVE) hw
    ∧ evs = mode_commands (Some <$> Param.write_op_modes p) INACTIVE.
Proof.
  unfold on_configure. cbn [reset negb]. cbv zeta.
  destruct (set_odom_params_from_urdf _ _ _ _ _ _) as [[found w1]|] eqn:Hurdf;
    [|done]. run.
  destruct found; [|done]. cbn [negb].
  destruct (copy_into (Param.pose_covariance_diagonal _) _) as [pose_diagonal|] eqn:Hpose;
    [|done]. run.
  destruct (copy_into (Param.twist_covariance_diagonal _) _) as [twist_diagonal|] eqn:Htwist;
    [|done]. run.
  intros Hconf. exists w1, pose_diagonal, twist_diagonal. cbv zeta.
  pose proof (λ HL HR HM, configure_handles_success _ _ _ _ _ _ HL HR HM Hconf) as Hreg.
  specialize (Hreg eq_refl eq_refl eq_refl).
  pose proof (λ HL HR HM, configure_handles_registrable _ _ _ HL HR HM Hreg) as Heq.
  specialize (Heq eq_refl eq_refl eq_refl). rewrite Heq in Hconf.
  by injection Hconf as <- <- <-.
Qed.

Lemma on_configure_configurable c hw env :
  configurable c hw env →
  let p := parameters env in
  let w := {| wheels_per_side := wheels_per_side (wheel_params_ c);
              separation := Param.wheel_separation p;
              radius := Param.wheel_radius p;
              separation_multiplier := Param.wheel_separation_multiplier p;
              left_radius_multiplier := Param.left_wheel_radius_multiplier p;
              right_radius_multiplier := Param.right_wheel_radius_multiplier p |} in
  ∃ pose_diagonal twist_diagonal,
    on_configure c hw env
    = Returns (SUCCESS,
               configured_from (with_parameters (reset c).2 p w pose_diagonal twist_diagonal)
                 env,
               apply_events (mode_commands (Some <$> Param.write_op_modes p) INACTIVE) hw,
               mode_commands (Some <$> Param.write_op_modes p) INACTIVE).
Proof.
  intros (Hkin & Hcov & Hne & Hlen & Halive & Hjl & Hjr & Hops & Hm). cbv zeta.
  unfold kinematics_given in Hkin. apply andb_true_iff in Hkin as [Hsep Hrad].
  apply negb_true_iff in Hsep, Hrad.
  unfold covariances_fit in Hcov. apply andb_true_iff in Hcov as [Hpose Htwist].
  unfold on_configure. cbn [reset negb]. cbv zeta.
  unfold set_odom_params_from_urdf. cbn [separation radius]. rewrite Hsep, Hrad.
  cbn [orb negb]. run.
  unfold copy_into. cbn [odom_params_ pose_covariance_diagonal twist_covariance_diagonal].
  rewrite Hpose, Htwist. run.
  eexists _, _.
  rewrite configure_handles_registrable; [|done|done|done|].
  - reflexivity.
  - unfold registrable. cbn [with_parameters left_wheel_names_ right_wheel_names_
                               write_op_names_].
    done.
Qed.

(** X2.  When separation and radius are given as non-zero parameters, the
    covariance parameters fit the arrays, there are as many right wheels as
    left ones and at least one, the hardware pointer is live, the hardware
    holds the state and command handle of every named wheel, and at least
    one operation mode is named, each held by the hardware, [on_configure]
    returns [SUCCESS]: its only calls set every named operation mode to
    [INACTIVE], the kinematic parameters are the given ones,
    [wheels_per_side] is the number of left names, and every handle vector
    holds the handles of the names, in order. *)
Theorem on_configure_succeeds c hw env :
  configurable c hw env →
  let p := parameters env in
  ∃ c',
    on_configure c hw env
    = Returns (SUCCESS, c',
               apply_events (mode_commands (Some <$> Param.write_op_modes p) INACTIVE) hw,
               mode_commands (Some <$> Param.write_op_modes p) INACTIVE)
    ∧ separation (wheel_params_ c') = Param.wheel_separation p
    ∧ radius (wheel_params_ c') = Param.wheel_radius p
    ∧ wheels_per_side (wheel_params_ c') = length (Param.left_wheel_names p)
    ∧ registered_left_wheel_handles_ c' = named_handle <$> Param.left_wheel_names p
    ∧ registered_right_wheel_handles_ c' = named_handle <$> Param.right_wheel_names p
    ∧ registered_operation_mode_handles_ c' = Some <$> Param.write_op_modes p.
Proof.
  intros H. destruct (on_configure_configurable _ _ _ H) as (pd & td & ->). cbv zeta.
  eexists. split; [reflexivity|]. cbn. by rewrite length_fmap.
Qed.

Lemma on_configure_succeeds_witness :
  ∃ c',
    on_configure TwoWheels.unconfigured TwoWheels.hardware
      (TwoWheels.configuration (TwoWheels.params ["left_wheel"] ["right_wheel"] 0.5 1 None))
    = Returns (SUCCESS, c',
               apply_events [SetMode "op" INACTIVE] TwoWheels.hardware,
               [SetMode "op" INACTIVE])
    ∧ separation (wheel_params_ c') = 0.5%float
    ∧ radius (wheel_params_ c') = 0.1%float
    ∧ wheels_per_side (wheel_params_ c') = 1%nat
    ∧ registered_left_wheel_handles_ c' = [named_handle "left_wheel"]
    ∧ registered_right_wheel_handles_ c' = [named_handle "right_wheel"]
    ∧ registered_operation_mode_handles_ c' = [Some "op"].
Proof.
  apply (on_configure_succeeds TwoWheels.unconfigured TwoWheels.hardware
           (TwoWheels.configuration
              (TwoWheels.params ["left_wheel"] ["right_wheel"] 0.5 1 None))).
  repeat split; try (vm_compute; reflexivity); discriminate.
Defined.

(** X3.  [on_configure] returns [SUCCESS] only if the left names are
    not empty, the right names are as many, the hardware pointer is live, the
    hardware holds both handles of every named wheel, at least one operation
    mode is named, and the hardware holds each. *)
Theorem on_configure_success_requires c hw env c' hw' evs :
  on_configure c hw env = Returns (SUCCESS, c', hw', evs) →
  let p := parameters env in
  Param.left_wheel_names p ≠ []
  ∧ length (Param.right_wheel_names p) = length (Param.left_wheel_names p)
  ∧ robot_hardware_alive env = true
  ∧ joints_registered hw (Param.left_wheel_names p) = true
  ∧ joints_registered hw (Param.right_wheel_names p) = true
  ∧ Param.write_op_modes p ≠ []
  ∧ modes_registered hw (Param.write_op_modes p) = true.
Proof.
  intros H. destruct (on_configure_success_inv _ _ _ _ _ _ H)
    as (w1 & pd & td & (Hne & Hlen & Halive & Hjl & Hjr & Hops & Hm) & _).
  cbv zeta. cbn in Hne, Hlen, Hjl, Hjr, Hops, Hm. done.
Qed.

Lemma on_configure_success_requires_witness :
  let p := TwoWheels.params ["left_wheel"] ["right_wheel"] 0.5 1 None in
  Param.left_wheel_names p ≠ []
  ∧ length (Param.right_wheel_names p) = length (Param.left_wheel_names p)
  ∧ robot_hardware_alive (TwoWheels.configuration p) = true
  ∧ joints_registered TwoWheels.hardware (Param.left_wheel_names p) = true
  ∧ joints_registered TwoWheels.hardware (Param.right_wheel_names p) = true
  ∧ Param.write_op_modes p ≠ []
  ∧ modes_registered TwoWheels.hardware (Param.write_op_modes p) = true.
Proof.
  eapply (on_configure_success_requires TwoWheels.unconfigured TwoWheels.hardware
            (TwoWheels.configuration
               (TwoWheels.params ["left_wheel"] ["right_wheel"] 0.5 1 None))).
  vm_compute. reflexivity.
Defined.

(** X4.  Whenever [on_configure] returns [SUCCESS], the controller it
    leaves has every registered handle resolved in the hardware,
    [wheels_per_side] (at least one) of them on each side, at least one
    operation mode handle, and all publishers a cycle uses created and not
    yet activated; the subscriber is inactive, [is_halted] is clear, the
    command and the two retained commands are default-constructed, and the
    time stamp is the clock's. *)
Theorem on_configure_establishes_cycle_preconditions c hw env c' hw' evs :
  on_configure c hw env = Returns (SUCCESS, c', hw', evs) →
  handles_resolved c' hw' = true
  ∧ publishers_created c' = true
  ∧ (0 < wheels_per_side (wheel_params_ c'))%nat
  ∧ registered_operation_mode_handles_ c' ≠ []
  ∧ subscriber_is_active_ c' = false
  ∧ is_halted c' = false
  ∧ command_ c' = Commands_default
  ∧ last0_cmd_ c' = Commands_default
  ∧ last1_cmd_ c' = Commands_default
  ∧ previous_update_timestamp_ c' = clock_now env
  ∧ activated <$> odometry_publisher_ c' = Some false
  ∧ activated <$> odometry_transform_publisher_ c' = Some false.
Proof.
  intros H. destruct (on_configure_success_inv _ _ _ _ _ _ H)
    as (w1 & pd & td & (Hne & Hlen & Halive & Hjl & Hjr & Hops & Hm) & -> & -> & _).
  cbn in Hne, Hlen, Hjl, Hjr, Hops, Hm.
  split; [|split].
  - apply handles_resolved_iff. cbn. rewrite !length_fmap. split; [|by split].
    apply handles_valid_iff. cbn.
    split; [|split].
    + by apply forallb_wheel_resolved_apply_events, named_handles_resolved.
    + by apply forallb_wheel_resolved_apply_events, named_handles_resolved.
    + by apply forallb_mode_resolved_apply_events, named_modes_resolved.
  - apply publishers_created_iff. cbn.
    split; [by eexists|]. split; [by eexists|].
    split; intros ->; by eexists.
  - cbn. rewrite length_fmap.
    destruct (Param.left_wheel_names (parameters env)); [done|].
    destruct (Param.write_op_modes (parameters env)); [done|].
    simpl. repeat split; try done. lia.
Qed.

Lemma on_configure_establishes_cycle_preconditions_witness :
  let result := on_configure TwoWheels.unconfigured TwoWheels.hardware
                  (TwoWheels.configuration
                     (TwoWheels.params ["left_wheel"] ["right_wheel"] 0.5 1 None)) in
  ∃ c' hw',
    controller_after result = Some c'
    ∧ hardware_after result = Some hw'
    ∧ handles_resolved c' hw' = true
    ∧ publishers_created c' = true
    ∧ (0 < wheels_per_side (wheel_params_ c'))%nat
    ∧ registered_operation_mode_handles_ c' ≠ []
    ∧ subscriber_is_active_ c' = false
    ∧ is_halted c' = false
    ∧ command_ c' = Commands_default
    ∧ last0_cmd_ c' = Commands_default
    ∧ last1_cmd_ c' = Commands_default
    ∧ previous_update_timestamp_ c' = 0
    ∧ activated <$> odometry_publisher_ c' = Some false
    ∧ activated <$> odometry_transform_publisher_ c' = Some false.
Proof.
  eexists _, _. split; [vm_compute; reflexivity|]. split; [vm_compute; reflexivity|].
  eapply (on_configure_establishes_cycle_preconditions TwoWheels.unconfigured
            TwoWheels.hardware
            (TwoWheels.configuration
               (TwoWheels.params ["left_wheel"] ["right_wheel"] 0.5 1 None))).
  vm_compute. reflexivity.
Defined.

Lemma configure_side_events side names regs hw :
  forallb (λ e, negb (is_hardware_write e)) (configure_side side names regs hw).2 = true.
Proof.
  unfold configure_side. destruct names as [|n ns]; [done|].
  by destruct (register_handles _ _ _ _).
Qed.

Lemma configure_handles_failure c hw env r c' hw' evs :
  configure_handles c hw env = Returns (r, c', hw', evs) →
  r ≠ SUCCESS →
  hw' = hw ∧ forallb (λ e, negb (is_hardware_write e)) evs = true.
Proof.
  unfold configure_handles.
  pose proof (configure_side_events "left" (left_wheel_names_ c)
                (registered_left_wheel_handles_ c) hw) as El.
  pose proof (configure_side_events "right" (right_wheel_names_ c)
                (registered_right_wheel_handles_ c) hw) as Er.
  destruct (configure_side "left" _ _ _) as [[lres lefts] evs_l].
  destruct (configure_side "right" _ _ _) as [[rres rights] evs_r].
  simpl in El, Er.
  repeat case_match; simplify_eq; intros ? Hr; simplify_eq;
    rewrite ?forallb_app, ?El, ?Er; try done.
  all: match goal with
       | H : set_op_mode ?c1 _ _ ≫= _ = Returns _ |- _ =>
           destruct (set_op_mode c1 INACTIVE hw) as [[hw1 evs_mode]|]; [|done];
             simpl in H; simplify_eq
       end.
Qed.

(** X5.  Whatever [on_configure] returns, it leaves the joint states and
    the joint commands as they were.  Unless it returns [SUCCESS] it leaves
    the whole hardware untouched and makes no hardware call; when it
    returns [SUCCESS] the operation modes named by [write_op_modes] are
    [INACTIVE] and the others are as before. *)
Theorem on_configure_hardware_effect c hw env r c' hw' evs :
  on_configure c hw env = Returns (r, c', hw', evs) →
  joint_states hw' = joint_states hw
  ∧ joint_commands hw' = joint_commands hw
  ∧ (r ≠ SUCCESS → hw' = hw ∧ forallb (λ e, negb (is_hardware_write e)) evs = true)
  ∧ (r = SUCCESS →
     ∀ op, operation_modes hw' !! op
           = if bool_decide (op ∈ Param.write_op_modes (parameters env))
             then Some INACTIVE else operation_modes hw !! op).
Proof.
  intros H. assert (r = SUCCESS ∨ r ≠ SUCCESS) as [->|Hr] by (destruct r; auto).
  - destruct (on_configure_success_inv _ _ _ _ _ _ H) as (w1 & pd & td & _ & _ & -> & _).
    rewrite joint_states_apply_events, joint_commands_mode_commands.
    split; [done|]. split; [done|]. split; [done|].
    intros _ op. apply operation_modes_mode_commands.
  - assert (hw' = hw ∧ forallb (λ e, negb (is_hardware_write e)) evs = true) as [-> Hevs].
    { revert H. unfold on_configure. cbn [reset negb]. cbv zeta.
      destruct (set_odom_params_from_urdf _ _ _ _ _ _) as [[found w1]|]; [|done]. run.
      destruct found; cbn [negb]; [|by intros [= <- <- <- <-]].
      destruct (copy_into (Param.pose_covariance_diagonal _) _) as [pd|]; [|done]. run.
      destruct (copy_into (Param.twist_covariance_diagonal _) _) as [td|]; [|done]. run.
      intros H. by apply (configure_handles_failure _ _ _ _ _ _ _ H). }
    done.
Qed.

Lemma on_configure_hardware_effect_witness :
  ∃ hw',
    hardware_after (on_configure TwoWheels.unconfigured TwoWheels.hardware
                      (TwoWheels.configuration
                         (TwoWheels.params ["left_wheel"] ["right_wheel"] 0.5 1 None)))
    = Some hw'
    ∧ joint_states hw' = joint_states TwoWheels.hardware
    ∧ joint_commands hw' = joint_commands TwoWheels.hardware
    ∧ operation_modes hw' !! "op" = Some INACTIVE.
Proof.
  eexists. split; [vm_compute; reflexivity|].
  eassert (on_configure TwoWheels.unconfigured TwoWheels.hardware
             (TwoWheels.configuration
                (TwoWheels.params ["left_wheel"] ["right_wheel"] 0.5 1 None))
           = Returns (SUCCESS, _, _, _)) as Heq by (vm_compute; reflexivity).
  destruct (on_configure_hardware_effect _ _ _ _ _ _ _ Heq) as (Hs & Hc & _ & Hm).
  split; [exact Hs|]. split; [exact Hc|]. exact (Hm eq_refl "op").
Defined.

(** ** on_configure: the kinematic parameters and the wheel names *)

Lemma on_configure_parameter_block c hw env :
  let p := parameters env in
  let w := {| wheels_per_side := wheels_per_side (wheel_params_ c);
              separation := Param.wheel_separation p;
              radius := Param.wheel_radius p;
              separation_multiplier := Param.wheel_separation_multiplier p;
              left_radius_multiplier := Param.left_wheel_radius_multiplier p;
              right_radius_multiplier := Param.right_wheel_radius_multiplier p |} in
  kinematics_given p = true →
  on_configure c hw env
  = (pose_diagonal ← copy_into (Param.pose_covariance_diagonal p)
                       (pose_covariance_diagonal (odom_params_ c));
     twist_diagonal ← copy_into (Param.twist_covariance_diagonal p)
                        (twist_covariance_diagonal (odom_params_ c));
     configure_handles (with_parameters (reset c).2 p w pose_diagonal twist_diagonal) hw env).
Proof.
  cbv zeta. intros Hkin.
  unfold kinematics_given in Hkin. apply andb_true_iff in Hkin as [Hsep Hrad].
  apply negb_true_iff in Hsep, Hrad.
  unfold on_configure. cbn [reset negb]. cbv zeta.
  unfold set_odom_params_from_urdf. cbn [separation radius]. rewrite Hsep, Hrad.
  cbn [orb negb]. run. reflexivity.
Qed.

(** C4, amended.  [on_configure] checks no sign.  Whatever their values,
    a separation and a radius parameter other than 0.0 are kept as given
    and so are the multipliers, and configuration succeeds with them where
    the names and the hardware allow it.  A parameter equal to 0.0 is
    looked up in the robot description: [on_configure] returns [FAILURE],
    with the hardware untouched and no publisher created, when the
    description cannot be retrieved, when the separation is needed and the
    parsed description lacks the joint of the first left or the first right
    wheel, and when the radius is needed (the separation, if needed too,
    having been found) and the link of the first left wheel's joint is
    there but is neither a cylinder nor a sphere.  After a successful
    configure a non-zero parameter is the given one, a zero one has been
    replaced by the distance between the first two wheel joints, or by the
    collision radius of the first left wheel, and the multipliers are the
    parameters'. *)
Theorem on_configure_resolves_missing_parameters c hw env :
  let p := parameters env in
  let separation_missing := (Param.wheel_separation p =? 0)%float in
  let radius_missing := (Param.wheel_radius p =? 0)%float in
  (configurable c hw env →
   ∃ c' hw' evs,
     on_configure c hw env = Returns (SUCCESS, c', hw', evs)
     ∧ separation (wheel_params_ c') = Param.wheel_separation p
     ∧ radius (wheel_params_ c') = Param.wheel_radius p
     ∧ separation_multiplier (wheel_params_ c') = Param.wheel_separation_multiplier p
     ∧ left_radius_multiplier (wheel_params_ c') = Param.left_wheel_radius_multiplier p
     ∧ right_radius_multiplier (wheel_params_ c') = Param.right_wheel_radius_multiplier p)
  ∧ (lookup_fails p →
     ∃ c' evs,
       on_configure c hw env = Returns (FAILURE, c', hw, evs)
       ∧ publishers_created c' = false
       ∧ subscriber_is_active_ c' = false)
  ∧ (∀ c' hw' evs,
       on_configure c hw env = Returns (SUCCESS, c', hw', evs) →
       let w' := wheel_params_ c' in
       (separation_missing = false → separation w' = Param.wheel_separation p)
       ∧ (radius_missing = false → radius w' = Param.wheel_radius p)
       ∧ separation_multiplier w' = Param.wheel_separation_multiplier p
       ∧ left_radius_multiplier w' = Param.left_wheel_radius_multiplier p
       ∧ right_radius_multiplier w' = Param.right_wheel_radius_multiplier p
       ∧ (separation_missing || radius_missing = true →
          ∃ model left0 right0,
            Param.robot_description p = Some (Some model)
            ∧ Param.left_wheel_names p !! 0%nat = Some left0
            ∧ Param.right_wheel_names p !! 0%nat = Some right0
            ∧ (separation_missing = true →
               ∃ lj rj,
                 urdf.getJoint model left0 = Some lj ∧ urdf.getJoint model right0 = Some rj
                 ∧ separation w'
                   = urdf_util.euclidean_of_vectors
                       (urdf.parent_to_joint_origin_transform_position lj)
                       (urdf.parent_to_joint_origin_transform_position rj))
            ∧ (radius_missing = true →
               ∃ lj,
                 urdf.getJoint model left0 = Some lj
                 ∧ (urdf_util.collision_geometry
                      (urdf.getLink model (urdf.child_link_name lj))
                    = Some (urdf.CYLINDER (radius w'))
                    ∨ urdf_util.collision_geometry
                        (urdf.getLink model (urdf.child_link_name lj))
                      = Some (urdf.SPHERE (radius w')))))).
Proof.
  intros p separation_missing radius_missing. split; [|split].
  - intros Hconf.
    destruct (on_configure_configurable c hw env Hconf) as (pd & td & ->).
    eexists _, _, _. split; [reflexivity|]. done.
  - intros Hfails.
    destruct (set_odom_params_from_urdf_fails p
                {| wheels_per_side := wheels_per_side (wheel_params_ c);
                   separation := Param.wheel_separation p;
                   radius := Param.wheel_radius p;
                   separation_multiplier := Param.wheel_separation_multiplier p;
                   left_radius_multiplier := Param.left_wheel_radius_multiplier p;
                   right_radius_multiplier := Param.right_wheel_radius_multiplier p |}
                Hfails) as [w1 Hurdf].
    unfold on_configure. cbn [reset negb]. cbv zeta. fold p.
    cbn [separation radius wheel_params_]. rewrite Hurdf. run. cbn [negb].
    eexists _, _. split; [reflexivity|]. done.
  - intros c' hw' evs (w1 & Hurdf & Hs & Hrad & Hsm & Hlm & Hrm)%on_configure_success w'.
    apply set_odom_params_from_urdf_found in Hurdf as (Ks & Kr & Ksm & Klm & Krm & Kd).
    subst w'. rewrite Hs, Hrad, Hsm, Hlm, Hrm.
    split; [exact Ks|]. split; [exact Kr|]. split; [exact Ksm|]. split; [exact Klm|].
    split; [exact Krm|]. intros Hmissing.
    destruct (Kd Hmissing) as (model & left0 & right0 & Hd & Hl0 & Hr0 & Ksep & Krad).
    exists model, left0, right0. done.
Qed.

(** A negative separation with negative multipliers is kept; a zero
    separation with a description that lacks the wheel joints fails. *)
Lemma on_configure_resolves_missing_parameters_witness :
  (∃ c' hw' evs,
     on_configure TwoWheels.unconfigured TwoWheels.hardware
       (TwoWheels.configuration
          (TwoWheels.params ["left_wheel"] ["right_wheel"] (-0.5) (-1) None))
     = Returns (SUCCESS, c', hw', evs)
     ∧ separation (wheel_params_ c') = (-0.5)%float
     ∧ separation_multiplier (wheel_params_ c') = (-1)%float)
  ∧ (∃ c' evs,
       on_configure TwoWheels.unconfigured TwoWheels.hardware
         (TwoWheels.configuration
            (TwoWheelsUrdf.params 0 0.1
               (Some (Some {| urdf.joints_ := ∅; urdf.links_ := ∅ |}))))
       = Returns (FAILURE, c', TwoWheels.hardware, evs)
       ∧ publishers_created c' = false).
Proof.
  split.
  - destruct (on_configure_resolves_missing_parameters TwoWheels.unconfigured
                TwoWheels.hardware
                (TwoWheels.configuration
                   (TwoWheels.params ["left_wheel"] ["right_wheel"] (-0.5) (-1) None)))
      as [Hkeep _].
    destruct Hkeep as (c' & hw' & evs & Heq & Hsep & _ & Hmul & _).
    { repeat split; try (vm_compute; reflexivity); discriminate. }
    by exists c', hw', evs.
  - destruct (on_configure_resolves_missing_parameters TwoWheels.unconfigured
                TwoWheels.hardware
                (TwoWheels.configuration
                   (TwoWheelsUrdf.params 0 0.1
                      (Some (Some {| urdf.joints_ := ∅; urdf.links_ := ∅ |})))))
      as (_ & Hfail & _).
    destruct Hfail as (c' & evs & Heq & Hpub & _).
    { split; [reflexivity|]. right.
      exists {| urdf.joints_ := ∅; urdf.links_ := ∅ |}, "left_wheel", "right_wheel".
      split; [reflexivity|]. split; [reflexivity|]. split; [reflexivity|].
      left. split; [reflexivity|]. by left. }
    by exists c', evs.
Defined.

(** C4 as stated fails: a separation of -0.5 m is accepted and
    configuration succeeds with a negative effective separation. *)
Lemma on_configure_accepts_negative_separation :
  let env := TwoWheels.configuration
               (TwoWheels.params ["left_wheel"] ["right_wheel"] (-0.5) 1 None) in
  let result := on_configure TwoWheels.unconfigured TwoWheels.hardware env in
  returned result = Some SUCCESS
  ∧ separation <$> (wheel_params_ <$> controller_after result) = Some (-0.5)%float
  ∧ effective_separation <$> (wheel_params_ <$> controller_after result) = Some (-0.5)%float
  ∧ (0 <? -0.5)%float = false.
Proof. repeat split; vm_compute; reflexivity. Qed.

(** C9, amended.  [on_configure] passes [left_wheel_names_[0]] and
    [right_wheel_names_[0]] on by reference before any validation of the
    lists, and the names are read only inside the URDF lookup.  With an
    empty left or right list: when separation or radius is 0.0 and the
    robot description parses, the lookup reads a name that is not there and
    the execution is undefined; when the description cannot be retrieved
    [on_configure] returns [FAILURE]; when separation and radius are both
    given (and the covariance parameters fit), [on_configure] runs on to
    the validation and returns without success and with the hardware
    untouched - [ERROR] with the size message when the lengths differ,
    and with both lists empty and a live hardware pointer the emptiness
    guard of [configure_side] fires for both sides, the result being
    [ERROR] when every operation mode is registered.  With both lists
    non-empty the emptiness guard never fires. *)
Theorem on_configure_reads_names_in_lookup_only c hw env :
  let p := parameters env in
  let some_list_empty := Param.left_wheel_names p = [] ∨ Param.right_wheel_names p = [] in
  (some_list_empty → kinematics_given p = false →
   (∃ model, Param.robot_description p = Some (Some model)) →
   on_configure c hw env = Undefined OutOfBounds)
  ∧ (some_list_empty → kinematics_given p = false → Param.robot_description p = None →
     ∃ c' evs, on_configure c hw env = Returns (FAILURE, c', hw, evs))
  ∧ (some_list_empty → kinematics_given p = true → covariances_fit c p = true →
     ∃ r c' evs,
       on_configure c hw env = Returns (r, c', hw, evs)
       ∧ r ≠ SUCCESS
       ∧ (length (Param.left_wheel_names p) ≠ length (Param.right_wheel_names p) →
          r = ERROR
          ∧ evs = [LogError
                     "The number of left wheels and the number of right wheels are different"])
       ∧ (Param.left_wheel_names p = [] → Param.right_wheel_names p = [] →
          robot_hardware_alive env = true →
          no_names_error "left" ∈ evs ∧ no_names_error "right" ∈ evs
          ∧ (modes_registered hw (Param.write_op_modes p) = true → r = ERROR)))
  ∧ (∀ r c' hw' evs,
       on_configure c hw env = Returns (r, c', hw', evs) →
       Param.left_wheel_names p ≠ [] → Param.right_wheel_names p ≠ [] →
       ∀ side, no_names_error side ∉ evs).
Proof.
  intros p some_list_empty. split; [|split; [|split]].
  - intros Hempty Hkin [model Hd].
    unfold kinematics_given in Hkin.
    assert ((Param.wheel_separation p =? 0)%float || (Param.wheel_radius p =? 0)%float = true)
      as Hmissing.
    { destruct (Param.wheel_separation p =? 0)%float; [done|].
      by destruct (Param.wheel_radius p =? 0)%float. }
    unfold on_configure. cbn [reset negb]. cbv zeta. fold p.
    unfold set_odom_params_from_urdf. cbn [separation radius]. rewrite Hmissing, Hd.
    cbn [negb]. run.
    destruct Hempty as [-> | ->]; [done|].
    by destruct (Param.left_wheel_names p).
  - intros _ Hkin Hd.
    unfold kinematics_given in Hkin.
    assert ((Param.wheel_separation p =? 0)%float || (Param.wheel_radius p =? 0)%float = true)
      as Hmissing.
    { destruct (Param.wheel_separation p =? 0)%float; [done|].
      by destruct (Param.wheel_radius p =? 0)%float. }
    unfold on_configure. cbn [reset negb]. cbv zeta. fold p.
    cbn [separation radius].
    rewrite set_odom_params_from_urdf_no_description by done. run. cbn [negb].
    by eexists _, _.
  - intros Hempty Hkin Hcov.
    rewrite on_configure_parameter_block by done. fold p.
    unfold covariances_fit in Hcov. apply andb_true_iff in Hcov as [Hpose Htwist].
    unfold copy_into. fold p in Hpose, Htwist. rewrite Hpose, Htwist. run.
    unfold configure_handles.
    cbn [with_parameters reset snd left_wheel_names_ right_wheel_names_ write_op_names_
           registered_left_wheel_handles_ registered_right_wheel_handles_
           registered_operation_mode_handles_].
    destruct (decide (length (Param.left_wheel_names p) = length (Param.right_wheel_names p)))
      as [Hlen|Hlen].
    + assert (Param.left_wheel_names p = [] ∧ Param.right_wheel_names p = []) as [Hl Hr].
      { destruct Hempty as [H|H]; rewrite H in Hlen; simpl in Hlen.
        - split; [done|]. symmetry in Hlen. by apply nil_length_inv in Hlen.
        - split; [|done]. by apply nil_length_inv in Hlen. }
      rewrite Hl, Hr. cbn [length bool_decide negb]. rewrite bool_decide_eq_true_2 by done.
      cbn [negb].
      destruct (robot_hardware_alive env); cbn [negb].
      * rewrite !configure_side_spec. rewrite resize_nil.
        destruct (register_operation_modes_spec hw (Param.write_op_modes p) 0
                    (replicate (length (Param.write_op_modes p)) None)) as [Hs Hf];
          [rewrite length_replicate; lia|].
        destruct (modes_registered hw (Param.write_op_modes p)) eqn:Hm.
        -- rewrite (Hs eq_refl). cbn [negb].
           eexists ERROR, _, _. split; [reflexivity|]. split; [done|]. split; [done|].
           intros _ _ _. split; [by left|]. split; [by right; left|]. done.
        -- destruct (Hf eq_refl) as [handles' ->]. cbn [negb].
           eexists FAILURE, _, _. split; [reflexivity|]. split; [done|]. split; [done|].
           intros _ _ _. split; [by left|]. split; [by right; left|]. done.
      * eexists ERROR, _, _. split; [reflexivity|]. split; [done|]. split; [done|]. done.
    + rewrite bool_decide_eq_false_2 by done. cbn [negb].
      eexists ERROR, _, _. split; [reflexivity|]. split; [done|]. split; [done|].
      intros Hl Hr. by rewrite Hl, Hr in Hlen.
  - intros r c' hw' evs Hconf Hl Hr side. revert Hconf.
    unfold on_configure. cbn [reset negb]. cbv zeta. fold p.
    destruct (set_odom_params_from_urdf _ _ _ _ _ _) as [[found w1]|]; [|done]. run.
    destruct found; cbn [negb].
    + destruct (copy_into (Param.pose_covariance_diagonal _) _) as [pose_diagonal|];
        [|done]. run.
      destruct (copy_into (Param.twist_covariance_diagonal _) _) as [twist_diagonal|];
        [|done]. run.
      by apply (configure_handles_no_names_error _ _ _ _ _ _ _ side).
    + intros [= _ _ _ <-]. rewrite list_elem_of_singleton. intros [=].
Qed.

(** Without any wheel name and with separation and radius given,
    [on_configure] reaches the guard of [configure_side] and reports both
    sides. *)
Lemma on_configure_reads_names_in_lookup_only_witness :
  ∃ r c' evs,
    on_configure TwoWheels.unconfigured TwoWheels.hardware
      (TwoWheels.configuration (TwoWheels.params [] [] 0.5 1 None))
    = Returns (r, c', TwoWheels.hardware, evs)
    ∧ r = ERROR
    ∧ no_names_error "left" ∈ evs ∧ no_names_error "right" ∈ evs.
Proof.
  destruct (on_configure_reads_names_in_lookup_only TwoWheels.unconfigured TwoWheels.hardware
              (TwoWheels.configuration (TwoWheels.params [] [] 0.5 1 None)))
    as (_ & _ & Hgiven & _).
  destruct Hgiven as (r & c' & evs & Heq & _ & _ & Hguard);
    [by left | vm_compute; reflexivity | vm_compute; reflexivity |].
  destruct Hguard as (Hleft & Hright & Hr);
    [reflexivity | reflexivity | reflexivity |].
  exists r, c', evs. split; [exact Heq|]. split; [|done].
  apply Hr. vm_compute. reflexivity.
Defined.

(** C9 as stated fails: with no wheel name at all and separation and
    radius given, [on_configure] gets past [left_wheel_names_[0]] and
    returns [ERROR] with the hardware untouched, after the guard of
    [configure_side] has logged the missing names of both sides. *)
Lemma on_configure_empty_names_reach_guard :
  let env := TwoWheels.configuration (TwoWheels.params [] [] 0.5 1 None) in
  let result := on_configure TwoWheels.unconfigured TwoWheels.hardware env in
  returned result = Some ERROR
  ∧ hardware_after result = Some TwoWheels.hardware
  ∧ calls_of result
    = [LogError "No left wheel names specified.";
       LogError "No right wheel names specified.";
       LogError "Either left wheel handles, right wheel handles, or operation modes are non existant"].
Proof. repeat split; vm_compute; reflexivity. Qed.

(** ** on_configure: the exits that leave undefined behaviour behind *)

(** X6.  With both name lists non-empty and separation and radius given,
    a [pose_covariance_diagonal] or [twist_covariance_diagonal] parameter
    with more entries than the controller's array makes [std::copy] write
    past the end of the array: [on_configure] is undefined. *)
Theorem on_configure_covariance_overrun c hw env :
  let p := parameters env in
  Param.left_wheel_names p ≠ [] →
  Param.right_wheel_names p ≠ [] →
  kinematics_given p = true →
  covariances_fit c p = false →
  on_configure c hw env = Undefined OutOfBounds.
Proof.
  cbv zeta. intros Hl Hr Hkin Hcov.
  rewrite on_configure_parameter_block by done.
  unfold covariances_fit in Hcov. unfold copy_into.
  destruct (bool_decide (length (Param.pose_covariance_diagonal _) ≤ _)%nat); [|done].
  simpl in Hcov. by rewrite Hcov.
Qed.

Lemma on_configure_covariance_overrun_witness :
  on_configure TwoWheels.unconfigured TwoWheels.hardware
    (TwoWheels.configuration
       (TwoWheelsUrdf.with_pose_covariance
          (TwoWheels.params ["left_wheel"] ["right_wheel"] 0.5 1 None)
          (replicate 7 0.001%float)))
  = Undefined OutOfBounds.
Proof.
  apply (on_configure_covariance_overrun TwoWheels.unconfigured TwoWheels.hardware
           (TwoWheels.configuration
              (TwoWheelsUrdf.with_pose_covariance
                 (TwoWheels.params ["left_wheel"] ["right_wheel"] 0.5 1 None)
                 (replicate 7 0.001%float))));
    try discriminate; vm_compute; reflexivity.
Defined.

Lemma halt_wheels_null hs hw h :
  h ∈ hs → command h = None → ∃ f, halt_wheels hs hw = Undefined f.
Proof.
  revert hw. induction hs as [|h0 hs IH]; intros hw Hin Hc; [by apply elem_of_nil in Hin|].
  cbn [halt_wheels]. destruct (command h0) as [j|] eqn:Hj; [|by eexists]. run.
  destruct (set_cmd j 0 hw) as [hw1|]; [|by eexists]. run.
  apply elem_of_cons in Hin as [->|Hin]; [congruence|].
  destruct (IH hw1 Hin Hc) as [f ->]. by eexists.
Qed.

Lemma halt_null c hw h :
  h ∈ registered_left_wheel_handles_ c ++ registered_right_wheel_handles_ c →
  command h = None → ∃ f, halt c hw = Undefined f.
Proof.
  intros Hin Hc. unfold halt. apply elem_of_app in Hin as [Hin|Hin].
  - destruct (halt_wheels_null _ hw _ Hin Hc) as [f ->]. by eexists.
  - destruct (halt_wheels (registered_left_wheel_handles_ c) hw) as [[hw1 evs1]|];
      [|by eexists]. run.
    destruct (halt_wheels_null _ hw1 _ Hin Hc) as [f ->]. by eexists.
Qed.

Lemma null_handle_undefined c h :
  h ∈ registered_left_wheel_handles_ c ++ registered_right_wheel_handles_ c →
  command h = None →
  (∀ hw, ∃ f, halt c hw = Undefined f)
  ∧ (∀ hw, ∃ f, on_cleanup c hw = Undefined f)
  ∧ (∀ hw, ∃ f, on_shutdown c hw = Undefined f)
  ∧ (lifecycle_state c ≠ PRIMARY_STATE_ACTIVE → is_halted c = false →
     ∀ hw env, ∃ f, update c hw env = Undefined f).
Proof.
  intros Hin Hc.
  assert (∀ hw, ∃ f, halt c hw = Undefined f) as Hhalt
    by (intros hw; by apply (halt_null _ hw h)).
  split; [done|]. split; [|split].
  - intros hw. destruct (Hhalt hw) as [f Hf]. exists f. unfold on_cleanup. by rewrite Hf.
  - intros hw. destruct (Hhalt hw) as [f Hf]. exists f. unfold on_shutdown. by rewrite Hf.
  - intros Hst Hh hw env. destruct (Hhalt hw) as [f Hf]. exists f. unfold update.
    rewrite bool_decide_eq_false_2 by done. rewrite Hh. cbn [negb]. by rewrite Hf.
Qed.

(** X7.  When the parameter block goes through but the hardware lacks
    a handle of some named wheel, [on_configure] returns [FAILURE] without
    touching the hardware, and leaves the handle vectors resized with a null
    command pointer in one of them: [halt], [on_cleanup] and [on_shutdown]
    on the controller it leaves are undefined on any hardware, and so is
    [update] outside the active state. *)
Theorem on_configure_unregistered_wheel_leaves_null_handles c hw env :
  let p := parameters env in
  kinematics_given p = true →
  covariances_fit c p = true →
  Param.left_wheel_names p ≠ [] →
  length (Param.right_wheel_names p) = length (Param.left_wheel_names p) →
  robot_hardware_alive env = true →
  joints_registered hw (Param.left_wheel_names p)
    && joints_registered hw (Param.right_wheel_names p) = false →
  ∃ c',
    on_configure c hw env = Returns (FAILURE, c', hw, [])
    ∧ (∃ h, h ∈ registered_left_wheel_handles_ c' ++ registered_right_wheel_handles_ c'
            ∧ command h = None)
    ∧ (∀ hw2, ∃ f, halt c' hw2 = Undefined f)
    ∧ (∀ hw2, ∃ f, on_cleanup c' hw2 = Undefined f)
    ∧ (∀ hw2, ∃ f, on_shutdown c' hw2 = Undefined f)
    ∧ (lifecycle_state c ≠ PRIMARY_STATE_ACTIVE →
       ∀ hw2 env2, ∃ f, update c' hw2 env2 = Undefined f).
Proof.
  cbv zeta. intros Hkin Hcov Hne Hlen Halive Hreg.
  assert (Param.right_wheel_names (parameters env) ≠ []) as Hner.
  { destruct (Param.left_wheel_names (parameters env)); [done|].
    by destruct (Param.right_wheel_names (parameters env)). }
  rewrite on_configure_parameter_block by done.
  unfold covariances_fit in Hcov. apply andb_true_iff in Hcov as [Hpose Htwist].
  unfold copy_into. rewrite Hpose, Htwist. run.
  unfold configure_handles.
  cbn [with_parameters left_wheel_names_ right_wheel_names_ write_op_names_ reset snd
       registered_left_wheel_handles_ registered_right_wheel_handles_
       registered_operation_mode_handles_].
  rewrite bool_decide_eq_true_2 by done. rewrite Halive. cbn [negb].
  assert (∃ lres lefts rres rights,
            configure_side "left" (Param.left_wheel_names (parameters env)) [] hw
            = (lres, lefts, [])
            ∧ configure_side "right" (Param.right_wheel_names (parameters env)) [] hw
              = (rres, rights, [])
            ∧ (lres = FAILURE ∨ rres = FAILURE)
            ∧ ∃ h, h ∈ lefts ++ rights ∧ command h = None)
    as (lres & lefts & rres & rights & -> & -> & Hres & Hnull).
  { destruct (joints_registered hw (Param.left_wheel_names (parameters env))) eqn:Hjl.
    - simpl in Hreg.
      destruct (configure_side_failure_null "right" _ hw Hreg)
        as (rights & -> & _ & h & Hin & Hc).
      rewrite configure_side_spec, Hjl.
      destruct (Param.left_wheel_names (parameters env)); [done|].
      eexists _, _, _, _. split; [reflexivity|]. split; [reflexivity|].
      split; [by right|]. exists h. split; [|done]. apply elem_of_app. by right.
    - destruct (configure_side_failure_null "left" _ hw Hjl)
        as (lefts & -> & _ & h & Hin & Hc).
      destruct (configure_side "right" _ _ _) as [[rres rights] evs_r] eqn:Hside.
      pose proof (configure_side_spec "right"
                    (Param.right_wheel_names (parameters env)) hw) as Hspec.
      rewrite Hside in Hspec.
      destruct (Param.right_wheel_names (parameters env)) as [|rn rns]; [done|].
      assert (evs_r = []) as ->.
      { cbv beta iota in Hspec. destruct (joints_registered hw (rn :: rns)); by simplify_eq. }
      eexists _, _, _, _. split; [reflexivity|]. split; [reflexivity|].
      split; [by left|]. exists h. split; [|done]. apply elem_of_app. by left. }
  eexists. split.
  { destruct Hres as [-> | ->]; [reflexivity|]. by destruct lres. }
  destruct Hnull as (h & Hin & Hc).
  match goal with
  | |- (∃ h, h ∈ registered_left_wheel_handles_ ?c1 ++ _ ∧ _) ∧ _ =>
      destruct (null_handle_undefined c1 h Hin Hc) as (Hhalt & Hcleanup & Hshutdown & Hupdate)
  end.
  split; [by exists h|]. split; [done|]. split; [done|]. split; [done|].
  intros Hst. by apply Hupdate.
Qed.

Lemma on_configure_unregistered_wheel_leaves_null_handles_witness :
  ∃ c',
    on_configure TwoWheels.unconfigured TwoWheels.hardware
      (TwoWheels.configuration (TwoWheels.params ["left_wheel"] ["rear_wheel"] 0.5 1 None))
    = Returns (FAILURE, c', TwoWheels.hardware, [])
    ∧ (∃ f, halt c' TwoWheels.hardware = Undefined f)
    ∧ (∃ f, on_shutdown c' TwoWheels.hardware = Undefined f)
    ∧ (∃ f, update c' TwoWheels.hardware (TwoWheels.cycle 10) = Undefined f).
Proof.
  destruct (on_configure_unregistered_wheel_leaves_null_handles TwoWheels.unconfigured
              TwoWheels.hardware
              (TwoWheels.configuration
                 (TwoWheels.params ["left_wheel"] ["rear_wheel"] 0.5 1 None)))
    as (c' & Heq & _ & Hhalt & _ & Hshutdown & Hupdate);
    [vm_compute; reflexivity | vm_compute; reflexivity | discriminate | reflexivity
    | reflexivity | vm_compute; reflexivity |].
  exists c'. split; [exact Heq|]. split; [apply Hhalt|]. split; [apply Hshutdown|].
  apply Hupdate. discriminate.
Defined.

(** ** The robot description *)

(** X8.  [get_wheel_radius] returns [true] with the radius exactly for a
    link whose collision geometry is a cylinder or a sphere; for a link
    without collision, without geometry, or with another geometry it returns
    [false]; on a null link the final error message reads
    [wheel_link->name], which is undefined. *)
Theorem get_wheel_radius_cases (wheel_link : option urdf.Link) :
  urdf_util.get_wheel_radius wheel_link
  = match wheel_link with
    | None => Undefined NullPointer
    | Some l =>
        Returns match urdf.collision l with
                | Some {| urdf.geometry := Some (urdf.CYLINDER r) |} => Some r
                | Some {| urdf.geometry := Some (urdf.SPHERE r) |} => Some r
                | _ => None
                end
    end.
Proof.
  destruct wheel_link as [[n [[[[r| |r|]|]]|]]|]; reflexivity.
Qed.

Lemma SFsqrt_sign x :
  match SFsqrt prec emax x with
  | S754_infinity s | S754_finite s _ _ => s = false
  | _ => True
  end.
Proof.
  destruct x as [s|[]| |[] m e]; try done. unfold SFsqrt.
  destruct (SFsqrt_core_binary prec emax (Z.pos m) e) as [[mz ez] lz].
  unfold binary_round_aux.
  destruct (shr_fexp prec emax mz ez lz) as [mrs' e'].
  destruct (shr_fexp prec emax _ e' SpecFloat.loc_Exact) as [mrs'' e''].
  destruct (shr_m mrs''); try done. by destruct (e'' <=? emax - prec).
Qed.

Lemma sqrt_not_negative x : (PrimFloat.sqrt x <? 0)%float = false.
Proof.
  rewrite ltb_spec, sqrt_spec, Prim2SF_zero.
  pose proof (SFsqrt_sign (Prim2SF x)) as H.
  unfold SF64sqrt.
  destruct (SFsqrt prec emax (Prim2SF x)) as [s|s| |s m e]; try done; by subst.
Qed.

Lemma euclidean_of_vectors_not_negative (vec1 vec2 : urdf.Vector3) :
  (urdf_util.euclidean_of_vectors vec1 vec2 <? 0)%float = false.
Proof. apply sqrt_not_negative. Qed.

(** X9.  Whenever [on_configure] returns [SUCCESS] with the
    [wheel_separation] parameter zero, the separation it has taken from the
    robot description, a Euclidean distance, is not less than zero. *)
Theorem on_configure_urdf_separation_not_negative c hw env c' hw' evs :
  on_configure c hw env = Returns (SUCCESS, c', hw', evs) →
  (Param.wheel_separation (parameters env) =? 0)%float = true →
  (separation (wheel_params_ c') <? 0)%float = false.
Proof.
  intros H Hmissing.
  destruct (on_configure_success _ _ _ _ _ _ H) as (w1 & Hurdf & -> & _).
  rewrite Hmissing in Hurdf.
  destruct (set_odom_params_from_urdf_found _ _ _ _ _ _ _ Hurdf)
    as (_ & _ & _ & _ & _ & Hlook).
  destruct (Hlook eq_refl) as (model & left0 & right0 & _ & _ & _ & Hsep & _).
  destruct (Hsep eq_refl) as (lj & rj & _ & _ & ->).
  apply euclidean_of_vectors_not_negative.
Qed.

Lemma on_configure_urdf_separation_not_negative_witness :
  let result := on_configure TwoWheels.unconfigured TwoWheels.hardware
                  (TwoWheels.configuration
                     (TwoWheelsUrdf.params 0 0.1 (Some (Some TwoWheelsUrdf.model)))) in
  ∃ c', controller_after result = Some c'
        ∧ returned result = Some SUCCESS
        ∧ separation (wheel_params_ c') = 0.5%float
        ∧ (separation (wheel_params_ c') <? 0)%float = false.
Proof.
  eexists. split; [vm_compute; reflexivity|]. split; [vm_compute; reflexivity|].
  split; [vm_compute; reflexivity|].
  eapply (on_configure_urdf_separation_not_negative TwoWheels.unconfigured
            TwoWheels.hardware
            (TwoWheels.configuration
               (TwoWheelsUrdf.params 0 0.1 (Some (Some TwoWheelsUrdf.model)))));
    vm_compute; reflexivity.
Defined.

(** X10.  When separation or radius is to be looked up and the robot
    description is retrieved but does not parse, [on_configure] calls
    [getJoint] through the null model pointer: it is undefined, not a
    [FAILURE]. *)
Theorem on_configure_unparsable_description c hw env :
  let p := parameters env in
  Param.left_wheel_names p ≠ [] →
  Param.right_wheel_names p ≠ [] →
  kinematics_given p = false →
  Param.robot_description p = Some None →
  on_configure c hw env = Undefined NullPointer.
Proof.
  cbv zeta. intros Hl Hr Hkin Hdesc.
  unfold on_configure. cbn [reset negb]. cbv zeta.
  unfold set_odom_params_from_urdf. cbn [separation radius]. rewrite Hdesc.
  unfold kinematics_given in Hkin.
  destruct (Param.wheel_separation (parameters env) =? 0)%float,
    (Param.wheel_radius (parameters env) =? 0)%float; done.
Qed.

Lemma on_configure_unparsable_description_witness :
  on_configure TwoWheels.unconfigured TwoWheels.hardware
    (TwoWheels.configuration (TwoWheelsUrdf.params 0.5 0 (Some None)))
  = Undefined NullPointer.
Proof.
  apply (on_configure_unparsable_description TwoWheels.unconfigured TwoWheels.hardware
           (TwoWheels.configuration (TwoWheelsUrdf.params 0.5 0 (Some None))));
    try discriminate; vm_compute; reflexivity.
Defined.

(** X11.  When the radius is to be looked up and the robot description
    has no joint of the first left wheel's name: if the separation is looked
    up as well, its null check makes [on_configure] return [FAILURE] with
    the hardware untouched; if the separation is given, the radius lookup
    dereferences the null joint pointer and [on_configure] is undefined. *)
Theorem on_configure_missing_left_joint c hw env model left0 :
  let p := parameters env in
  Param.left_wheel_names p !! 0%nat = Some left0 →
  Param.right_wheel_names p ≠ [] →
  (Param.wheel_radius p =? 0)%float = true →
  Param.robot_description p = Some (Some model) →
  urdf.getJoint model left0 = None →
  if (Param.wheel_separation p =? 0)%float
  then returned (on_configure c hw env) = Some FAILURE
       ∧ hardware_after (on_configure c hw env) = Some hw
  else on_configure c hw env = Undefined NullPointer.
Proof.
  cbv zeta. intros Hl Hr Hrad Hdesc Hjoint.
  unfold on_configure. cbn [reset negb]. cbv zeta. rewrite Hl.
  destruct (Param.right_wheel_names (parameters env)) as [|rn rns]; [done|].
  cbn [lookup list_lookup].
  unfold set_odom_params_from_urdf. cbn [separation radius]. rewrite Hdesc, Hrad.
  rewrite orb_true_r. cbn [negb]. run. cbv zeta. rewrite Hjoint.
  by destruct (Param.wheel_separation (parameters env) =? 0)%float.
Qed.

Lemma on_configure_missing_left_joint_witness :
  let description := Some (Some {| urdf.joints_ := ∅; urdf.links_ := ∅ |}) in
  on_configure TwoWheels.unconfigured TwoWheels.hardware
    (TwoWheels.configuration (TwoWheelsUrdf.params 0.5 0 description))
  = Undefined NullPointer
  ∧ returned (on_configure TwoWheels.unconfigured TwoWheels.hardware
                (TwoWheels.configuration (TwoWheelsUrdf.params 0 0 description)))
    = Some FAILURE.
Proof.
  split.
  - apply (on_configure_missing_left_joint TwoWheels.unconfigured TwoWheels.hardware
             (TwoWheels.configuration
                (TwoWheelsUrdf.params 0.5 0
                   (Some (Some {| urdf.joints_ := ∅; urdf.links_ := ∅ |}))))
             {| urdf.joints_ := ∅; urdf.links_ := ∅ |} "left_wheel");
      try discriminate; vm_compute; reflexivity.
  - apply (on_configure_missing_left_joint TwoWheels.unconfigured TwoWheels.hardware
             (TwoWheels.configuration
                (TwoWheelsUrdf.params 0 0
                   (Some (Some {| urdf.joints_ := ∅; urdf.links_ := ∅ |}))))
             {| urdf.joints_ := ∅; urdf.links_ := ∅ |} "left_wheel");
      try discriminate; vm_compute; reflexivity.
Defined.

(** ** Activation *)

(** X12.  On a controller whose publishers exist, [on_activate] returns
    [SUCCESS] without any call on the hardware: it clears [is_halted],
    makes the subscriber accept commands, and activates the odometry and
    transform publishers and, where enabled, the limited-velocity and
    wheel-state publishers; handles and stored command are as before. *)
Theorem on_activate_configured c hw :
  publishers_created c = true →
  ∃ c',
    on_activate c hw = Returns (SUCCESS, c', hw, [])
    ∧ is_halted c' = false
    ∧ subscriber_is_active_ c' = true
    ∧ activated <$> odometry_publisher_ c' = Some true
    ∧ activated <$> odometry_transform_publisher_ c' = Some true
    ∧ (publish_limited_velocity_ c = true →
       activated <$> limited_velocity_publisher_ c' = Some true)
    ∧ (publish_wheel_joint_controller_state_ c = true →
       activated <$> wheel_joint_controller_state_publisher_ c' = Some true)
    ∧ publishers_created c' = true
    ∧ (∀ hw2, handles_resolved c' hw2 = handles_resolved c hw2)
    ∧ command_ c' = command_ c
    ∧ lifecycle_state c' = lifecycle_state c.
Proof.
  intros (Hodom & Htf & Hlim & Hws)%publishers_created_iff.
  unfold on_activate.
  destruct Htf as [tf ->], Hodom as [odom ->]. unfold set_activated at 1 2. run.
  unfold set_activated_if, set_activated.
  destruct (publish_limited_velocity_ c) eqn:Hl;
    [destruct (Hlim eq_refl) as [? ->]|]; run;
    (destruct (publish_wheel_joint_controller_state_ c) eqn:Hw;
      [destruct (Hws eq_refl) as [? ->]|]); run;
    (eexists; split; [reflexivity|]);
    repeat (split; [done|]);
    (split;
      [apply publishers_created_iff; cbn; rewrite ?Hl, ?Hw;
       repeat split; try done; by eexists
      |done]).
Qed.

Lemma on_activate_configured_witness :
  ∃ c',
    on_activate (TwoWheels.stopped true) TwoWheels.hardware
    = Returns (SUCCESS, c', TwoWheels.hardware, [])
    ∧ is_halted c' = false
    ∧ subscriber_is_active_ c' = true
    ∧ activated <$> odometry_publisher_ c' = Some true
    ∧ activated <$> odometry_transform_publisher_ c' = Some true
    ∧ publishers_created c' = true.
Proof.
  destruct (on_activate_configured (TwoWheels.stopped true) TwoWheels.hardware)
    as (c' & Heq & Hh & Hs & Ho & Ht & _ & _ & Hp & _); [reflexivity|].
  by exists c'.
Defined.

(** X13.  [on_activate] and [on_deactivate] dereference the odometry and
    transform publishers without a null check: on a controller where one of
    them is null, as [reset] leaves them, [on_activate] is undefined, and so
    is [on_deactivate] once its [halt] has gone through. *)
Theorem activation_without_publishers_undefined c hw :
  odometry_transform_publisher_ c = None ∨ odometry_publisher_ c = None →
  on_activate c hw = Undefined NullPointer
  ∧ (handles_valid c hw = true → on_deactivate c hw = Undefined NullPointer).
Proof.
  intros Hnull. split.
  - unfold on_activate. destruct Hnull as [-> | ->]; [done|].
    by destruct (odometry_transform_publisher_ c).
  - intros Hvalid. unfold on_deactivate. rewrite (halt_valid c hw Hvalid). run.
    destruct Hnull as [-> | ->]; [done|].
    by destruct (odometry_transform_publisher_ c).
Qed.

Lemma activation_without_publishers_undefined_witness :
  let c := (reset (TwoWheels.driving true)).2 in
  on_activate c TwoWheels.hardware = Undefined NullPointer
  ∧ on_deactivate c TwoWheels.hardware = Undefined NullPointer.
Proof.
  destruct (activation_without_publishers_undefined (reset (TwoWheels.driving true)).2
              TwoWheels.hardware) as [Hact Hdeact]; [by left|].
  split; [exact Hact|]. apply Hdeact. reflexivity.
Defined.

(** ** What a cycle keeps *)

Lemma handles_valid_apply_events c c' evs hw :
  registered_left_wheel_handles_ c' = registered_left_wheel_handles_ c →
  registered_right_wheel_handles_ c' = registered_right_wheel_handles_ c →
  registered_operation_mode_handles_ c' = registered_operation_mode_handles_ c →
  handles_valid c hw = true → handles_valid c' (apply_events evs hw) = true.
Proof.
  intros HL HR HM (Hl & Hr & Hm)%handles_valid_iff. apply handles_valid_iff.
  rewrite HL, HR, HM.
  auto using forallb_wheel_resolved_apply_events, forallb_mode_resolved_apply_events.
Qed.

Lemma handles_resolved_apply_events c c' evs hw :
  registered_left_wheel_handles_ c' = registered_left_wheel_handles_ c →
  registered_right_wheel_handles_ c' = registered_right_wheel_handles_ c →
  registered_operation_mode_handles_ c' = registered_operation_mode_handles_ c →
  wheel_params_ c' = wheel_params_ c →
  handles_resolved c hw = true → handles_resolved c' (apply_events evs hw) = true.
Proof.
  intros HL HR HM HW (Hv & Hl & Hr)%handles_resolved_iff. apply handles_resolved_iff.
  split; [by apply (handles_valid_apply_events c)|]. by rewrite HL, HR, HW.
Qed.

(** X14.  With resolved handles and created publishers, [update] is
    defined in every lifecycle state and for every reading, and keeps both
    preconditions for the next cycle; it never writes a joint state, and
    leaves the handle vectors, the wheel parameters, the stored command,
    the subscriber flag and the lifecycle state as they were. *)
Theorem update_keeps_cycle_preconditions c hw env :
  handles_resolved c hw = true →
  publishers_created c = true →
  ∃ ret c' hw' evs,
    update c hw env = Returns (ret, c', hw', evs)
    ∧ handles_resolved c' hw' = true
    ∧ publishers_created c' = true
    ∧ joint_states hw' = joint_states hw
    ∧ registered_left_wheel_handles_ c' = registered_left_wheel_handles_ c
    ∧ registered_right_wheel_handles_ c' = registered_right_wheel_handles_ c
    ∧ registered_operation_mode_handles_ c' = registered_operation_mode_handles_ c
    ∧ wheel_params_ c' = wheel_params_ c
    ∧ command_ c' = command_ c
    ∧ subscriber_is_active_ c' = subscriber_is_active_ c
    ∧ lifecycle_state c' = lifecycle_state c.
Proof.
  intros Hres Hpub.
  destruct (decide (lifecycle_state c = PRIMARY_STATE_ACTIVE)) as [Hact|Hinact].
  - destruct (encoders_valid c hw) eqn:Henc.
    + destruct (update_active_success c hw env Hact Hres Hpub Henc)
        as (o & reads & upd & pubs1 & pubs2 & _ & -> & _).
      eexists _, _, _, _. split; [reflexivity|].
      split; [by apply (handles_resolved_apply_events c)|].
      split; [done|]. split; [apply joint_states_apply_events|]. done.
    + destruct (update_active_error c hw env Hact Hres Henc) as (evs & -> & _).
      eexists _, _, _, _. split; [reflexivity|]. done.
  - unfold update. rewrite (inactive_bool c Hinact).
    destruct (is_halted c) eqn:Hh; cbn [negb].
    + eexists _, _, _, _. split; [reflexivity|]. done.
    + apply handles_resolved_iff in Hres as Hres'. destruct Hres' as (Hv & _).
      rewrite (halt_valid c hw Hv). run.
      eexists _, _, _, _. split; [reflexivity|].
      split; [by apply (handles_resolved_apply_events c)|].
      split; [done|]. split; [apply joint_states_apply_events|]. done.
Qed.

Lemma update_keeps_cycle_preconditions_witness :
  ∃ ret c' hw' evs,
    update (TwoWheels.driving false) TwoWheels.hardware (TwoWheels.cycle 1010000000)
    = Returns (ret, c', hw', evs)
    ∧ handles_resolved c' hw' = true
    ∧ publishers_created c' = true
    ∧ joint_states hw' = joint_states TwoWheels.hardware
    ∧ command_ c' = command_ (TwoWheels.driving false).
Proof.
  destruct (update_keeps_cycle_preconditions (TwoWheels.driving false) TwoWheels.hardware
              (TwoWheels.cycle 1010000000))
    as (ret & c' & hw' & evs & Heq & Hres & Hpub & Hjs & _ & _ & _ & _ & Hcmd & _);
    [reflexivity|reflexivity|].
  by exists ret, c', hw', evs.
Defined.

(** X15.  After [reset], which [on_error] amounts to, the cycle outside
    the active state finds no handle to halt through: it returns success
    without any call, the hardware as it was, and sets [is_halted], after
    which every such cycle does nothing at all. *)
Theorem update_after_reset c hw env :
  lifecycle_state c ≠ PRIMARY_STATE_ACTIVE →
  update (reset c).2 hw env
  = Returns (CONTROLLER_INTERFACE_RET_SUCCESS, set_is_halted (reset c).2 true, hw, [])
  ∧ controller_after (on_error c hw) = Some (reset c).2
  ∧ hardware_after (on_error c hw) = Some hw
  ∧ ∀ hw2 env2,
      update (set_is_halted (reset c).2 true) hw2 env2
      = Returns (CONTROLLER_INTERFACE_RET_SUCCESS, set_is_halted (reset c).2 true, hw2, []).
Proof.
  intros Hst. split; [|split; [done|split; [done|]]].
  - unfold update. cbn [reset snd lifecycle_state is_halted].
    by rewrite bool_decide_eq_false_2.
  - intros hw2 env2. unfold update.
    cbn [reset snd lifecycle_state is_halted set_is_halted with_cycle].
    by rewrite bool_decide_eq_false_2.
Qed.

Lemma update_after_reset_witness :
  let c := TwoWheels.stopped false in
  update (reset c).2 TwoWheels.hardware (TwoWheels.cycle 1010000000)
  = Returns (CONTROLLER_INTERFACE_RET_SUCCESS, set_is_halted (reset c).2 true,
             TwoWheels.hardware, [])
  ∧ joint_commands TwoWheels.hardware !! "left_wheel" = Some 5%float.
Proof.
  split; [|reflexivity].
  apply (update_after_reset (TwoWheels.stopped false) TwoWheels.hardware
           (TwoWheels.cycle 1010000000)).
  discriminate.
Defined.

(** ** The velocity command subscription *)

Lemma halt_wheels_calls hs hw hw' evs :
  halt_wheels hs hw = Returns (hw', evs) → evs = zero_commands hs.
Proof.
  revert hw hw' evs. induction hs as [|h hs IH]; intros hw hw' evs.
  - by intros [= _ <-].
  - cbn [halt_wheels zero_commands flat_map]. destruct (command h) as [j|]; [|done]. run.
    destruct (set_cmd j 0 hw) as [hw1|]; [|done]. run.
    destruct (halt_wheels hs hw1) as [[hw2 evs2]|] eqn:Hrest; [|done]. run.
    intros [= _ <-]. by rewrite (IH _ _ _ Hrest).
Qed.

Lemma halt_calls_returned c hw hw' evs :
  halt c hw = Returns (hw', evs) → evs = halt_calls c.
Proof.
  unfold halt, halt_calls, set_op_mode.
  destruct (halt_wheels (registered_left_wheel_handles_ c) hw) as [[hw1 evs1]|] eqn:H1;
    [|done]. run.
  destruct (halt_wheels (registered_right_wheel_handles_ c) hw1) as [[hw2 evs2]|] eqn:H2;
    [|done]. run.
  destruct (set_op_mode_handles _ ACTIVE hw2) as [[hw3 evs3]|] eqn:H3; [|done]. run.
  intros [= _ <-].
  by rewrite (halt_wheels_calls _ _ _ _ H1), (halt_wheels_calls _ _ _ _ H2),
    (set_op_mode_handles_calls _ _ _ _ _ H3).
Qed.

Lemma halt_calls_zero_velocity c j v : SetCmd j v ∈ halt_calls c → v = 0%float.
Proof.
  unfold halt_calls. rewrite !elem_of_app, !elem_of_zero_commands, elem_of_mode_commands.
  intros [(?&?&?&?&[= _ ->])|[(?&?&?&?&[= _ ->])|(?&?&?)]]; done.
Qed.

(** X16.  Whenever the velocity command callback returns, the controller
    is as before, or else the subscriber was active, both velocities of the
    message are finite and the stored command is the message stamped with
    the clock, nothing else changed and no call made.  So a stored command
    with finite velocities stays one; and the only velocity the callback
    ever commands to a wheel is zero. *)
Theorem velocity_command_callback_stores_finite c hw env c' hw' evs :
  velocity_command_callback c hw env = Returns (c', hw', evs) →
  (c' = c
   ∨ (c' = with_command c {| lin := twist_linear_x (msg env);
                             ang := twist_angular_z (msg env);
                             stamp := clock env |}
      ∧ subscriber_is_active_ c = true
      ∧ PrimFloat.is_finite (twist_linear_x (msg env)) = true
      ∧ PrimFloat.is_finite (twist_angular_z (msg env)) = true
      ∧ hw' = hw ∧ evs = []))
  ∧ (command_finite c = true → command_finite c' = true)
  ∧ (∀ joint v, SetCmd joint v ∈ evs → v = 0%float).
Proof.
  unfold velocity_command_callback.
  destruct (subscriber_is_active_ c) eqn:Hsub; cbn [negb].
  2: { intros [= <- <- <-]. split; [by left|]. split; [done|].
       intros ?? []%elem_of_nil. }
  destruct (negb (allow_multiple_cmd_vel_publishers_ c) && _).
  { destruct (halt c hw) as [[hw1 evs1]|] eqn:Hhalt; [|done]. run.
    intros [= <- <- <-]. split; [by left|]. split; [done|].
    intros joint v. rewrite (halt_calls_returned _ _ _ _ Hhalt).
    apply halt_calls_zero_velocity. }
  destruct (PrimFloat.is_finite (twist_angular_z (msg env))) eqn:Hang;
    destruct (PrimFloat.is_finite (twist_linear_x (msg env))) eqn:Hlin; cbn [negb orb];
    intros [= <- <- <-].
  - split; [right; done|]. split; [|intros ?? []%elem_of_nil].
    intros _. unfold command_finite. cbn. by rewrite Hang, Hlin.
  - split; [by left|]. split; [done|intros ?? []%elem_of_nil].
  - split; [by left|]. split; [done|intros ?? []%elem_of_nil].
  - split; [by left|]. split; [done|intros ?? []%elem_of_nil].
Qed.

Lemma velocity_command_callback_stores_finite_witness :
  let c := TwoWheels.driving true in
  ∃ c' hw' evs,
    velocity_command_callback c TwoWheels.hardware (TwoWheelsUrdf.message nan 0.5 1)
    = Returns (c', hw', evs)
    ∧ c' = c ∧ command_finite c' = true.
Proof.
  eexists _, _, _. split; [vm_compute; reflexivity|].
  eassert (velocity_command_callback (TwoWheels.driving true) TwoWheels.hardware
             (TwoWheelsUrdf.message nan 0.5 1) = Returns (_, _, _)) as Heq
    by (vm_compute; reflexivity).
  destruct (velocity_command_callback_stores_finite _ _ _ _ _ _ Heq) as (_ & Hfin & _).
  split; [reflexivity|]. apply Hfin. reflexivity.
Defined.

(** X17.  A message with finite velocities received by an active
    subscriber (a single publisher, or several allowed) is stored with the
    clock's stamp; an active cycle that starts no later than the timeout
    after that stamp limits exactly this command, retains the limited
    command as [last0_cmd_], leaves the stored one in place, and writes to
    the wheels the velocities mixed from the limited command. *)
Theorem velocity_command_reaches_wheels c hw cenv env :
  lifecycle_state c = PRIMARY_STATE_ACTIVE →
  handles_resolved c hw = true →
  publishers_created c = true →
  encoders_valid c hw = true →
  subscriber_is_active_ c = true →
  allow_multiple_cmd_vel_publishers_ c = true ∨ (publisher_count cenv ≤ 1)%nat →
  PrimFloat.is_finite (twist_linear_x (msg cenv)) = true →
  PrimFloat.is_finite (twist_angular_z (msg cenv)) = true →
  now env - clock cenv ≤ milliseconds (cmd_vel_timeout_ c) →
  let received := {| lin := twist_linear_x (msg cenv);
                     ang := twist_angular_z (msg cenv);
                     stamp := clock cenv |} in
  let cmd := enforce_limiters c (now env - previous_update_timestamp_ c) received in
  let w := wheel_params_ c in
  ∃ c1 c2 hw2 evs,
    velocity_command_callback c hw cenv = Returns (c1, hw, [])
    ∧ command_ c1 = received
    ∧ update c1 hw env = Returns (CONTROLLER_INTERFACE_RET_SUCCESS, c2, hw2, evs)
    ∧ last0_cmd_ c2 = cmd
    ∧ command_ c2 = received
    ∧ List.filter is_wheel_write evs
      = wheel_commands (registered_left_wheel_handles_ c) (registered_right_wheel_handles_ c)
          (wheel_velocity_left (lin cmd) (ang cmd) (effective_separation w)
             (effective_left_radius w))
          (wheel_velocity_right (lin cmd) (ang cmd) (effective_separation w)
             (effective_right_radius w)).
Proof.
  intros Hact Hres Hpub Henc Hsub Hcount Hlin Hang Hfresh received cmd w.
  set (c1 := with_command c received).
  assert (velocity_command_callback c hw cenv = Returns (c1, hw, [])) as Hcb.
  { unfold velocity_command_callback. rewrite Hsub, Hlin, Hang. cbn [negb orb].
    destruct Hcount as [-> | Hcount]; [done|].
    rewrite (bool_decide_eq_false_2 (1 < publisher_count cenv)%nat) by lia.
    by rewrite andb_false_r. }
  destruct (update_active_success c1 hw env Hact Hres Hpub Henc)
    as (o & reads & upd & pubs1 & pubs2 & _ & Hupd & Hreads & Hodo & Hp1 & Hp2).
  assert (limited_command c1 (now env) = cmd) as Hcmd.
  { unfold limited_command, brake_on_timeout. cbn [c1 with_command command_ stamp received
      cmd_vel_timeout_ previous_update_timestamp_].
    rewrite Z.gtb_ltb, (proj2 (Z.ltb_ge _ _)) by lia. reflexivity. }
  rewrite Hcmd in Hupd.
  eexists c1, _, _, _. split; [exact Hcb|]. split; [done|]. split; [exact Hupd|].
  split; [done|]. split; [done|].
  apply (filter_wheel_writes_cycle c1 cmd (reads ++ [upd]) pubs1 pubs2); try done.
  rewrite forallb_app. rewrite (forallb_impl _ _ _ Hreads) by by intros [].
  simpl. by destruct upd.
Qed.

Lemma velocity_command_reaches_wheels_witness :
  ∃ c1 c2 hw2 evs,
    velocity_command_callback (TwoWheels.driving true) TwoWheels.hardware
      (TwoWheelsUrdf.message 0 1 1)
    = Returns (c1, TwoWheels.hardware, [])
    ∧ update c1 TwoWheels.hardware (TwoWheels.cycle 1010000000)
      = Returns (CONTROLLER_INTERFACE_RET_SUCCESS, c2, hw2, evs)
    ∧ List.filter is_wheel_write evs
      = [SetCmd "left_wheel" (-2.5); SetCmd "right_wheel" 2.5].
Proof.
  destruct (velocity_command_reaches_wheels (TwoWheels.driving true) TwoWheels.hardware
              (TwoWheelsUrdf.message 0 1 1) (TwoWheels.cycle 1010000000))
    as (c1 & c2 & hw2 & evs & Hcb & _ & Hupd & _ & _ & Hwrites);
    try reflexivity; [by left|vm_compute; discriminate|].
  exists c1, c2, hw2, evs. split; [exact Hcb|]. split; [exact Hupd|].
  etrans; [exact Hwrites|]. vm_compute. reflexivity.
Defined.

(** X18.  With several publishers not allowed, a message that arrives
    while more than one publisher is connected is dropped, finite or not:
    the callback halts instead, writing zero to every registered wheel and
    [ACTIVE] to every operation mode, and leaves the controller object, the
    stored command included, as it was. *)
Theorem second_publisher_brakes c hw cenv :
  subscriber_is_active_ c = true →
  allow_multiple_cmd_vel_publishers_ c = false →
  (1 < publisher_count cenv)%nat →
  handles_valid c hw = true →
  velocity_command_callback c hw cenv
  = Returns (c, apply_events (halt_calls c) hw, halt_calls c)
  ∧ (∀ h joint,
       h ∈ registered_left_wheel_handles_ c ++ registered_right_wheel_handles_ c →
       command h = Some joint →
       SetCmd joint 0 ∈ halt_calls c
       ∧ joint_commands (apply_events (halt_calls c) hw) !! joint = Some 0%float)
  ∧ (∀ op, Some op ∈ registered_operation_mode_handles_ c →
       SetMode op ACTIVE ∈ halt_calls c).
Proof.
  intros Hsub Hallow Hcount Hvalid. split; [|split].
  - unfold velocity_command_callback. rewrite Hsub, Hallow.
    rewrite bool_decide_eq_true_2 by done. cbn [negb andb].
    by rewrite (halt_valid c hw Hvalid).
  - intros h joint Hin Hc. split; [|by apply (halt_calls_zero c hw h)].
    unfold halt_calls. rewrite !elem_of_app, !elem_of_zero_commands.
    apply elem_of_app in Hin as [Hin|Hin]; [left|right; left]; eauto.
  - intros op Hop. unfold halt_calls. rewrite !elem_of_app, elem_of_mode_commands. eauto.
Qed.

Lemma second_publisher_brakes_witness :
  let c := with_parameters (TwoWheels.driving true) (TwoWheelsUrdf.params 0.5 0.1 None)
             (TwoWheels.wheels 0.5) (replicate 6 0%float) (replicate 6 0%float) in
  velocity_command_callback c TwoWheels.hardware (TwoWheelsUrdf.message 1 0 2)
  = Returns (c, apply_events (halt_calls c) TwoWheels.hardware,
             [SetCmd "left_wheel" 0; SetCmd "right_wheel" 0; SetMode "op" ACTIVE])
  ∧ joint_commands (apply_events (halt_calls c) TwoWheels.hardware) !! "left_wheel"
    = Some 0%float.
Proof.
  destruct (second_publisher_brakes
              (with_parameters (TwoWheels.driving true) (TwoWheelsUrdf.params 0.5 0.1 None)
                 (TwoWheels.wheels 0.5) (replicate 6 0%float) (replicate 6 0%float))
              TwoWheels.hardware (TwoWheelsUrdf.message 1 0 2))
    as (Hcb & Hzero & _); try reflexivity; [vm_compute; lia|].
  split; [exact Hcb|].
  apply (Hzero (named_handle "left_wheel")); [|reflexivity].
  apply elem_of_app. left. by left.
Defined.

(** ** Deactivation and halting twice *)

(** X19.  With valid handles and created publishers, [on_deactivate]
    returns [SUCCESS] having made the calls of [halt], after which every
    registered wheel is commanded zero; it makes the subscriber inactive, so
    that every later message is dropped without effect, and deactivates the
    odometry and transform publishers; [is_halted], the stored command and
    the handles are as before. *)
Theorem on_deactivate_halts_and_mutes c hw :
  handles_valid c hw = true →
  publishers_created c = true →
  ∃ c',
    on_deactivate c hw = Returns (SUCCESS, c', apply_events (halt_calls c) hw, halt_calls c)
    ∧ (∀ h joint,
         h ∈ registered_left_wheel_handles_ c ++ registered_right_wheel_handles_ c →
         command h = Some joint →
         joint_commands (apply_events (halt_calls c) hw) !! joint = Some 0%float)
    ∧ subscriber_is_active_ c' = false
    ∧ (∀ hw2 cenv, velocity_command_callback c' hw2 cenv = Returns (c', hw2, []))
    ∧ activated <$> odometry_publisher_ c' = Some false
    ∧ activated <$> odometry_transform_publisher_ c' = Some false
    ∧ is_halted c' = is_halted c
    ∧ command_ c' = command_ c
    ∧ registered_left_wheel_handles_ c' = registered_left_wheel_handles_ c
    ∧ registered_right_wheel_handles_ c' = registered_right_wheel_handles_ c
    ∧ registered_operation_mode_handles_ c' = registered_operation_mode_handles_ c.
Proof.
  intros Hvalid (Hodom & Htf & Hlim & Hws)%publishers_created_iff.
  unfold on_deactivate. rewrite (halt_valid c hw Hvalid). run.
  destruct Htf as [tf ->], Hodom as [odom ->]. unfold set_activated at 1 2. run.
  unfold set_activated_if, set_activated.
  destruct (publish_limited_velocity_ c);
    [destruct (Hlim eq_refl) as [? ->]|]; run;
    (destruct (publish_wheel_joint_controller_state_ c);
      [destruct (Hws eq_refl) as [? ->]|]); run;
    (eexists; split; [reflexivity|]; split; [apply halt_calls_zero|done]).
Qed.

Lemma on_deactivate_halts_and_mutes_witness :
  let c := TwoWheels.driving true in
  ∃ c',
    on_deactivate c TwoWheels.hardware
    = Returns (SUCCESS, c', apply_events (halt_calls c) TwoWheels.hardware,
               [SetCmd "left_wheel" 0; SetCmd "right_wheel" 0; SetMode "op" ACTIVE])
    ∧ joint_commands (apply_events (halt_calls c) TwoWheels.hardware) !! "left_wheel"
      = Some 0%float
    ∧ velocity_command_callback c' TwoWheels.hardware (TwoWheelsUrdf.message 1 0 1)
      = Returns (c', TwoWheels.hardware, []).
Proof.
  destruct (on_deactivate_halts_and_mutes (TwoWheels.driving true) TwoWheels.hardware)
    as (c' & Heq & Hzero & _ & Hmute & _); [reflexivity|reflexivity|].
  exists c'. split; [exact Heq|]. split; [|apply Hmute].
  apply (Hzero (named_handle "left_wheel")); [|reflexivity].
  apply elem_of_app. left. by left.
Defined.

(** Calls that write one velocity to wheels and one mode to operation
    modes. *)
Lemma apply_event_uniform_comm v0 m0 e1 e2 hw :
  match e1 with SetCmd _ v => v = v0 | SetMode _ m => m = m0 | _ => True end →
  match e2 with SetCmd _ v => v = v0 | SetMode _ m => m = m0 | _ => True end →
  apply_event (apply_event hw e1) e2 = apply_event (apply_event hw e2) e1.
Proof.
  destruct e1 as [| j1 v1 | o1 m1 | | | | | | | |], e2 as [| j2 v2 | o2 m2 | | | | | | | |];
    try done; simpl; intros -> ->; f_equal.
  - destruct (decide (j1 = j2)) as [->|Hne]; [done|]. by apply insert_insert_ne.
  - destruct (decide (o1 = o2)) as [->|Hne]; [done|]. by apply insert_insert_ne.
Qed.

Lemma apply_events_uniform_comm v0 m0 e evs hw :
  match e with SetCmd _ v => v = v0 | SetMode _ m => m = m0 | _ => True end →
  Forall (λ e, match e with SetCmd _ v => v = v0 | SetMode _ m => m = m0 | _ => True end)
    evs →
  apply_event (apply_events evs hw) e = apply_events evs (apply_event hw e).
Proof.
  intros He Hevs. revert hw. induction Hevs as [|e' evs He' Hevs IH]; intros hw; [done|].
  cbn [apply_events foldl]. fold (apply_events evs (apply_event hw e')).
  fold (apply_events evs (apply_event (apply_event hw e) e')).
  by rewrite IH, (apply_event_uniform_comm v0 m0 e e').
Qed.

Lemma apply_event_twice e hw : apply_event (apply_event hw e) e = apply_event hw e.
Proof. destruct e; try done; simpl; f_equal; apply insert_insert_eq. Qed.

Lemma apply_events_uniform_twice v0 m0 evs hw :
  Forall (λ e, match e with SetCmd _ v => v = v0 | SetMode _ m => m = m0 | _ => True end)
    evs →
  apply_events evs (apply_events evs hw) = apply_events evs hw.
Proof.
  intros Hevs. revert hw. induction Hevs as [|e evs He Hevs IH]; intros hw; [done|].
  cbn [apply_events foldl]. fold (apply_events evs (apply_event hw e)).
  fold (apply_events evs (apply_event (apply_events evs (apply_event hw e)) e)).
  rewrite (apply_events_uniform_comm v0 m0 e evs) by done.
  by rewrite IH, apply_event_twice.
Qed.

Lemma halt_calls_uniform c :
  Forall (λ e, match e with
               | SetCmd _ v => v = 0%float
               | SetMode _ m => m = ACTIVE
               | _ => True
               end) (halt_calls c).
Proof.
  apply Forall_forall. intros e. unfold halt_calls.
  rewrite !elem_of_app, !elem_of_zero_commands, elem_of_mode_commands.
  intros [(?&?&?&?&->)|[(?&?&?&?&->)|(?&?&->)]]; done.
Qed.

(** X20.  With valid handles, [halt] makes the same calls every time, and
    halting again changes nothing in the hardware; it never writes a joint
    state, and the handles stay valid. *)
Theorem halt_idempotent c hw :
  handles_valid c hw = true →
  ∃ hw1,
    halt c hw = Returns (hw1, halt_calls c)
    ∧ halt c hw1 = Returns (hw1, halt_calls c)
    ∧ joint_states hw1 = joint_states hw
    ∧ handles_valid c hw1 = true.
Proof.
  intros Hvalid. exists (apply_events (halt_calls c) hw).
  assert (handles_valid c (apply_events (halt_calls c) hw) = true) as Hvalid1
    by by apply (handles_valid_apply_events c).
  split; [by apply halt_valid|]. split; [|split; [apply joint_states_apply_events|done]].
  rewrite (halt_valid _ _ Hvalid1).
  by rewrite (apply_events_uniform_twice 0%float ACTIVE) by apply halt_calls_uniform.
Qed.

Lemma halt_idempotent_witness :
  let c := TwoWheels.driving true in
  ∃ hw1,
    halt c TwoWheels.hardware
    = Returns (hw1, [SetCmd "left_wheel" 0; SetCmd "right_wheel" 0; SetMode "op" ACTIVE])
    ∧ halt c hw1
      = Returns (hw1, [SetCmd "left_wheel" 0; SetCmd "right_wheel" 0; SetMode "op" ACTIVE]).
Proof.
  destruct (halt_idempotent (TwoWheels.driving true) TwoWheels.hardware)
    as (hw1 & H1 & H2 & _); [reflexivity|].
  by exists hw1.
Defined.

(** ** The wheel mixer *)

Lemma Prim2SF_inj x y : Prim2SF x = Prim2SF y → x = y.
Proof. intros H. by rewrite <- (SF2Prim_Prim2SF x), <- (SF2Prim_Prim2SF y), H. Qed.

Lemma is_zero_true_SF x : PrimFloat.is_zero x = true → ∃ s, Prim2SF x = S754_zero s.
Proof.
  unfold PrimFloat.is_zero. rewrite FloatAxioms.eqb_spec.
  change (Prim2SF zero) with (S754_zero false).
  destruct (Prim2SF x) as [s|s| |s m e]; simpl; eauto; try done; by destruct s.
Qed.

Lemma is_zero_false_SF x :
  PrimFloat.is_zero x = false →
  Prim2SF x = S754_nan ∨ (∃ s, Prim2SF x = S754_infinity s)
  ∨ (∃ s m e, Prim2SF x = S754_finite s m e).
Proof.
  unfold PrimFloat.is_zero. rewrite FloatAxioms.eqb_spec.
  change (Prim2SF zero) with (S754_zero false).
  destruct (Prim2SF x) as [s|s| |s m e]; simpl; eauto 6; done.
Qed.

(** The turn term [ang * sep / 2] of a command that does not turn. *)
Lemma turn_term_zero ang sep :
  PrimFloat.is_zero ang = true → PrimFloat.is_finite sep = true →
  ∃ s, Prim2SF (ang * sep / 2)%float = S754_zero s.
Proof.
  intros [sa Ha]%is_zero_true_SF Hsep.
  rewrite div_spec, mul_spec, Ha, Prim2SF_two.
  destruct (is_finite_SF _ Hsep) as [[s ->]|(s & m & e & ->)]; simpl; eauto.
Qed.

(** X21.  For a command that does not turn (angular velocity zero of
    either sign), a finite separation and a linear velocity other than zero,
    the mixer gives each side exactly the linear velocity divided by its
    radius, so equal radii give equal wheel velocities. *)
Theorem straight_command_drives_both_sides_alike lin ang sep left_radius right_radius :
  PrimFloat.is_zero ang = true →
  PrimFloat.is_finite sep = true →
  PrimFloat.is_zero lin = false →
  wheel_velocity_left lin ang sep left_radius = (lin / left_radius)%float
  ∧ wheel_velocity_right lin ang sep right_radius = (lin / right_radius)%float.
Proof.
  intros Hang Hsep Hlin.
  destruct (turn_term_zero ang sep Hang Hsep) as [s Hs].
  unfold wheel_velocity_left, wheel_velocity_right.
  assert ((lin - ang * sep / 2)%float = lin) as ->.
  { apply Prim2SF_inj. rewrite sub_spec, Hs.
    by destruct (is_zero_false_SF _ Hlin) as [-> |[[sl ->]|(sl & m & e & ->)]]. }
  assert ((lin + ang * sep / 2)%float = lin) as ->.
  { apply Prim2SF_inj. rewrite add_spec, Hs.
    by destruct (is_zero_false_SF _ Hlin) as [-> |[[sl ->]|(sl & m & e & ->)]]. }
  done.
Qed.

Lemma straight_command_drives_both_sides_alike_witness :
  wheel_velocity_left 1 0 0.5 0.1 = (1 / 0.1)%float
  ∧ wheel_velocity_right 1 0 0.5 0.1 = (1 / 0.1)%float.
Proof.
  apply (straight_command_drives_both_sides_alike 1 0 0.5 0.1 0.1); reflexivity.
Defined.

Lemma binary_round_aux_opp s m e l :
  binary_round_aux prec emax (negb s) m e l = SFopp (binary_round_aux prec emax s m e l).
Proof.
  unfold binary_round_aux.
  destruct (shr_fexp prec emax m e l) as [mrs' e'].
  destruct (shr_fexp prec emax _ e' SpecFloat.loc_Exact) as [mrs'' e''].
  destruct (shr_m mrs''); try done. by destruct (e'' <=? emax - prec).
Qed.

Lemma SFdiv_opp x y : SFdiv prec emax (SFopp x) y = SFopp (SFdiv prec emax x y).
Proof.
  destruct x as [sx|sx| |sx mx ex], y as [sy|sy| |sy my ey]; simpl;
    rewrite <- ?Bool.negb_xorb_l; try done.
  destruct (SFdiv_core_binary prec emax (Z.pos mx) ex (Z.pos my) ey) as [[mz ez] lz].
  apply binary_round_aux_opp.
Qed.

(** X22.  For a command with zero linear velocity whose turn term
    [ang * sep / 2] is not zero, the mixer gives the left wheels exactly the
    negated velocity of the right wheels, for one wheel radius. *)
Theorem turn_in_place_drives_sides_opposite lin ang sep wheel_radius :
  PrimFloat.is_zero lin = true →
  PrimFloat.is_zero (ang * sep / 2) = false →
  wheel_velocity_left lin ang sep wheel_radius
  = (- wheel_velocity_right lin ang sep wheel_radius)%float.
Proof.
  intros [sl Hl]%is_zero_true_SF Hturn.
  unfold wheel_velocity_left, wheel_velocity_right. apply Prim2SF_inj.
  rewrite opp_spec, !div_spec, <- SFdiv_opp. f_equal.
  rewrite sub_spec, add_spec, Hl.
  by destruct (is_zero_false_SF _ Hturn) as [-> |[[s ->]|(s & m & e & ->)]].
Qed.

Lemma turn_in_place_drives_sides_opposite_witness :
  wheel_velocity_left 0 1 0.5 0.1 = (- wheel_velocity_right 0 1 0.5 0.1)%float
  ∧ wheel_velocity_right 0 1 0.5 0.1 = 2.5%float.
Proof.
  split; [|reflexivity].
  apply (turn_in_place_drives_sides_opposite 0 1 0.5 0.1); reflexivity.
Defined.
